(** * Us chat server: matching service, socket handlers and input validators

    A shallow embedding of
      - [server/utils/constants.js] and [server/utils/validators.js],
      - the matching service (registry of online users, [findMatchingUser],
        [createRoom], [leaveRoom]),
      - the socket handlers [connection], [join-room], [leave-room] and
        [disconnect] of [chatSocket], together with the part of the
        socket.io transport they rely on (connected sockets, rooms, emits).

    Logging ([logger.info] and friends) only writes to the console and is
    left out throughout. *)

From Stdlib Require Import Floats.PrimFloat.
From stdpp Require Import base option list strings gmap pretty.

(* ===================================================================== *)
(** ** JavaScript values                                                  *)
(* ===================================================================== *)

Module JS.

(** A JavaScript string is a sequence of UTF-16 code units; [length] counts
    code units and [===] on strings compares them unit by unit. *)
Definition code_unit := N.
Definition jsstring := list code_unit.

(** A string literal of the source (all of them are ASCII). *)
Definition lit (s : string) : jsstring :=
  Ascii.N_of_ascii <$> String.list_ascii_of_string s.
Arguments lit s%_string.

(** [WhiteSpace] and [LineTerminator] of ECMAScript, the code units that
    [String.prototype.trim] strips: TAB, LF, VT, FF, CR, SP, NBSP,
    U+1680, U+2000..U+200A, U+2028, U+2029, U+202F, U+205F, U+3000 and
    U+FEFF. *)
Definition isWhiteSpace (c : code_unit) : bool :=
  ((9 <=? c) && (c <=? 13) || (c =? 32) || (c =? 160) || (c =? 5760)
   || (8192 <=? c) && (c <=? 8202) || (c =? 8232) || (c =? 8233)
   || (c =? 8239) || (c =? 8287) || (c =? 12288) || (c =? 65279))%N.

Fixpoint trimStart (s : jsstring) : jsstring :=
  match s with
  | c :: s' => if isWhiteSpace c then trimStart s' else s
  | [] => []
  end.

Definition trimEnd (s : jsstring) : jsstring := rev (trimStart (rev s)).

(** [s.trim()] *)
Definition trim (s : jsstring) : jsstring := trimEnd (trimStart s).

#[local] Set Warnings "-register-all".

(** The values an event payload or a function argument can hold.  Numbers
    are IEEE doubles; [JUndefined] also stands for a missing property or
    argument; an object holds a key once. *)
Inductive JsVal : Type :=
| JUndefined
| JNull
| JBool (b : bool)
| JNum (f : float)
| JStr (s : jsstring)
| JArr (elems : list JsVal)
| JObj (props : list (jsstring * JsVal)).

(** ToBoolean: [undefined], [null], [false], [0], [-0], [NaN] and the empty
    string are falsy, everything else (every array and object too) is
    truthy. *)
Definition truthy (v : JsVal) : bool :=
  match v with
  | JUndefined | JNull => false
  | JBool b => b
  | JNum f => negb (PrimFloat.eqb f 0%float || PrimFloat.is_nan f)
  | JStr s => negb (bool_decide (s = []))
  | JArr _ | JObj _ => true
  end.

(** Truthiness of a string-or-null reference such as [user.roomId]. *)
Definition truthyStr (o : option jsstring) : bool :=
  match o with
  | Some s => negb (bool_decide (s = []))
  | None => false
  end.

(** [typeof v === 'string'] *)
Definition isString (v : JsVal) : bool :=
  match v with JStr _ => true | _ => false end.

(** Template-literal rendering of a non-negative integer. *)
Definition numToString (n : nat) : jsstring := lit (pretty n).

End JS.
Import JS.

(* ===================================================================== *)
(** ** server/utils/constants.js                                          *)
(* ===================================================================== *)

Module ROOM_TYPES.
Definition TEXT_CHAT : jsstring := lit "text-chat".
Definition VIDEO_CHAT : jsstring := lit "video-chat".
End ROOM_TYPES.

Module DISCONNECT_REASONS.
Definition SKIP : jsstring := lit "skip".
Definition DISCONNECTED : jsstring := lit "disconnected".
Definition ERROR : jsstring := lit "error".
End DISCONNECT_REASONS.

Module SOCKET_EVENTS.
Definition USER_COUNT : jsstring := lit "user-count".
Definition USER_JOINED : jsstring := lit "user-joined".
Definition USER_LEFT : jsstring := lit "user-left".
Definition MATCH_FOUND : jsstring := lit "match-found".
End SOCKET_EVENTS.

Module VALIDATION_LIMITS.
Definition MAX_MESSAGE_LENGTH : nat := 500.
Definition MAX_INTERESTS : nat := 10.
Definition MAX_USERNAME_LENGTH : nat := 50.
Definition MIN_USERNAME_LENGTH : nat := 3.
End VALIDATION_LIMITS.

(* ===================================================================== *)
(** ** server/utils/validators.js                                         *)
(* ===================================================================== *)

Module Validators.

(** The result object of a validator: [{ isValid: true, <field>: value }] or
    [{ isValid: false, error }]. *)
Inductive Validation (A : Type) : Type :=
| Valid (value : A)
| Invalid (error : jsstring).
Arguments Valid {A} value.
Arguments Invalid {A} error.

Definition isValid {A} (r : Validation A) : bool :=
  match r with Valid _ => true | Invalid _ => false end.

Definition isValidRoomId (roomId : JsVal) : bool :=
  match roomId with
  | JStr s => truthy roomId && (0 <? length (trim s))
  | _ => false
  end.

(** The first test, [!message || typeof message !== 'string'], rejects every
    non-string and the empty string. *)
Definition validateMessage (message : JsVal) : Validation jsstring :=
  match message with
  | JStr s =>
      if negb (truthy message) then
        Invalid (lit "Message must be a non-empty string")
      else
        let trimmedMessage := trim s in
        if length trimmedMessage =? 0 then
          Invalid (lit "Message cannot be empty")
        else if VALIDATION_LIMITS.MAX_MESSAGE_LENGTH <? length trimmedMessage then
          Invalid (lit "Message too long (max "
                     ++ numToString VALIDATION_LIMITS.MAX_MESSAGE_LENGTH
                     ++ lit " characters)")
        else Valid trimmedMessage
  | _ => Invalid (lit "Message must be a non-empty string")
  end.

(** The [filter] callback of [validateInterests]:
    [typeof i === 'string' && i.trim().length > 0]. *)
Definition keepInterest (i : JsVal) : bool :=
  match i with
  | JStr s => 0 <? length (trim s)
  | _ => false
  end.

(** The [map] callback [i => i.trim()]; it only ever runs on the strings the
    filter has kept. *)
Definition trimInterest (i : JsVal) : jsstring :=
  match i with
  | JStr s => trim s
  | _ => []
  end.

Definition validInterests (interests : list JsVal) : list jsstring :=
  trimInterest <$> List.filter keepInterest interests.

Definition validateInterests (interests : JsVal) : Validation (list jsstring) :=
  if negb (truthy interests) then Valid []
  else
    match interests with
    | JArr l =>
        if VALIDATION_LIMITS.MAX_INTERESTS <? length l then
          Invalid (lit "Too many interests (max "
                     ++ numToString VALIDATION_LIMITS.MAX_INTERESTS ++ lit ")")
        else Valid (validInterests l)
    | _ => Invalid (lit "Interests must be an array")
    end.

Definition validateUsername (username : JsVal) : Validation jsstring :=
  match username with
  | JStr s =>
      if negb (truthy username) then Invalid (lit "Username must be a string")
      else
        let trimmedUsername := trim s in
        if length trimmedUsername <? VALIDATION_LIMITS.MIN_USERNAME_LENGTH then
          Invalid (lit "Username too short (min "
                     ++ numToString VALIDATION_LIMITS.MIN_USERNAME_LENGTH
                     ++ lit " characters)")
        else if VALIDATION_LIMITS.MAX_USERNAME_LENGTH <? length trimmedUsername then
          Invalid (lit "Username too long (max "
                     ++ numToString VALIDATION_LIMITS.MAX_USERNAME_LENGTH
                     ++ lit " characters)")
        else Valid trimmedUsername
  | _ => Invalid (lit "Username must be a string")
  end.

End Validators.

(* ===================================================================== *)
(** ** JavaScript [Map]                                                   *)
(* ===================================================================== *)

(** A [Map] iterates in insertion order, and [findMatchingUser] returns the
    first entry that fits, so the registry is kept as the list of its
    entries.  [set] on a present key keeps its position; a [Map] never holds
    a key twice ([wf]).  [alter] is an assignment to a field of the object
    stored under a key.  (A [Set], where the source has one, is a [gset].) *)
Module JsMap.
Section JsMap.
Context {K V : Type} `{EqDecision K}.

Definition t := list (K * V).

Definition empty : t := [].

Fixpoint get (k : K) (m : t) : option V :=
  match m with
  | (k', v) :: m' => if decide (k' = k) then Some v else get k m'
  | [] => None
  end.

Fixpoint alter (f : V → V) (k : K) (m : t) : t :=
  match m with
  | (k', v) :: m' =>
      if decide (k' = k) then (k', f v) :: m' else (k', v) :: alter f k m'
  | [] => []
  end.

Definition set (k : K) (v : V) (m : t) : t :=
  match get k m with
  | Some _ => alter (λ _, v) k m
  | None => m ++ [(k, v)]
  end.

Definition delete (k : K) (m : t) : t :=
  List.filter (λ e, negb (bool_decide (e.1 = k))) m.

Definition size (m : t) : nat := length m.

Definition keys (m : t) : list K := m.*1.

Definition wf (m : t) : Prop := NoDup (keys m).

End JsMap.
Arguments t : clear implicits.
End JsMap.

(* ===================================================================== *)
(** ** The matching service                                               *)
(* ===================================================================== *)

(** An entry of [onlineUsers].  The service documents [interests] as an
    array of interests; the socket handlers only ever store the strings
    [validateInterests] returns.  [roomId] is [null] or a room id. *)
Module User.
Record t : Type := mk {
  interests : list jsstring;
  roomId : option jsstring;
  username : jsstring
}.

(** The [updates] object given to [Object.assign]: each field is present or
    not ([roomId: null] is a present field holding [null]). *)
Record Updates : Type := mkUpdates {
  upd_interests : option (list jsstring);
  upd_roomId : option (option jsstring);
  upd_username : option jsstring
}.

Definition noUpdates : Updates := mkUpdates None None None.

(** [Object.assign(user, updates)] *)
Definition assign (user : t) (updates : Updates) : t :=
  {| interests := default (interests user) (upd_interests updates);
     roomId := default (roomId user) (upd_roomId updates);
     username := default (username user) (upd_username updates) |}.

Definition setRoomId (r : option jsstring) (user : t) : t :=
  {| interests := interests user; roomId := r; username := username user |}.

(** [!user.roomId]: no room assigned.  [roomId] is [null] then, or the empty
    string, which is no room's id. *)
Definition idle (user : t) : bool := negb (truthyStr (roomId user)).
End User.

Module MatchingService.

(** The two module-level stores. *)
Record t : Type := mk {
  onlineUsers : JsMap.t jsstring User.t;
  textChatUsers : gset jsstring
}.

Definition init : t := mk JsMap.empty ∅.

Definition withUsers (m : JsMap.t jsstring User.t) (st : t) : t :=
  mk m (textChatUsers st).

(** [rnd] is the value of [Math.floor(Math.random() * 1000)]. *)
Definition addUser (socketId : jsstring) (userData : User.Updates) (rnd : nat)
    (st : t) : t * User.t :=
  let username :=
    match User.upd_username userData with
    | Some n => if truthy (JStr n) then n else lit "User" ++ numToString rnd
    | None => lit "User" ++ numToString rnd
    end in
  let user :=
    User.assign
      {| User.interests := default [] (User.upd_interests userData);
         User.roomId := None;
         User.username := username |}
      userData in
  (withUsers (JsMap.set socketId user (onlineUsers st)) st, user).

Definition removeUser (socketId : jsstring) (st : t) : t * option User.t :=
  let user := JsMap.get socketId (onlineUsers st) in
  (mk (JsMap.delete socketId (onlineUsers st)) (textChatUsers st ∖ {[socketId]}),
   user).

Definition getUser (socketId : jsstring) (st : t) : option User.t :=
  JsMap.get socketId (onlineUsers st).

Definition updateUser (socketId : jsstring) (updates : User.Updates) (st : t)
    : t * option User.t :=
  match JsMap.get socketId (onlineUsers st) with
  | Some user =>
      (withUsers (JsMap.alter (λ u, User.assign u updates) socketId (onlineUsers st)) st,
       Some (User.assign user updates))
  | None => (st, None)
  end.

Definition getOnlineUserCount (st : t) : nat := JsMap.size (onlineUsers st).

Definition addToTextChat (socketId : jsstring) (st : t) : t :=
  mk (onlineUsers st) ({[socketId]} ∪ textChatUsers st).

Definition isInTextChat (socketId : jsstring) (st : t) : bool :=
  bool_decide (socketId ∈ textChatUsers st).

(** [user.interests.filter(i => interests && interests.includes(i))] *)
Definition commonInterests (user : User.t) (interests : list jsstring)
    : list jsstring :=
  List.filter (λ i, bool_decide (i ∈ interests)) (User.interests user).

(** The test of the first loop, with the [commonInterests.length > 0] test
    of its body.  An entry's [interests] is an array here, which is truthy,
    so [user.interests && Array.isArray(user.interests)] holds. *)
Definition sharesInterest (socketId : jsstring) (interests : list jsstring)
    (e : jsstring * User.t) : bool :=
  bool_decide (e.1 ≠ socketId)
  && User.idle e.2
  && (0 <? length (User.interests e.2))
  && (0 <? length (commonInterests e.2 interests)).

(** The test of the second loop: [id !== socketId && !user.roomId]. *)
Definition isWaiting (socketId : jsstring) (e : jsstring * User.t) : bool :=
  bool_decide (e.1 ≠ socketId) && User.idle e.2.

(** Each loop returns the id of the first entry, in iteration order, that
    passes its test. *)
Definition firstPass (socketId : jsstring) (interests : list jsstring) (st : t)
    : option jsstring :=
  fst <$> List.find (sharesInterest socketId interests) (onlineUsers st).

Definition secondPass (socketId : jsstring) (st : t) : option jsstring :=
  fst <$> List.find (isWaiting socketId) (onlineUsers st).

Definition findMatchingUser (socketId : jsstring) (interests : list jsstring)
    (st : t) : option jsstring :=
  match firstPass socketId interests st with
  | Some id => Some id
  | None => secondPass socketId st
  end.

(** [if (user) user.roomId = roomId] *)
Definition assignRoom (socketId : jsstring) (r : option jsstring) (st : t) : t :=
  withUsers (JsMap.alter (User.setRoomId r) socketId (onlineUsers st)) st.

Definition createRoom (socketId1 socketId2 : jsstring) (st : t) : t * jsstring :=
  let roomId := lit "chat-" ++ socketId1 ++ lit "-" ++ socketId2 in
  let st1 := assignRoom socketId1 (Some roomId) st in
  let st2 := assignRoom socketId2 (Some roomId) st1 in
  (st2, roomId).

Definition leaveRoom (socketId : jsstring) (st : t) : t * option jsstring :=
  match JsMap.get socketId (onlineUsers st) with
  | Some user =>
      if truthyStr (User.roomId user) then
        (assignRoom socketId None st, User.roomId user)
      else (st, None)
  | None => (st, None)
  end.

Definition getAllUsers (st : t) : JsMap.t jsstring User.t := onlineUsers st.

(** No entry has the empty string for [roomId]. *)
Definition roomIdsNamed (st : t) : Prop :=
  ∀ id user, (id, user) ∈ onlineUsers st → User.roomId user ≠ Some [].

End MatchingService.

(** The copy of [findMatchingUser] that the older, self-contained
    [chatSocket] keeps over its own [onlineUsers]: the same two loops, the
    first without the [user.interests.length > 0] test. *)
Module Legacy.

Definition sharesInterest (socketId : jsstring) (interests : list jsstring)
    (e : jsstring * User.t) : bool :=
  bool_decide (e.1 ≠ socketId)
  && User.idle e.2
  && (0 <? length (MatchingService.commonInterests e.2 interests)).

Definition findMatchingUser (socketId : jsstring) (interests : list jsstring)
    (onlineUsers : JsMap.t jsstring User.t) : option jsstring :=
  match fst <$> List.find (sharesInterest socketId interests) onlineUsers with
  | Some id => Some id
  | None => fst <$> List.find (MatchingService.isWaiting socketId) onlineUsers
  end.

End Legacy.

(* ===================================================================== *)
(** ** The socket.io transport, as far as the handlers use it             *)
(* ===================================================================== *)

Module Transport.

(** What an emitted event carries. *)
Inductive Payload : Type :=
| UserCount (count : nat)
| MatchFound (roomId : jsstring) (initiator : bool) (interests : list jsstring)
| UserJoined (username : jsstring)
| UserLeft (reason : option JsVal) (username : option jsstring).

(** One event arriving at one connected socket. *)
Record Delivery : Type := mkDelivery {
  recipient : jsstring;
  event : jsstring;
  payload : Payload
}.

(** [io.sockets.sockets]: the connected sockets, each with [socket.rooms],
    the rooms it has joined.  As socket.io documents it: every socket joins
    a room named by its own id when it connects; a socket has left all its
    rooms, and this map, when its [disconnect] handler runs; [io.to(room)]
    reaches the sockets in [room], [socket.to(room)] those but the sender,
    [io.emit] every connected socket.  (socket.io leaves out the sender of
    [socket.to] as the member of the room named by the sender's id.) *)
Definition Sockets := JsMap.t jsstring (gset jsstring).

(** The rooms an argument of [to(...)] names: a room, or an array of rooms.
    Only rooms with a string for a name are ever joined. *)
Definition roomNames (v : JsVal) : list jsstring :=
  match v with
  | JStr r => [r]
  | JArr l => omap (λ x, match x with JStr r => Some r | _ => None end) l
  | _ => []
  end.

Definition inAnyRoom (rooms : list jsstring) (e : jsstring * gset jsstring)
    : bool :=
  existsb (λ r, bool_decide (r ∈ e.2)) rooms.

(** The sockets that are in one of [rooms] at least, each of them once. *)
Definition members (rooms : list jsstring) (ss : Sockets) : list jsstring :=
  (List.filter (inAnyRoom rooms) ss).*1.

(** [io.emit(event, data)] *)
Definition io_emit (ev : jsstring) (data : Payload) (ss : Sockets)
    : list Delivery :=
  (λ s, mkDelivery s ev data) <$> JsMap.keys ss.

(** [io.to(room).emit(event, data)] *)
Definition io_to_emit (room ev : jsstring) (data : Payload) (ss : Sockets)
    : list Delivery :=
  (λ s, mkDelivery s ev data) <$> members [room] ss.

(** [socket.to(rooms).emit(event, data)]: everyone in [rooms] but the
    sender. *)
Definition socket_to_emit (sender : jsstring) (rooms : list jsstring)
    (ev : jsstring) (data : Payload) (ss : Sockets) : list Delivery :=
  (λ s, mkDelivery s ev data)
    <$> List.filter (λ s, bool_decide (s ≠ sender)) (members rooms ss).

(** The sockets [to(v)] selects for a payload value [v].  socket.io adds
    [v], or each element of an array [v], to a set of rooms and then reaches
    the sockets in one of these rooms; with no room in the set (only
    [to([])] gives none) it reaches every socket. *)
Definition selected (v : JsVal) (ss : Sockets) : list jsstring :=
  match v with
  | JArr [] => JsMap.keys ss
  | _ => members (roomNames v) ss
  end.

(** [socket.to(v).emit(event, data)] for a payload value [v]. *)
Definition socket_to_emit_val (sender : jsstring) (v : JsVal)
    (ev : jsstring) (data : Payload) (ss : Sockets) : list Delivery :=
  (λ s, mkDelivery s ev data)
    <$> List.filter (λ s, bool_decide (s ≠ sender)) (selected v ss).

(** [socket.emit(event, data)] *)
Definition socket_emit (sender ev : jsstring) (data : Payload) : list Delivery :=
  [mkDelivery sender ev data].

(** [socket.join(room)] and [socket.leave(room)] of the socket [sid]. *)
Definition join (sid room : jsstring) (ss : Sockets) : Sockets :=
  JsMap.alter (λ rooms, {[room]} ∪ rooms) sid ss.

Definition leave (sid room : jsstring) (ss : Sockets) : Sockets :=
  JsMap.alter (λ rooms, rooms ∖ {[room]}) sid ss.

(** [socket.leave(v)] for a payload value: anything but a string names no
    room the socket is in. *)
Definition leaveVal (sid : jsstring) (v : JsVal) (ss : Sockets) : Sockets :=
  match v with
  | JStr r => leave sid r ss
  | _ => ss
  end.

(** A socket connects: it enters the map, in the room of its own id. *)
Definition connect (sid : jsstring) (ss : Sockets) : Sockets :=
  JsMap.set sid {[sid]} ss.

(** A socket disconnects: it leaves all rooms and the map. *)
Definition disconnect (sid : jsstring) (ss : Sockets) : Sockets :=
  JsMap.delete sid ss.

End Transport.

(* ===================================================================== *)
(** ** chatSocket: the event handlers                                     *)
(* ===================================================================== *)

Module ChatSocket.
Import Validators Transport.

Record Server : Type := mkServer {
  service : MatchingService.t;
  sockets : Sockets
}.

Definition init : Server := mkServer MatchingService.init JsMap.empty.

(** [v.key] for a payload [v]: a property of an object, [undefined] on
    anything else that is not [null] or [undefined]. *)
Definition getProp (key : jsstring) (v : JsVal) : JsVal :=
  match v with
  | JObj props => default JUndefined (JsMap.get key props)
  | _ => JUndefined
  end.

(** [v === s] for a string literal [s]. *)
Definition isTheString (v : JsVal) (s : jsstring) : bool :=
  match v with
  | JStr r => bool_decide (r = s)
  | _ => false
  end.

(** [data || {}] *)
Definition orEmptyObject (data : JsVal) : JsVal :=
  if truthy data then data else JObj [].

(** The body of [io.on('connection', socket => ...)] up to the registration
    of the handlers. *)
Definition onConnection (sid : jsstring) (rnd : nat) (srv : Server)
    : Server * list Delivery :=
  let '(svc, _) := MatchingService.addUser sid User.noUpdates rnd (service srv) in
  (mkServer svc (sockets srv),
   io_emit SOCKET_EVENTS.USER_COUNT
     (UserCount (MatchingService.getOnlineUserCount svc)) (sockets srv)).

(** The [else] branch of the matching: [updateUser(socket.id, { roomId: null })]. *)
Definition wait (sid : jsstring) (svc : MatchingService.t) (ss : Sockets)
    : Server * list Delivery :=
  let '(svc1, _) :=
    MatchingService.updateUser sid (User.mkUpdates None (Some None) None) svc in
  (mkServer svc1 ss, []).

(** The video-chat part of the join-room handler, from [findMatchingUser]
    on.  [svc] is the service after the interests have been stored.  The
    handler of a socket only runs while that socket is connected. *)
Definition matchOrWait (sid : jsstring) (interests : list jsstring)
    (svc : MatchingService.t) (ss : Sockets) : Server * list Delivery :=
  match MatchingService.findMatchingUser sid interests svc with
  | Some matchId =>
      if truthy (JStr matchId) then
        let matchUser := MatchingService.getUser matchId svc in
        let '(svc1, newRoomId) := MatchingService.createRoom sid matchId svc in
        let ss1 := join sid newRoomId ss in
        let ss2 := join matchId newRoomId ss1 in
        (mkServer svc1 ss2,
         io_to_emit matchId SOCKET_EVENTS.MATCH_FOUND
           (MatchFound newRoomId false interests) ss2
         ++ socket_emit sid SOCKET_EVENTS.MATCH_FOUND
              (MatchFound newRoomId true
                 (default [] (User.interests <$> matchUser))))
      else wait sid svc ss
  | None => wait sid svc ss
  end.

(** [const { roomId: requestedRoomId, interests = [] } = data || {}] *)
Definition requestedRoomId (data : JsVal) : JsVal :=
  getProp (lit "roomId") (orEmptyObject data).

Definition requestedInterests (data : JsVal) : JsVal :=
  match getProp (lit "interests") (orEmptyObject data) with
  | JUndefined => JArr []
  | v => v
  end.

(** [socket.on('join-room', data => ...)] *)
Definition onJoinRoom (sid : jsstring) (data : JsVal) (srv : Server)
    : Server * list Delivery :=
  match MatchingService.getUser sid (service srv) with
  | None => (srv, [])
  | Some user =>
      match validateInterests (requestedInterests data) with
      | Invalid _ => (srv, [])
      | Valid validated =>
          let '(svc1, _) :=
            MatchingService.updateUser sid
              (User.mkUpdates (Some validated) None None) (service srv) in
          if isTheString (requestedRoomId data) ROOM_TYPES.TEXT_CHAT then
            let '(svc2, _) :=
              MatchingService.updateUser sid
                (User.mkUpdates None (Some (Some ROOM_TYPES.TEXT_CHAT)) None)
                svc1 in
            let svc3 := MatchingService.addToTextChat sid svc2 in
            let ss1 := join sid ROOM_TYPES.TEXT_CHAT (sockets srv) in
            (mkServer svc3 ss1,
             socket_to_emit sid [ROOM_TYPES.TEXT_CHAT] SOCKET_EVENTS.USER_JOINED
               (UserJoined (User.username user)) ss1)
          else matchOrWait sid validated svc1 (sockets srv)
      end
  end.

(** [socket.on('leave-room', data => ...)].  [socket.to(roomId)] and
    [socket.leave(roomId)] get the [roomId] of the payload as it is: a
    string, or any other truthy value. *)
Definition onLeaveRoom (sid : jsstring) (data : JsVal) (srv : Server)
    : Server * list Delivery :=
  match MatchingService.getUser sid (service srv) with
  | None => (srv, [])
  | Some user =>
      let roomId := getProp (lit "roomId") (orEmptyObject data) in
      let reason := getProp (lit "reason") (orEmptyObject data) in
      let '(ss1, out) :=
        if truthy roomId && negb (isTheString roomId ROOM_TYPES.TEXT_CHAT) then
          (leaveVal sid roomId (sockets srv),
           socket_to_emit_val sid roomId SOCKET_EVENTS.USER_LEFT
             (UserLeft
                (Some (if truthy reason then reason
                       else JStr DISCONNECT_REASONS.DISCONNECTED))
                (Some (User.username user)))
             (sockets srv))
        else if isTheString roomId ROOM_TYPES.TEXT_CHAT then
          (leave sid ROOM_TYPES.TEXT_CHAT (sockets srv),
           socket_to_emit sid [ROOM_TYPES.TEXT_CHAT] SOCKET_EVENTS.USER_LEFT
             (UserLeft None (Some (User.username user))) (sockets srv))
        else (sockets srv, []) in
      let '(svc1, _) := MatchingService.leaveRoom sid (service srv) in
      (mkServer svc1 ss1, out)
  end.

(** [socket.on('disconnect', () => ...)].  It runs on the sockets that are
    left after [Transport.disconnect]. *)
Definition onDisconnect (sid : jsstring) (srv : Server)
    : Server * list Delivery :=
  let user := MatchingService.getUser sid (service srv) in
  let out1 :=
    match user with
    | Some u =>
        match User.roomId u with
        | Some r =>
            if truthyStr (User.roomId u) && bool_decide (r ≠ ROOM_TYPES.TEXT_CHAT)
            then io_to_emit r SOCKET_EVENTS.USER_LEFT
                   (UserLeft (Some (JStr DISCONNECT_REASONS.DISCONNECTED))
                      (Some (User.username u)))
                   (sockets srv)
            else []
        | None => []
        end
    | None => []
    end in
  let out2 :=
    if MatchingService.isInTextChat sid (service srv) then
      io_to_emit ROOM_TYPES.TEXT_CHAT SOCKET_EVENTS.USER_LEFT
        (UserLeft None (User.username <$> user)) (sockets srv)
    else [] in
  let '(svc1, _) := MatchingService.removeUser sid (service srv) in
  (mkServer svc1 (sockets srv),
   out1 ++ out2
   ++ io_emit SOCKET_EVENTS.USER_COUNT
        (UserCount (MatchingService.getOnlineUserCount svc1)) (sockets srv)).

(** The events the transport hands to the server, per socket. *)
Inductive Inbound : Type :=
| Connection (rnd : nat)
| JoinRoom (data : JsVal)
| LeaveRoom (data : JsVal)
| Disconnect.

(** One event handled to completion: the transport's own bookkeeping, then
    the handler. *)
Definition step (sid : jsstring) (ev : Inbound) (srv : Server)
    : Server * list Delivery :=
  match ev with
  | Connection rnd =>
      onConnection sid rnd (mkServer (service srv) (connect sid (sockets srv)))
  | JoinRoom data => onJoinRoom sid data srv
  | LeaveRoom data => onLeaveRoom sid data srv
  | Disconnect =>
      onDisconnect sid (mkServer (service srv) (disconnect sid (sockets srv)))
  end.

(** A sequence of events; the deliveries are collected in order. *)
Fixpoint run (evs : list (jsstring * Inbound)) (srv : Server)
    : Server * list Delivery :=
  match evs with
  | [] => (srv, [])
  | (sid, ev) :: evs' =>
      let '(srv1, out1) := step sid ev srv in
      let '(srv2, out2) := run evs' srv1 in
      (srv2, out1 ++ out2)
  end.

(** The payloads a client sends: [{ roomId, interests }] with [join-room],
    [{ roomId, reason }] with [leave-room]. *)
Definition joinRequest (roomId interests : JsVal) : JsVal :=
  JObj [(lit "roomId", roomId); (lit "interests", interests)].

Definition leaveRequest (roomId reason : JsVal) : JsVal :=
  JObj [(lit "roomId", roomId); (lit "reason", reason)].

(** What reaches the socket [sid] out of a list of deliveries. *)
Definition deliveredTo (sid : jsstring) (out : list Delivery) : list Delivery :=
  List.filter (λ d, bool_decide (recipient d = sid)) out.


(** The socket [sid] is connected and in [room]. *)
Definition joined (sid room : jsstring) (ss : Sockets) : bool :=
  match JsMap.get sid ss with
  | Some rooms => bool_decide (room ∈ rooms)
  | None => false
  end.

(** The state of a pair session: [a] and [b] are two registered users with
    the room [r], a room other than the text chat, for [roomId], and both
    their sockets are in the socket room [r]. *)
Definition paired (a b r : jsstring) (srv : Server) : Prop :=
  a ≠ b
  ∧ truthy (JStr r) = true
  ∧ r ≠ ROOM_TYPES.TEXT_CHAT
  ∧ User.roomId <$> MatchingService.getUser a (service srv) = Some (Some r)
  ∧ User.roomId <$> MatchingService.getUser b (service srv) = Some (Some r)
  ∧ joined a r (sockets srv) = true
  ∧ joined b r (sockets srv) = true.

(** The registry and the set of connected sockets are maps: no id is the
    key of two entries. *)
Definition wf (srv : Server) : Prop :=
  JsMap.wf (MatchingService.onlineUsers (service srv))
  ∧ JsMap.wf (sockets srv).

End ChatSocket.

(** ** Scenarios *)

Module Scenario.
Import Transport ChatSocket.

Definition alice : jsstring := lit "A".
Definition bob : jsstring := lit "B".

(** Two clients connect ... *)
Definition lobby : Server :=
  (run [(alice, Connection 7); (bob, Connection 42)] init).1.

Definition aliceInLobby : User.t := User.mk [] None (lit "User7").
Definition bobInLobby : User.t := User.mk [] None (lit "User42").

(** ... then [alice] asks for a partner: she is matched with [bob], who has
    no room. *)
Definition aliceJoins : JsVal := joinRequest JNull (JArr [JStr (lit " music ")]).

Definition pairedServer : Server := (step alice (JoinRoom aliceJoins) lobby).1.

Definition pairRoom : jsstring := lit "chat-A-B".


Definition alicePaired : User.t := User.mk [lit "music"] (Some pairRoom) (lit "User7").
Definition bobPaired : User.t := User.mk [] (Some pairRoom) (lit "User42").

Definition skip : JsVal := JStr DISCONNECT_REASONS.SKIP.

Definition elevenInterests : list JsVal :=
  (λ s, JStr (lit s)) <$>
    ["a"; "b"; "c"; "d"; "e"; "f"; "g"; "h"; "i"; "j"; "k"]%string.

(** Three users without a room and with no interest in common. *)
Definition strangers : MatchingService.t :=
  MatchingService.mk
    [(lit "X", User.mk [lit "music"] None (lit "User1"));
     (lit "Y", User.mk [lit "art"] None (lit "User2"));
     (lit "Z", User.mk [lit "chess"] None (lit "User3"))]
    ∅.

(** [bob] waits with two interests, [carol] is in a room. *)
Definition waiting : MatchingService.t :=
  MatchingService.mk
    [(lit "C", User.mk [lit "music"] (Some (lit "chat-C-D")) (lit "User3"));
     (lit "D", User.mk [] (Some (lit "chat-C-D")) (lit "User4"));
     (lit "E", User.mk [lit "chess"] None (lit "User5"));
     (bob, User.mk [lit "music"; lit "art"] None (lit "User42"))]
    ∅.

(** [alice] connects and enters the text chat. *)
Definition textChatEvents : list (jsstring * Inbound) :=
  [(alice, Connection 7);
   (alice, JoinRoom (joinRequest (JStr ROOM_TYPES.TEXT_CHAT) (JArr [])))].

Definition inTextChat : Server := (run textChatEvents init).1.

Definition tenInterests : list JsVal :=
  [JStr (lit " music "); JNum 3%float; JStr (lit "   "); JStr (lit "art");
   JNull; JStr []; JBool true; JArr []; JStr (lit "chess"); JObj []].

End Scenario.

(* ===================================================================== *)
(** ** validators.js: sanitizeInput                                       *)
(* ===================================================================== *)

Module Sanitize.

(** [s.replace(/c/g, r)] for a pattern of one character: every [c] in [s]
    becomes [r].  (None of the replacement strings below holds a [$].) *)
Definition replaceAll (c : code_unit) (r : jsstring) (s : jsstring) : jsstring :=
  flat_map (λ x, if (x =? c)%N then r else [x]) s.

(** The five patterns: [<] is 60, [>] is 62, the double quote is 34, the
    single quote is 39 and [/] is 47. *)
Definition sanitizeInput (input : JsVal) : jsstring :=
  match input with
  | JStr s =>
      replaceAll 47%N (lit "&#x2F;")
        (replaceAll 39%N (lit "&#x27;")
           (replaceAll 34%N (lit "&quot;")
              (replaceAll 62%N (lit "&gt;")
                 (replaceAll 60%N (lit "&lt;") s))))
  | _ => []
  end.

(** The characters [sanitizeInput] is after, and what stands for each. *)
Definition special (c : code_unit) : bool :=
  ((c =? 60) || (c =? 62) || (c =? 34) || (c =? 39) || (c =? 47))%N.

Definition escape (c : code_unit) : jsstring :=
  if (c =? 60)%N then lit "&lt;"
  else if (c =? 62)%N then lit "&gt;"
  else if (c =? 34)%N then lit "&quot;"
  else if (c =? 39)%N then lit "&#x27;"
  else if (c =? 47)%N then lit "&#x2F;"
  else [c].

End Sanitize.

(* ===================================================================== *)
(** ** chatSocket: the relaying handlers                                  *)
(* ===================================================================== *)

(** [send-message], [chat-message], [signal] and [report-user] call no
    function of the matching service that writes: they read the server and
    emit.  What they emit is a JavaScript object. *)
Module Relay.
Import Validators Transport ChatSocket.

Definition RECEIVE_MESSAGE : jsstring := lit "receive-message".
Definition REPORT_SUBMITTED : jsstring := lit "report-submitted".

(** One event arriving at one connected socket. *)
Record Message : Type := mkMessage {
  to : jsstring;
  name : jsstring;
  body : JsVal
}.

(** [io.to(v).emit(event, body)]; [to(v)] reaches [Transport.selected v]. *)
Definition io_to_emit (v : JsVal) (ev : jsstring) (body : JsVal) (ss : Sockets)
    : list Message :=
  (λ s, mkMessage s ev body) <$> selected v ss.

(** [socket.to(v).emit(event, body)] *)
Definition socket_to_emit (sender : jsstring) (v : JsVal) (ev : jsstring)
    (body : JsVal) (ss : Sockets) : list Message :=
  (λ s, mkMessage s ev body)
    <$> List.filter (λ s, bool_decide (s ≠ sender)) (selected v ss).

(** [{ ...data }]: the properties of an object.  The handlers spread their
    payload only after they have read a string from one of its properties,
    so it is an object. *)
Definition ownProps (data : JsVal) : list (jsstring * JsVal) :=
  match data with
  | JObj props => props
  | _ => []
  end.



(** [socket.on('send-message', data => ...)]; [id] is
    [Date.now().toString()] and [timestamp] is
    [new Date().toLocaleTimeString()].  Both branches of the last test emit
    to [data.roomId]. *)
Definition onSendMessage (sid : jsstring) (data : JsVal) (id timestamp : jsstring)
    (srv : Server) : list Message :=
  match MatchingService.getUser sid (service srv) with
  | None => []
  | Some user =>
      match validateMessage (getProp (lit "message") data) with
      | Invalid _ => []
      | Valid validated =>
          let msg :=
            JObj
              (JsMap.set (lit "timestamp") (JStr timestamp)
                 (JsMap.set (lit "id") (JStr id)
                    (JsMap.set (lit "sender") (JStr (User.username user))
                       (JsMap.set (lit "message") (JStr validated)
                          (ownProps data))))) in
          io_to_emit (getProp (lit "roomId") data) RECEIVE_MESSAGE msg
            (sockets srv)
      end
  end.

(** [socket.on('report-user', async data => ...)]; [saved] tells whether
    [new Report(...)] and [report.save()] went through.  After a save the
    handler acknowledges and then logs [data.reportedUserId], which throws
    when there is no payload, and the [catch] branch acknowledges again. *)
Definition onReportUser (sid : jsstring) (data : JsVal) (saved : bool)
    : list Message :=
  let ack (success : bool) :=
    mkMessage sid REPORT_SUBMITTED (JObj [(lit "success", JBool success)]) in
  if saved then
    match data with
    | JNull | JUndefined => [ack true; ack false]
    | _ => [ack true]
    end
  else [ack false].

(** What reaches the socket [sid]. *)
Definition receivedBy (sid : jsstring) (out : list Message) : list Message :=
  List.filter (λ m, bool_decide (to m = sid)) out.

End Relay.

(* ===================================================================== *)
(** ** client: webrtcUtils                                                *)
(* ===================================================================== *)

Module WebRTC.

(** A [MediaStreamTrack], as far as the utilities read and write it, and a
    [MediaStream] as the list [getTracks()] returns.  A track's [kind] is
    [audio] or [video]; [stop()] sets [readyState] to [ended].  A browser
    fixes no order among several tracks of one kind. *)
Record Track : Type := mkTrack {
  kind : jsstring;
  enabled : bool;
  readyState : jsstring
}.

Definition Stream := list Track.

Definition isKind (k : jsstring) (t : Track) : bool := bool_decide (kind t = k).

Definition getVideoTracks (s : Stream) : list Track :=
  List.filter (isKind (lit "video")) s.

Definition getAudioTracks (s : Stream) : list Track :=
  List.filter (isKind (lit "audio")) s.

Definition isStreamValid (stream : option Stream) : bool :=
  match stream with
  | None => false
  | Some tracks =>
      (0 <? length tracks)
      && existsb (λ t, bool_decide (readyState t = lit "live")) tracks
  end.

Definition stop (t : Track) : Track := mkTrack (kind t) (enabled t) (lit "ended").

(** The stream after [stopMediaStream(stream)]. *)
Definition stopMediaStream (stream : option Stream) : option Stream :=
  match stream with
  | Some tracks => Some (List.map stop tracks)
  | None => None
  end.

(** [tracks[0].enabled = enabled] for the tracks of one kind: the first
    track of that kind in the stream is written. *)
Fixpoint setFirst (k : jsstring) (e : bool) (s : Stream) : Stream :=
  match s with
  | t :: s' =>
      if isKind k t then mkTrack (kind t) e (readyState t) :: s'
      else t :: setFirst k e s'
  | [] => []
  end.

(** [toggleTrack(stream, trackType, enabled)]: the stream afterwards and the
    value returned ([None] is [null]). *)
Definition toggleTrack (stream : option Stream) (trackType : jsstring)
    (e : bool) : option Stream * option bool :=
  match stream with
  | None => (None, None)
  | Some s =>
      let k :=
        if bool_decide (trackType = lit "video") then lit "video" else lit "audio" in
      let tracks := List.filter (isKind k) s in
      if length tracks =? 0 then (Some s, None)
      else (Some (setFirst k e s), Some e)
  end.

Definition isVideoEnabled (stream : option Stream) : bool :=
  match stream with
  | None => false
  | Some s =>
      match getVideoTracks s with
      | t :: _ => enabled t
      | [] => false
      end
  end.

Definition isAudioEnabled (stream : option Stream) : bool :=
  match stream with
  | None => false
  | Some s =>
      match getAudioTracks s with
      | t :: _ => enabled t
      | [] => false
      end
  end.

End WebRTC.

(* ===================================================================== *)
(** ** client: what the pages send                                        *)
(* ===================================================================== *)

Module Client.
Import ChatSocket.

(** [UI_CONSTANTS.MAX_MESSAGE_LENGTH] *)
Definition MAX_MESSAGE_LENGTH : nat := 500.

(** [s.split(sep)] for a separator of one character. *)
Fixpoint split (sep : code_unit) (s : jsstring) : list jsstring :=
  match s with
  | [] => [[]]
  | c :: s' =>
      if (c =? sep)%N then [] :: split sep s'
      else
        match split sep s' with
        | piece :: pieces => (c :: piece) :: pieces
        | [] => [[c]]
        end
  end.

(** [interests ? interests.split(',').map(i => i.trim()) : []] *)
Definition enteredInterests (interests : jsstring) : list jsstring :=
  if truthy (JStr interests) then trim <$> split 44%N interests else [].

(** VideoChat, [startChat]: the payload of the [join-room] it emits, if it
    emits, for the local stream [localStreamRef.current] and the text of the
    interests field:
    [{ roomId: null,
       interests: interests ? interests.split(',').map(i => i.trim()) : [] }]. *)
Definition startChat (localStream : option WebRTC.Stream) (interests : jsstring)
    : option JsVal :=
  match localStream with
  | None => None
  | Some _ =>
      if negb (WebRTC.isStreamValid localStream) then None
      else Some (joinRequest JNull (JArr (JStr <$> enteredInterests interests)))
  end.





(** TextChat, [handleSendMessage]: the payload of the [send-message] it
    emits, if it emits, for the text of the input. *)
Definition handleSendMessage (message : jsstring) (isConnected : bool)
    : option JsVal :=
  if truthy (JStr (trim message)) && isConnected then
    Some (JObj [(lit "message", JStr message);
                (lit "roomId", JStr ROOM_TYPES.TEXT_CHAT)])
  else None.

End Client.

(** ** Room ids in the registry *)

Module Reach.
Import MatchingService.

(** The values the handlers give to the [roomId] of the user [id]: [null],
    the text-chat room, or a pair room made by [createRoom] for [id] and
    another user. *)
Definition ownRoom (id : jsstring) (r : option jsstring) : Prop :=
  r = None
  ∨ r = Some ROOM_TYPES.TEXT_CHAT
  ∨ ∃ other,
      r = Some (lit "chat-" ++ id ++ lit "-" ++ other)
      ∨ r = Some (lit "chat-" ++ other ++ lit "-" ++ id).

Definition roomsOwned (st : MatchingService.t) : Prop :=
  ∀ id user, (id, user) ∈ onlineUsers st → ownRoom id (User.roomId user).

(** [alice] and [bob] connect, and [alice] asks for a partner. *)
Definition pairing : list (jsstring * ChatSocket.Inbound) :=
  [(Scenario.alice, ChatSocket.Connection 7);
   (Scenario.bob, ChatSocket.Connection 42);
   (Scenario.alice, ChatSocket.JoinRoom Scenario.aliceJoins)].

(** [bob] and [carol] connect and are paired, then [alice] connects. *)
Definition carol : jsstring := lit "C".

Definition othersPaired : list (jsstring * ChatSocket.Inbound) :=
  [(Scenario.bob, ChatSocket.Connection 42);
   (carol, ChatSocket.Connection 3);
   (Scenario.bob, ChatSocket.JoinRoom Scenario.aliceJoins);
   (Scenario.alice, ChatSocket.Connection 7)].

(** [alice] and [bob] connect. *)
Definition lobbyEvents : list (jsstring * ChatSocket.Inbound) :=
  [(Scenario.alice, ChatSocket.Connection 7);
   (Scenario.bob, ChatSocket.Connection 42)].


(** A [leave-room] whose [roomId] is the empty array. *)
Definition leavesNoRoom : JsVal := ChatSocket.leaveRequest (JArr []) JUndefined.

Definition joinsTextChat : JsVal :=
  ChatSocket.joinRequest (JStr ROOM_TYPES.TEXT_CHAT) (JArr [JStr (lit "art")]).

(** [alice] and [bob] are both in the text chat. *)
Definition textChat : ChatSocket.Server :=
  (ChatSocket.run
     [(Scenario.alice, ChatSocket.Connection 7);
      (Scenario.bob, ChatSocket.Connection 42);
      (Scenario.alice, ChatSocket.JoinRoom joinsTextChat);
      (Scenario.bob, ChatSocket.JoinRoom joinsTextChat)]
     ChatSocket.init).1.



(** A camera and a microphone, and what the user typed. *)
Definition camera : WebRTC.Stream :=
  [WebRTC.mkTrack (lit "audio") true (lit "live");
   WebRTC.mkTrack (lit "video") true (lit "live")].


Definition post : JsVal :=
  JObj [(lit "message", JStr (lit " hi "));
        (lit "roomId", JStr ROOM_TYPES.TEXT_CHAT);
        (lit "color", JStr (lit "red"))].

End Reach.

(* ===================================================================== *)
(** * Properties                                                          *)
(* ===================================================================== *)

(** A handler binds the state a service call returns, [let '(st, _) := call
    in ...]: put the call's first component in its place. *)
Ltac name_state :=
  match goal with
  | |- context [let '(_, _) := ?call in _] =>
      let st := fresh "st" in
      let r := fresh "r" in
      let Hcall := fresh "Hcall" in
      destruct call as [st r] eqn:Hcall;
      apply (f_equal fst) in Hcall; simpl in Hcall; subst st
  end.

(** ** Strings *)

Section Trim.
Import JS.

Lemma length_trimStart (s : jsstring) : length (trimStart s) ≤ length s.
Proof.
  induction s as [|d s IH]; simpl; [lia|].
  destruct (isWhiteSpace d); simpl; lia.
Qed.

Lemma trimStart_clean (s : jsstring) : trimStart (trimStart s) = trimStart s.
Proof.
  induction s as [|c s IH]; simpl; [done|].
  destruct (isWhiteSpace c) eqn:Hc; [done|]. simpl. by rewrite Hc.
Qed.

Lemma trimStart_snoc (s : jsstring) (c : code_unit) :
  isWhiteSpace c = false → trimStart (s ++ [c]) = trimStart s ++ [c].
Proof.
  intros Hc. induction s as [|d s IH]; simpl.
  - by rewrite Hc.
  - by destruct (isWhiteSpace d).
Qed.

Lemma trimStart_trimEnd (s : jsstring) :
  trimStart s = s → trimStart (trimEnd s) = trimEnd s.
Proof.
  unfold trimEnd. destruct s as [|c s]; [done|]. simpl.
  destruct (isWhiteSpace c) eqn:Hc.
  - intros Heq. exfalso.
    pose proof (length_trimStart s) as Hlen.
    rewrite Heq in Hlen. simpl in Hlen. lia.
  - intros _. rewrite trimStart_snoc by done.
    rewrite rev_app_distr. simpl. by rewrite Hc.
Qed.

Lemma trimEnd_clean (s : jsstring) : trimEnd (trimEnd s) = trimEnd s.
Proof. unfold trimEnd. by rewrite rev_involutive, trimStart_clean. Qed.

(** Trimming a trimmed string changes nothing. *)
Lemma trim_trim (s : jsstring) : trim (trim s) = trim s.
Proof.
  unfold trim.
  rewrite (trimStart_trimEnd (trimStart s)) by apply trimStart_clean.
  apply trimEnd_clean.
Qed.

Lemma length_trim (s : jsstring) : length (trim s) ≤ length s.
Proof.
  unfold trim, trimEnd. rewrite length_rev.
  etrans; [apply length_trimStart|]. rewrite length_rev. apply length_trimStart.
Qed.

End Trim.

(** ** Validators *)

Section ValidatorFacts.
Import Validators.

Lemma isValid_Valid {A} (r : Validation A) :
  isValid r = true ↔ ∃ value, r = Valid value.
Proof. destruct r; simpl; split; [eauto|done|done|]. by intros [? ?]. Qed.

Lemma validateMessage_string (s : jsstring) :
  validateMessage (JStr s) =
    if bool_decide (1 ≤ length (trim s) ≤ VALIDATION_LIMITS.MAX_MESSAGE_LENGTH)
    then Valid (trim s)
    else validateMessage (JStr s).
Proof.
  case_bool_decide as Hlen; [|done].
  unfold validateMessage, truthy.
  assert (s ≠ []) as Hs.
  { intros ->. cbn in Hlen. lia. }
  rewrite bool_decide_eq_false_2 by done. simpl.
  destruct (Nat.eqb_spec (length (trim s)) 0) as [H0|_]; [lia|].
  destruct (Nat.ltb_spec VALIDATION_LIMITS.MAX_MESSAGE_LENGTH (length (trim s)));
    [lia|done].
Qed.

Lemma validateMessage_string_rejects (s : jsstring) :
  ¬ (1 ≤ length (trim s) ≤ VALIDATION_LIMITS.MAX_MESSAGE_LENGTH) →
  isValid (validateMessage (JStr s)) = false.
Proof.
  intros Hlen. unfold validateMessage, truthy.
  case_bool_decide as Hs; simpl; [done|].
  destruct (Nat.eqb_spec (length (trim s)) 0) as [H0|H0]; [done|].
  destruct (Nat.ltb_spec VALIDATION_LIMITS.MAX_MESSAGE_LENGTH (length (trim s)));
    [done|lia].
Qed.

(** C6.  A string passes [validateMessage] exactly when its trimmed length is
    between 1 and 500; the message handed back is the trimmed string.  So a
    message that is 501 characters long after trimming and one that is empty
    after trimming are rejected, and so is every value that is not a string.
    [validateMessage] is a total function: every input gets a result
    object, none an exception. *)
Theorem validateMessage_accepts_iff_trimmed_length (s : jsstring) (v : JsVal) :
  (isValid (validateMessage (JStr s)) = true ↔ 1 ≤ length (trim s) ≤ 500)
  ∧ (isValid (validateMessage (JStr s)) = true →
     validateMessage (JStr s) = Valid (trim s))
  ∧ (length (trim s) = 501 → isValid (validateMessage (JStr s)) = false)
  ∧ (length (trim s) = 0 → isValid (validateMessage (JStr s)) = false)
  ∧ (isString v = false → isValid (validateMessage v) = false).
Proof.
  change 500 with VALIDATION_LIMITS.MAX_MESSAGE_LENGTH.
  assert (Hiff : isValid (validateMessage (JStr s)) = true
                 ↔ 1 ≤ length (trim s) ≤ VALIDATION_LIMITS.MAX_MESSAGE_LENGTH).
  { split.
    - intros Hv.
      destruct (decide (1 ≤ length (trim s) ≤ VALIDATION_LIMITS.MAX_MESSAGE_LENGTH))
        as [|Hn]; [done|].
      rewrite (validateMessage_string_rejects s Hn) in Hv. done.
    - intros Hlen. rewrite validateMessage_string.
      by rewrite bool_decide_eq_true_2. }
  split_and!.
  - done.
  - intros Hv%Hiff. rewrite validateMessage_string.
    by rewrite bool_decide_eq_true_2.
  - intros H501. apply validateMessage_string_rejects.
    unfold VALIDATION_LIMITS.MAX_MESSAGE_LENGTH in *. lia.
  - intros H0. apply validateMessage_string_rejects. lia.
  - by destruct v.
Qed.

(** A message of 501 characters none of which is white space is rejected,
    one of 500 is accepted; white space around a message does not count. *)
Example validateMessage_501 :
  isValid (validateMessage (JStr (replicate 501 120%N))) = false
  ∧ isValid (validateMessage (JStr (replicate 500 120%N))) = true
  ∧ isValid (validateMessage (JStr (32%N :: replicate 500 120%N))) = true.
Proof. by vm_compute. Qed.

Lemma keepInterest_string (i : JsVal) :
  keepInterest i = true ↔ ∃ s, i = JStr s ∧ 0 < length (trim s).
Proof.
  destruct i; simpl; split; try done; try (by intros (? & ? & ?)).
  - intros H%Nat.ltb_lt. eauto.
  - intros (? & [= <-] & H). by apply Nat.ltb_lt.
Qed.

Lemma elem_of_validInterests (l : list JsVal) (i : jsstring) :
  i ∈ validInterests l ↔ ∃ s, JStr s ∈ l ∧ 0 < length (trim s) ∧ i = trim s.
Proof.
  unfold validInterests. rewrite list_elem_of_fmap. split.
  - intros (v & -> & Hv).
    apply list_elem_of_In, filter_In in Hv as [Hin Hkeep].
    apply keepInterest_string in Hkeep as (s & -> & Hlen).
    exists s. by rewrite list_elem_of_In.
  - intros (s & Hin & Hlen & ->). exists (JStr s). split; [done|].
    apply list_elem_of_In, filter_In. split; [by apply list_elem_of_In|].
    apply keepInterest_string. eauto.
Qed.

Lemma length_validInterests (l : list JsVal) :
  length (validInterests l) ≤ length l.
Proof. unfold validInterests. rewrite length_fmap. apply filter_length_le. Qed.

Lemma validateInterests_array (l : list JsVal) :
  validateInterests (JArr l) =
    if bool_decide (length l ≤ VALIDATION_LIMITS.MAX_INTERESTS)
    then Valid (validInterests l)
    else Invalid (lit "Too many interests (max 10)").
Proof.
  unfold validateInterests. simpl.
  destruct (Nat.ltb_spec VALIDATION_LIMITS.MAX_INTERESTS (length l)).
  - rewrite bool_decide_eq_false_2 by lia. done.
  - by rewrite bool_decide_eq_true_2.
Qed.

(** A user name of 2 characters is rejected, one of 3 is accepted. *)
Example validateUsername_bounds :
  isValid (validateUsername (JStr (lit "ab"))) = false
  ∧ validateUsername (JStr (lit " abc ")) = Valid (lit "abc")
  ∧ isValid (validateUsername (JStr (replicate 51 120%N))) = false.
Proof. by vm_compute. Qed.

End ValidatorFacts.

(** ** Maps *)

Section JsMapFacts.
Context {K V : Type} `{EqDecision K}.
Implicit Types (m : JsMap.t K V) (k : K) (v : V).

Lemma JsMap_get_Some_elem m k v : JsMap.get k m = Some v → (k, v) ∈ m.
Proof.
  induction m as [|[k' v'] m IH]; simpl; [done|].
  case_decide as Hk.
  - intros [= ->]. subst. by left.
  - intros Hg. right. by apply IH.
Qed.

Lemma JsMap_get_None m k : JsMap.get k m = None ↔ k ∉ JsMap.keys m.
Proof.
  unfold JsMap.keys. induction m as [|[k' v'] m IH]; simpl.
  - split; [|done]. intros _. apply not_elem_of_nil.
  - rewrite not_elem_of_cons. case_decide as Hk; split; try done.
    + intros [? _]. by subst.
    + intros Hg. split; [congruence|]. by apply IH.
    + intros [_ Hg]. by apply IH.
Qed.

Lemma JsMap_elem_get m k v : JsMap.wf m → (k, v) ∈ m → JsMap.get k m = Some v.
Proof.
  unfold JsMap.wf, JsMap.keys.
  induction m as [|[k' v'] m IH]; simpl; [by intros _ ?%elem_of_nil|].
  intros [Hk' Hm]%NoDup_cons [Heq|Hin]%elem_of_cons.
  - injection Heq as -> ->. by rewrite decide_True.
  - rewrite decide_False; [by apply IH|].
    intros ->. apply Hk'. apply list_elem_of_fmap. by exists (k, v).
Qed.

Lemma JsMap_keys_alter (f : V → V) k m :
  JsMap.keys (JsMap.alter f k m) = JsMap.keys m.
Proof.
  unfold JsMap.keys. induction m as [|[k' v'] m IH]; simpl; [done|].
  case_decide; csimpl; [done|]. by f_equal.
Qed.

Lemma JsMap_get_alter (f : V → V) k k' m :
  JsMap.get k' (JsMap.alter f k m) =
    if decide (k = k') then f <$> JsMap.get k' m else JsMap.get k' m.
Proof.
  induction m as [|[k0 v0] m IH]; simpl; [by case_decide|].
  destruct (decide (k0 = k)) as [->|Hk0]; simpl.
  - destruct (decide (k = k')) as [->|]; [done|done].
  - destruct (decide (k0 = k')) as [->|].
    + by rewrite decide_False by done.
    + apply IH.
Qed.

Lemma JsMap_alter_absent (f : V → V) k m :
  JsMap.get k m = None → JsMap.alter f k m = m.
Proof.
  induction m as [|[k0 v0] m IH]; simpl; [done|].
  case_decide; [done|]. intros Hg. by rewrite IH.
Qed.

Lemma JsMap_get_delete k k' m :
  JsMap.get k' (JsMap.delete k m) =
    if decide (k = k') then None else JsMap.get k' m.
Proof.
  unfold JsMap.delete. induction m as [|[k0 v0] m IH]; simpl; [by case_decide|].
  case_bool_decide as Hk0; simpl.
  - subst k0. rewrite IH. by destruct (decide (k = k')).
  - rewrite IH. destruct (decide (k0 = k')) as [->|]; [|done].
    by rewrite decide_False by done.
Qed.

Lemma JsMap_delete_absent k m : JsMap.get k m = None → JsMap.delete k m = m.
Proof.
  unfold JsMap.delete. induction m as [|[k0 v0] m IH]; simpl; [done|].
  case_decide as Hk; [done|]. intros Hg.
  rewrite bool_decide_eq_false_2 by done. simpl. by rewrite IH.
Qed.

Lemma JsMap_delete_delete k m :
  JsMap.delete k (JsMap.delete k m) = JsMap.delete k m.
Proof.
  apply JsMap_delete_absent. rewrite JsMap_get_delete. by rewrite decide_True.
Qed.

Lemma JsMap_get_set k k' v m :
  JsMap.get k' (JsMap.set k v m) =
    if decide (k = k') then Some v else JsMap.get k' m.
Proof.
  unfold JsMap.set. destruct (JsMap.get k m) as [v0|] eqn:Hget.
  - rewrite JsMap_get_alter. case_decide; [|done]. subst. by rewrite Hget.
  - induction m as [|[k0 v0] m IH]; simpl in *; [done|].
    destruct (decide (k0 = k)) as [|Hk0]; [done|].
    destruct (decide (k0 = k')) as [->|]; [|by apply IH].
    by rewrite decide_False by congruence.
Qed.

Lemma JsMap_elem_alter (f : V → V) k m k' v' :
  (k', v') ∈ JsMap.alter f k m →
  (k', v') ∈ m ∨ ∃ v0, (k', v0) ∈ m ∧ v' = f v0.
Proof.
  induction m as [|[k0 v0] m IH]; simpl; [by left|].
  case_decide.
  - intros [[= -> ->]|Hin]%elem_of_cons.
    + right. exists v0. split; [by left|done].
    + left. by right.
  - intros [[= -> ->]|Hin]%elem_of_cons.
    + left. by left.
    + destruct (IH Hin) as [?|(v1 & ? & ?)].
      * left. by right.
      * right. exists v1. split; [by right|done].
Qed.

Lemma JsMap_elem_set k v m k' v' :
  (k', v') ∈ JsMap.set k v m → (k', v') ∈ m ∨ v' = v.
Proof.
  unfold JsMap.set. destruct (JsMap.get k m).
  - intros [?|(v1 & _ & ?)]%JsMap_elem_alter; [by left|by right].
  - intros [?|[= _ ->]%list_elem_of_singleton]%elem_of_app; [by left|by right].
Qed.

Lemma JsMap_elem_delete k m k' v' :
  (k', v') ∈ JsMap.delete k m → (k', v') ∈ m.
Proof.
  unfold JsMap.delete. rewrite !list_elem_of_In, filter_In. tauto.
Qed.

Lemma JsMap_wf_alter (f : V → V) k m : JsMap.wf m → JsMap.wf (JsMap.alter f k m).
Proof. unfold JsMap.wf. by rewrite JsMap_keys_alter. Qed.

Lemma JsMap_wf_delete k m : JsMap.wf m → JsMap.wf (JsMap.delete k m).
Proof.
  unfold JsMap.wf, JsMap.keys, JsMap.delete.
  induction m as [|[k0 v0] m IH]; simpl; [done|].
  intros [Hk0 Hm]%NoDup_cons. case_bool_decide; simpl; [by apply IH|].
  apply NoDup_cons. split; [|by apply IH].
  intros ([k1 v1] & Heq & Hin%list_elem_of_In%filter_In)%list_elem_of_fmap.
  simpl in Heq. subst k1. apply Hk0. apply list_elem_of_fmap.
  exists (k0, v1). split; [done|]. apply list_elem_of_In. tauto.
Qed.

Lemma JsMap_wf_set k v m : JsMap.wf m → JsMap.wf (JsMap.set k v m).
Proof.
  unfold JsMap.set. destruct (JsMap.get k m) eqn:Hget.
  - apply JsMap_wf_alter.
  - apply JsMap_get_None in Hget. unfold JsMap.wf, JsMap.keys in *.
    rewrite fmap_app. simpl. intros Hm. apply NoDup_app. split_and!; [done| |].
    + intros x Hx ->%list_elem_of_singleton. done.
    + apply NoDup_singleton.
Qed.

End JsMapFacts.

(** ** The registry *)

Section RegistryFacts.
Import MatchingService.
Implicit Types (st : MatchingService.t) (socketId id : jsstring).

Lemma getUser_assignRoom socketId id r st :
  getUser id (assignRoom socketId r st) =
    if decide (socketId = id) then User.setRoomId r <$> getUser id st
    else getUser id st.
Proof. unfold getUser, assignRoom. simpl. apply JsMap_get_alter. Qed.

Lemma keys_assignRoom socketId r st :
  JsMap.keys (onlineUsers (assignRoom socketId r st)) = JsMap.keys (onlineUsers st).
Proof. unfold assignRoom. simpl. apply JsMap_keys_alter. Qed.

Lemma getUser_updateUser socketId id updates st :
  getUser id (updateUser socketId updates st).1 =
    if decide (socketId = id) then (λ u, User.assign u updates) <$> getUser id st
    else getUser id st.
Proof.
  unfold updateUser, getUser.
  destruct (JsMap.get socketId (onlineUsers st)) as [user|] eqn:Hget; simpl.
  - apply JsMap_get_alter.
  - case_decide; [|done]. subst. by rewrite Hget.
Qed.

Lemma keys_updateUser socketId updates st :
  JsMap.keys (onlineUsers (updateUser socketId updates st).1)
  = JsMap.keys (onlineUsers st).
Proof.
  unfold updateUser.
  destruct (JsMap.get socketId (onlineUsers st)); simpl; [|done].
  apply JsMap_keys_alter.
Qed.

Lemma textChatUsers_updateUser socketId updates st :
  textChatUsers (updateUser socketId updates st).1 = textChatUsers st.
Proof.
  unfold updateUser. by destruct (JsMap.get socketId (onlineUsers st)).
Qed.

Lemma getUser_removeUser socketId id st :
  getUser id (removeUser socketId st).1 =
    if decide (socketId = id) then None else getUser id st.
Proof. unfold removeUser, getUser. simpl. apply JsMap_get_delete. Qed.

(** C7.  [removeUser] hands back the entry of the id (as [getUser] sees it,
    so the entry itself when the id is registered) and takes it out of the
    registry; a second call with the same id hands back [undefined] and
    leaves the state as the first call left it; [getUser] then finds nothing
    for the id.  Other ids keep their entries. *)
Theorem removeUser_twice socketId st :
  let first := removeUser socketId st in
  let second := removeUser socketId first.1 in
  first.2 = getUser socketId st
  ∧ getUser socketId first.1 = None
  ∧ second.2 = None
  ∧ second.1 = first.1
  ∧ getUser socketId second.1 = None
  ∧ (∀ other, other ≠ socketId → getUser other first.1 = getUser other st).
Proof.
  cbv zeta. split_and!.
  - done.
  - rewrite getUser_removeUser. by rewrite decide_True.
  - change (getUser socketId (removeUser socketId st).1 = None).
    rewrite getUser_removeUser. by rewrite decide_True.
  - unfold removeUser. simpl. f_equal.
    + apply JsMap_delete_delete.
    + apply set_eq. intros x. rewrite !elem_of_difference. tauto.
  - rewrite getUser_removeUser. by rewrite decide_True.
  - intros other Hne. rewrite getUser_removeUser. by rewrite decide_False.
Qed.

(** C8.  [updateUser] on an id that is not registered changes nothing and
    hands back [undefined]; on a registered id it hands back the entry with
    the supplied fields assigned, stores it under the id, and leaves the
    other entries, the order of the registry and the text-chat set alone.
    An assigned entry holds the supplied value in each supplied field and its
    old value in every other one. *)
Theorem updateUser_merges_or_skips socketId (updates : User.Updates) st :
  match getUser socketId st with
  | None => updateUser socketId updates st = (st, None)
  | Some user =>
      (updateUser socketId updates st).2 = Some (User.assign user updates)
      ∧ getUser socketId (updateUser socketId updates st).1
        = Some (User.assign user updates)
      ∧ User.interests (User.assign user updates)
        = default (User.interests user) (User.upd_interests updates)
      ∧ User.roomId (User.assign user updates)
        = default (User.roomId user) (User.upd_roomId updates)
      ∧ User.username (User.assign user updates)
        = default (User.username user) (User.upd_username updates)
  end
  ∧ (∀ other, other ≠ socketId →
       getUser other (updateUser socketId updates st).1 = getUser other st)
  ∧ JsMap.keys (onlineUsers (updateUser socketId updates st).1)
    = JsMap.keys (onlineUsers st)
  ∧ textChatUsers (updateUser socketId updates st).1 = textChatUsers st.
Proof.
  split_and!.
  - destruct (getUser socketId st) as [user|] eqn:Hget.
    + split_and!; try done.
      * unfold updateUser. unfold getUser in Hget. by rewrite Hget.
      * rewrite getUser_updateUser, decide_True by done. by rewrite Hget.
    + unfold updateUser. unfold getUser in Hget. by rewrite Hget.
  - intros other Hne. rewrite getUser_updateUser. by rewrite decide_False.
  - apply keys_updateUser.
  - apply textChatUsers_updateUser.
Qed.

Lemma createRoom_roomId socketId1 socketId2 st :
  (createRoom socketId1 socketId2 st).2
  = lit "chat-" ++ socketId1 ++ lit "-" ++ socketId2.
Proof. done. Qed.

Lemma getUser_createRoom socketId1 socketId2 id st :
  getUser id (createRoom socketId1 socketId2 st).1 =
    if decide (id = socketId1 ∨ id = socketId2)
    then User.setRoomId (Some (lit "chat-" ++ socketId1 ++ lit "-" ++ socketId2))
           <$> getUser id st
    else getUser id st.
Proof.
  unfold createRoom. cbn [fst]. rewrite !getUser_assignRoom.
  destruct (decide (socketId2 = id)) as [->|], (decide (socketId1 = id)) as [->|];
    case_decide; try done; try (exfalso; intuition congruence).
  by destruct (getUser id st).
Qed.

(** C10.  [createRoom] returns ["chat-" ++ a ++ "-" ++ b].  Afterwards the
    entry of [a] and the entry of [b], where they exist, hold this id in
    [roomId], whatever they held before, and their interests and name as
    before; every other entry is as before, and so are the order of the
    registry and the text-chat set.  An id without an entry still has none:
    nothing is added and nothing fails. *)
Theorem createRoom_assigns_only_the_pair (a b : jsstring) st :
  let roomId := lit "chat-" ++ a ++ lit "-" ++ b in
  (createRoom a b st).2 = roomId
  ∧ (∀ id user, id = a ∨ id = b → getUser id st = Some user →
       getUser id (createRoom a b st).1
       = Some (User.mk (User.interests user) (Some roomId) (User.username user)))
  ∧ (∀ id, id = a ∨ id = b → is_Some (getUser id st) →
       User.roomId <$> getUser id (createRoom a b st).1 = Some (Some roomId))
  ∧ (∀ id, id ≠ a → id ≠ b →
       getUser id (createRoom a b st).1 = getUser id st)
  ∧ (∀ id, getUser id st = None → getUser id (createRoom a b st).1 = None)
  ∧ JsMap.keys (onlineUsers (createRoom a b st).1) = JsMap.keys (onlineUsers st)
  ∧ textChatUsers (createRoom a b st).1 = textChatUsers st.
Proof.
  cbv zeta. split_and!.
  - done.
  - intros id user Hid Huser. rewrite getUser_createRoom, Huser.
    by rewrite decide_True by done.
  - intros id Hid [user Huser]. rewrite getUser_createRoom, Huser.
    by rewrite decide_True by done.
  - intros id Ha Hb. rewrite getUser_createRoom.
    rewrite decide_False; [done|]. by intros [?|?].
  - intros id Hnone. rewrite getUser_createRoom, Hnone. by case_decide.
  - unfold createRoom. cbn [fst]. by rewrite !keys_assignRoom.
  - done.
Qed.

End RegistryFacts.

(** ** Matching *)

Section MatchingFacts.
Import MatchingService.
Implicit Types (st : MatchingService.t) (socketId id : jsstring).

Lemma commonInterests_spec (user : User.t) (interests : list jsstring) i :
  i ∈ commonInterests user interests ↔ i ∈ User.interests user ∧ i ∈ interests.
Proof.
  unfold commonInterests. rewrite list_elem_of_In, filter_In.
  rewrite bool_decide_eq_true, <- list_elem_of_In. done.
Qed.

Lemma nonempty_elem {A} (l : list A) : 0 < length l ↔ ∃ x, x ∈ l.
Proof.
  destruct l as [|x l]; simpl; split.
  - lia.
  - by intros [x ?%elem_of_nil].
  - intros _. exists x. by left.
  - lia.
Qed.

Lemma sharesInterest_spec socketId interests (e : jsstring * User.t) :
  sharesInterest socketId interests e = true ↔
    e.1 ≠ socketId ∧ User.idle e.2 = true
    ∧ ∃ i, i ∈ User.interests e.2 ∧ i ∈ interests.
Proof.
  unfold sharesInterest. rewrite !andb_true_iff, bool_decide_eq_true.
  rewrite !Nat.ltb_lt, !nonempty_elem. split.
  - intros [[[? ?] _] [i Hi%commonInterests_spec]]. eauto.
  - intros (? & ? & i & Hi1 & Hi2). split_and!; try done; [by exists i|].
    exists i. by apply commonInterests_spec.
Qed.

Lemma isWaiting_spec socketId (e : jsstring * User.t) :
  isWaiting socketId e = true ↔ e.1 ≠ socketId ∧ User.idle e.2 = true.
Proof. unfold isWaiting. by rewrite andb_true_iff, bool_decide_eq_true. Qed.

Lemma sharesInterest_isWaiting socketId interests e :
  sharesInterest socketId interests e = true → isWaiting socketId e = true.
Proof. rewrite sharesInterest_spec, isWaiting_spec. tauto. Qed.

Lemma find_fst_Some {A B} (f : A * B → bool) (l : list (A * B)) a :
  fst <$> List.find f l = Some a → ∃ b, (a, b) ∈ l ∧ f (a, b) = true.
Proof.
  destruct (List.find f l) as [[a' b]|] eqn:Hfind; simpl; [|done].
  intros [= ->]. apply find_some in Hfind as [Hin Hf].
  exists b. by rewrite list_elem_of_In.
Qed.

Lemma find_fst_None {A B} (f : A * B → bool) (l : list (A * B)) :
  fst <$> List.find f l = None ↔ ∀ e, e ∈ l → f e = false.
Proof.
  destruct (List.find f l) as [e|] eqn:Hfind; simpl; split; try done.
  - intros Hall. apply find_some in Hfind as [Hin Hf].
    rewrite Hall in Hf; [done|]. by apply list_elem_of_In.
  - intros _ e Hin. eapply find_none; [done|]. by apply list_elem_of_In.
Qed.

Lemma findMatchingUser_Some_entry socketId (interests : list jsstring) st id :
  findMatchingUser socketId interests st = Some id →
  id ≠ socketId ∧ ∃ user, (id, user) ∈ onlineUsers st ∧ User.idle user = true.
Proof.
  unfold findMatchingUser.
  destruct (firstPass socketId interests st) as [id'|] eqn:Hfirst.
  - intros [= ->]. apply find_fst_Some in Hfirst as (user & Hin & Hf).
    apply sharesInterest_spec in Hf as (Hne & Hidle & _). eauto.
  - intros (user & Hin & Hf)%find_fst_Some.
    apply isWaiting_spec in Hf as (Hne & Hidle). eauto.
Qed.

(** C4.  Whatever [findMatchingUser] returns is an id other than the
    requester's whose entry has no room assigned, and it is the id the
    registry looks up that entry under.  What the first (interest) loop
    returns is the result of the function, and its entry shares an interest
    with the requester.  The result is [null] exactly when the registry has
    no entry without a room besides the requester's. *)
Theorem findMatchingUser_candidate socketId (interests : list jsstring) st :
  (∀ id, findMatchingUser socketId interests st = Some id →
     id ≠ socketId
     ∧ ∃ user, (id, user) ∈ onlineUsers st ∧ User.idle user = true
               ∧ (JsMap.wf (onlineUsers st) → getUser id st = Some user))
  ∧ (∀ id, firstPass socketId interests st = Some id →
     findMatchingUser socketId interests st = Some id
     ∧ ∃ user i, (id, user) ∈ onlineUsers st
                 ∧ i ∈ User.interests user ∧ i ∈ interests)
  ∧ (findMatchingUser socketId interests st = None ↔
     ∀ id user, (id, user) ∈ onlineUsers st →
                id ≠ socketId → User.idle user = false).
Proof.
  split_and!.
  - intros id (Hne & user & Hin & Hidle)%findMatchingUser_Some_entry.
    split; [done|]. exists user. split_and!; [done|done|].
    intros Hwf. by apply JsMap_elem_get.
  - intros id Hfirst. unfold findMatchingUser. rewrite Hfirst. split; [done|].
    apply find_fst_Some in Hfirst as (user & Hin & Hf).
    apply sharesInterest_spec in Hf as (_ & _ & i & Hi1 & Hi2).
    by exists user, i.
  - unfold findMatchingUser.
    destruct (firstPass socketId interests st) as [id'|] eqn:Hfirst.
    + split; [done|]. intros Hall.
      apply find_fst_Some in Hfirst as (user & Hin & Hf).
      apply sharesInterest_spec in Hf as (Hne & Hidle & _). simpl in *.
      rewrite (Hall _ _ Hin Hne) in Hidle. done.
    + unfold secondPass. rewrite find_fst_None. split.
      * intros Hall id user Hin Hne.
        specialize (Hall _ Hin). apply not_true_iff_false.
        intros Hidle. apply not_true_iff_false in Hall. apply Hall.
        by apply isWaiting_spec.
      * intros Hall [id user] Hin. apply not_true_iff_false.
        intros [Hne Hidle]%isWaiting_spec. simpl in *.
        rewrite (Hall _ _ Hin Hne) in Hidle. done.
Qed.

(** The first fit wins: [alice], who likes music, gets [bob] through the
    interest loop although [E] comes first among the users without a room;
    with nothing in common she gets [E]; in a room of strangers [X] gets
    [Y]; nobody gets a user who is in a room or gets oneself. *)
Example findMatchingUser_scenarios :
  findMatchingUser Scenario.alice [lit "music"] Scenario.waiting
  = Some Scenario.bob
  ∧ firstPass Scenario.alice [lit "music"] Scenario.waiting = Some Scenario.bob
  ∧ findMatchingUser Scenario.alice [lit "golf"] Scenario.waiting = Some (lit "E")
  ∧ firstPass Scenario.alice [lit "golf"] Scenario.waiting = None
  ∧ findMatchingUser (lit "X") [lit "music"] Scenario.strangers = Some (lit "Y")
  ∧ findMatchingUser (lit "E") [lit "music"]
      (MatchingService.mk
         [(lit "C", User.mk [lit "music"] (Some (lit "chat-C-D")) (lit "User3"));
          (lit "E", User.mk [lit "music"] None (lit "User5"))] ∅)
    = None.
Proof. by vm_compute. Qed.

(** The older copy of the function gives the same answers. *)
Lemma Legacy_findMatchingUser_agrees socketId (interests : list jsstring) st :
  Legacy.findMatchingUser socketId interests (onlineUsers st)
  = findMatchingUser socketId interests st.
Proof.
  unfold Legacy.findMatchingUser, findMatchingUser, firstPass, secondPass.
  assert (Heq : ∀ e, Legacy.sharesInterest socketId interests e
                     = sharesInterest socketId interests e).
  { intros e. unfold Legacy.sharesInterest, sharesInterest.
    destruct (bool_decide (e.1 ≠ socketId)), (User.idle e.2); simpl; try done.
    unfold commonInterests.
    destruct (User.interests e.2); simpl; [done|]. done. }
  assert (Hfind : ∀ l, List.find (Legacy.sharesInterest socketId interests) l
                       = List.find (sharesInterest socketId interests) l).
  { induction l as [|e l IH]; simpl; [done|]. by rewrite Heq, IH. }
  by rewrite Hfind.
Qed.

End MatchingFacts.

(** ** Transport *)

Section TransportFacts.
Import Transport ChatSocket.
Implicit Types (ss : Sockets) (sid room : jsstring) (rooms : list jsstring).

Lemma elem_of_members rooms ss sid :
  sid ∈ members rooms ss ↔ ∃ rs, (sid, rs) ∈ ss ∧ inAnyRoom rooms (sid, rs) = true.
Proof.
  unfold members. rewrite list_elem_of_fmap. split.
  - intros ([s rs] & -> & Hin%list_elem_of_In%filter_In). simpl.
    exists rs. by rewrite list_elem_of_In.
  - intros (rs & Hin & Hroom). exists (sid, rs). split; [done|].
    apply list_elem_of_In, filter_In. by rewrite <- list_elem_of_In.
Qed.

Lemma NoDup_members rooms ss : JsMap.wf ss → NoDup (members rooms ss).
Proof.
  unfold JsMap.wf, JsMap.keys, members.
  induction ss as [|[s rs] ss IH]; simpl; [done|].
  intros [Hs Hss]%NoDup_cons. destruct (inAnyRoom rooms (s, rs)); csimpl.
  - apply NoDup_cons. split; [|by apply IH].
    intros ([s' rs'] & Heq & Hin%list_elem_of_In%filter_In)%list_elem_of_fmap.
    simpl in Heq. subst s'. apply Hs, list_elem_of_fmap.
    exists (s, rs'). split; [done|]. apply list_elem_of_In. tauto.
  - by apply IH.
Qed.

Lemma joined_members sid room ss :
  JsMap.wf ss → joined sid room ss = true ↔ sid ∈ members [room] ss.
Proof.
  intros Hwf. unfold joined. rewrite elem_of_members. split.
  - destruct (JsMap.get sid ss) as [rs|] eqn:Hget; [|done].
    intros Hroom. exists rs. split; [by apply JsMap_get_Some_elem|].
    unfold inAnyRoom. simpl. by rewrite Hroom.
  - intros (rs & Hin & Hroom). rewrite (JsMap_elem_get _ _ _ Hwf Hin).
    unfold inAnyRoom in Hroom. simpl in Hroom. by rewrite orb_false_r in Hroom.
Qed.

Lemma members_delete rooms ss sid s :
  s ∈ members rooms (JsMap.delete sid ss) ↔ s ≠ sid ∧ s ∈ members rooms ss.
Proof.
  rewrite !elem_of_members. unfold JsMap.delete. split.
  - intros (rs & Hin%list_elem_of_In%filter_In & Hroom).
    destruct Hin as [Hin Hne]. simpl in Hne.
    apply negb_true_iff, bool_decide_eq_false in Hne.
    split; [done|]. exists rs. by rewrite list_elem_of_In.
  - intros (Hne & rs & Hin & Hroom). exists rs. split; [|done].
    apply list_elem_of_In, filter_In. rewrite <- list_elem_of_In.
    split; [done|]. simpl. by rewrite bool_decide_eq_false_2.
Qed.

Lemma joined_delete sid s room ss :
  s ≠ sid → joined s room (JsMap.delete sid ss) = joined s room ss.
Proof.
  intros Hne. unfold joined. rewrite JsMap_get_delete.
  by rewrite decide_False by done.
Qed.

Lemma joined_alter (f : gset jsstring → gset jsstring) sid s room ss :
  joined s room (JsMap.alter f sid ss) =
    match JsMap.get s ss with
    | Some rs => bool_decide (room ∈ if decide (sid = s) then f rs else rs)
    | None => false
    end.
Proof.
  unfold joined. rewrite JsMap_get_alter.
  destruct (decide (sid = s)), (JsMap.get s ss); done.
Qed.



Lemma deliveredTo_app sid (out1 out2 : list Delivery) :
  deliveredTo sid (out1 ++ out2) = deliveredTo sid out1 ++ deliveredTo sid out2.
Proof. apply List.filter_app. Qed.

Lemma deliveredTo_fmap sid ev data (l : list jsstring) :
  NoDup l →
  deliveredTo sid ((λ s, mkDelivery s ev data) <$> l) =
    if bool_decide (sid ∈ l) then [mkDelivery sid ev data] else [].
Proof.
  unfold deliveredTo. induction l as [|s l IH]; [done|].
  intros [Hs Hl]%NoDup_cons. rewrite fmap_cons. cbn [List.filter recipient].
  rewrite IH by done.
  destruct (decide (s = sid)) as [->|Hne].
  - rewrite (bool_decide_eq_true_2 (sid = sid)) by done.
    rewrite (bool_decide_eq_false_2 (sid ∈ l)) by done.
    by rewrite bool_decide_eq_true_2 by (by left).
  - rewrite (bool_decide_eq_false_2 (s = sid)) by done.
    apply (f_equal (λ b : bool, if b then _ else _)).
    apply bool_decide_ext. rewrite elem_of_cons. intuition congruence.
Qed.

Lemma deliveredTo_io_to_emit sid room ev data ss :
  JsMap.wf ss →
  deliveredTo sid (io_to_emit room ev data ss) =
    if joined sid room ss then [mkDelivery sid ev data] else [].
Proof.
  intros Hwf. unfold io_to_emit.
  rewrite deliveredTo_fmap by by apply NoDup_members.
  destruct (joined sid room ss) eqn:Hj.
  - apply joined_members in Hj; [|done]. by rewrite bool_decide_eq_true_2.
  - rewrite bool_decide_eq_false_2; [done|].
    intros Hin%joined_members; [|done]. congruence.
Qed.

Lemma deliveredTo_socket_to_emit sid sender room ev data ss :
  JsMap.wf ss →
  deliveredTo sid (socket_to_emit sender [room] ev data ss) =
    if bool_decide (sid ≠ sender) && joined sid room ss
    then [mkDelivery sid ev data] else [].
Proof.
  intros Hwf. unfold socket_to_emit.
  rewrite deliveredTo_fmap.
  2:{ apply NoDup_ListNoDup, List.NoDup_filter, NoDup_ListNoDup.
      by apply NoDup_members. }
  assert (Hiff : sid ∈ List.filter (λ s, bool_decide (s ≠ sender)) (members [room] ss)
                 ↔ sid ≠ sender ∧ joined sid room ss = true).
  { rewrite list_elem_of_In, filter_In, <- list_elem_of_In.
    rewrite bool_decide_eq_true, joined_members by done. tauto. }
  case_bool_decide as Hin.
  - apply Hiff in Hin as [Hne ->]. by rewrite bool_decide_eq_true_2.
  - destruct (bool_decide (sid ≠ sender)) eqn:Hne; [|done].
    destruct (joined sid room ss) eqn:Hj; [|done].
    exfalso. apply Hin, Hiff. by apply bool_decide_eq_true in Hne.
Qed.

Lemma deliveredTo_io_emit sid ev data ss :
  JsMap.wf ss →
  deliveredTo sid (io_emit ev data ss) =
    if bool_decide (sid ∈ JsMap.keys ss) then [mkDelivery sid ev data] else [].
Proof. intros Hwf. unfold io_emit. by apply deliveredTo_fmap. Qed.

End TransportFacts.

(** ** The join-room handler and the validators *)

Section JoinFacts.
Import Validators Transport ChatSocket MatchingService.
Implicit Types (srv : Server) (sid : jsstring) (data : JsVal).

Lemma requestedRoomId_joinRequest (roomId interests : JsVal) :
  requestedRoomId (joinRequest roomId interests) = roomId.
Proof. reflexivity. Qed.

Lemma requestedInterests_joinRequest (roomId interests : JsVal) :
  requestedInterests (joinRequest roomId interests) =
    match interests with JUndefined => JArr [] | v => v end.
Proof. by destruct interests. Qed.

(** The handler reads its payload through [requestedRoomId] and
    [validateInterests (requestedInterests _)] only. *)
Lemma onJoinRoom_ext sid data data' srv :
  requestedRoomId data = requestedRoomId data' →
  validateInterests (requestedInterests data)
  = validateInterests (requestedInterests data') →
  onJoinRoom sid data srv = onJoinRoom sid data' srv.
Proof. intros Hroom Hints. unfold onJoinRoom. by rewrite Hroom, Hints. Qed.

Lemma onJoinRoom_invalid sid data srv error :
  validateInterests (requestedInterests data) = Invalid error →
  onJoinRoom sid data srv = (srv, []).
Proof.
  intros Hinv. unfold onJoinRoom. rewrite Hinv.
  by destruct (getUser sid (service srv)).
Qed.

(** The pairing path of the handler. *)
Lemma onJoinRoom_pairing sid data srv user validated :
  getUser sid (service srv) = Some user →
  validateInterests (requestedInterests data) = Valid validated →
  isTheString (requestedRoomId data) ROOM_TYPES.TEXT_CHAT = false →
  onJoinRoom sid data srv =
    matchOrWait sid validated
      (updateUser sid (User.mkUpdates (Some validated) None None) (service srv)).1
      (sockets srv).
Proof.
  intros Huser Hvalid Hroom. unfold onJoinRoom. rewrite Huser, Hvalid, Hroom.
  by destruct (updateUser _ _ _).
Qed.

Lemma interests_matchOrWait sid (interests : list jsstring) svc ss id :
  User.interests <$> getUser id (service (matchOrWait sid interests svc ss).1)
  = User.interests <$> getUser id svc.
Proof.
  unfold matchOrWait.
  assert (Hwait : User.interests <$> getUser id (service (wait sid svc ss).1)
                  = User.interests <$> getUser id svc).
  { unfold wait.
    name_state. simpl.
    rewrite getUser_updateUser. case_decide; [|done].
    by destruct (getUser id svc). }
  destruct (findMatchingUser sid interests svc) as [matchId|]; [|done].
  destruct (truthy (JStr matchId)); [|done].
  destruct (createRoom sid matchId svc) as [svc1 room] eqn:Hroom. simpl.
  replace svc1 with (createRoom sid matchId svc).1 by by rewrite Hroom.
  rewrite getUser_createRoom. case_decide; [|done].
  by destruct (getUser id svc).
Qed.

(** After a join-room request with valid interests, the requester's entry
    holds the validated list. *)
Lemma onJoinRoom_stores_interests sid data srv validated :
  is_Some (getUser sid (service srv)) →
  validateInterests (requestedInterests data) = Valid validated →
  User.interests <$> getUser sid (service (onJoinRoom sid data srv).1)
  = Some validated.
Proof.
  intros [user Huser] Hvalid.
  destruct (isTheString (requestedRoomId data) ROOM_TYPES.TEXT_CHAT) eqn:Hroom.
  - unfold onJoinRoom. rewrite Huser, Hvalid, Hroom.
    do 2 name_state. simpl.
    change (getUser sid (addToTextChat sid ?st)) with (getUser sid st).
    rewrite !getUser_updateUser, !decide_True by done. by rewrite Huser.
  - rewrite (onJoinRoom_pairing _ _ _ _ _ Huser Hvalid Hroom).
    rewrite interests_matchOrWait.
    rewrite getUser_updateUser, decide_True by done. by rewrite Huser.
Qed.

(** C9.  [validateInterests] answers [null] and [undefined] with a valid,
    empty list.  A join-room request whose [interests] is [null], is
    [undefined] or is left out, and a request without any payload, are
    handled exactly as the same request with [interests: []]. *)
Theorem absent_interests_are_no_interests sid (roomId : JsVal) srv :
  validateInterests JNull = Valid []
  ∧ validateInterests JUndefined = Valid []
  ∧ onJoinRoom sid (joinRequest roomId JNull) srv
    = onJoinRoom sid (joinRequest roomId (JArr [])) srv
  ∧ onJoinRoom sid (joinRequest roomId JUndefined) srv
    = onJoinRoom sid (joinRequest roomId (JArr [])) srv
  ∧ onJoinRoom sid (JObj [(lit "roomId", roomId)]) srv
    = onJoinRoom sid (joinRequest roomId (JArr [])) srv
  ∧ onJoinRoom sid JUndefined srv
    = onJoinRoom sid (joinRequest JUndefined (JArr [])) srv
  ∧ (is_Some (getUser sid (service srv)) →
     User.interests <$>
       getUser sid (service (onJoinRoom sid (joinRequest roomId JNull) srv).1)
     = Some []).
Proof.
  split_and!; try reflexivity; try (by apply onJoinRoom_ext).
  intros Huser. by apply onJoinRoom_stores_interests.
Qed.

(** C1, as the code has it.  A list of more than 10 entries is rejected as a
    whole, and the join-room handler then drops the request: no state
    changes, nothing is emitted.  A list of at most 10 entries is valid: the
    result keeps, in order, the trimmed form of each entry that is a string
    and is not empty after trimming, and nothing else; it has at most 10
    entries, each trimmed and non-empty; and the handler stores it as the
    requester's interests. *)
Theorem validateInterests_ten_or_fewer (l : list JsVal) sid (roomId : JsVal) srv :
  (length l ≤ 10 →
     validateInterests (JArr l)
     = Valid (trimInterest <$> List.filter keepInterest l)
     ∧ length (validInterests l) ≤ 10
     ∧ (∀ i, i ∈ validInterests l ↔
               ∃ s, JStr s ∈ l ∧ 0 < length (trim s) ∧ i = trim s)
     ∧ (∀ i, i ∈ validInterests l → trim i = i ∧ 0 < length i)
     ∧ (is_Some (getUser sid (service srv)) →
        User.interests <$>
          getUser sid (service (onJoinRoom sid (joinRequest roomId (JArr l)) srv).1)
        = Some (validInterests l)))
  ∧ (10 < length l →
     isValid (validateInterests (JArr l)) = false
     ∧ onJoinRoom sid (joinRequest roomId (JArr l)) srv = (srv, [])).
Proof.
  change 10 with VALIDATION_LIMITS.MAX_INTERESTS. split.
  - intros Hlen.
    assert (Hvalid : validateInterests (JArr l) = Valid (validInterests l)).
    { rewrite validateInterests_array. by rewrite bool_decide_eq_true_2. }
    split_and!.
    + done.
    + etrans; [apply length_validInterests|done].
    + apply elem_of_validInterests.
    + intros i (s & _ & Hs & ->)%elem_of_validInterests.
      by rewrite trim_trim.
    + intros Huser. apply onJoinRoom_stores_interests; [done|].
      rewrite requestedInterests_joinRequest. done.
  - intros Hlen.
    assert (Hinv : validateInterests (JArr l)
                   = Invalid (lit "Too many interests (max 10)")).
    { rewrite validateInterests_array. rewrite bool_decide_eq_false_2; [done|lia]. }
    split; [by rewrite Hinv|].
    eapply onJoinRoom_invalid. rewrite requestedInterests_joinRequest. exact Hinv.
Qed.

(** C1, as it is worded, fails: eleven interests are not cut down to ten, the
    list is rejected and the request is dropped. *)
Lemma validateInterests_rejects_eleven :
  length Scenario.elevenInterests = 11
  ∧ validateInterests (JArr Scenario.elevenInterests)
    = Invalid (lit "Too many interests (max 10)")
  ∧ isValid (validateInterests (JArr Scenario.elevenInterests)) = false
  ∧ onJoinRoom Scenario.alice (joinRequest JNull (JArr Scenario.elevenInterests))
      Scenario.pairedServer
    = (Scenario.pairedServer, []).
Proof.
  split_and!; [done|done|done|].
  eapply onJoinRoom_invalid. reflexivity.
Qed.

(** Ten entries, three of them strings with something left after trimming. *)
Lemma validateInterests_ten_or_fewer_witness :
  validateInterests (JArr Scenario.tenInterests)
  = Valid [lit "music"; lit "art"; lit "chess"].
Proof.
  pose proof (validateInterests_ten_or_fewer Scenario.tenInterests
                Scenario.alice JNull Scenario.pairedServer) as [Hle _].
  destruct Hle as (Hvalid & _).
  - simpl. lia.
  - rewrite Hvalid. reflexivity.
Defined.

End JoinFacts.

(** ** Pairing, leaving and disconnecting *)

Section PairFacts.
Import Validators Transport ChatSocket MatchingService.
Implicit Types (srv : Server) (sid a b r matchId : jsstring) (data : JsVal).


Lemma roomId_not_text_chat a b :
  lit "chat-" ++ a ++ lit "-" ++ b ≠ ROOM_TYPES.TEXT_CHAT.
Proof. intros Heq. apply (f_equal head) in Heq. discriminate Heq. Qed.

Lemma roomId_truthy a b : truthy (JStr (lit "chat-" ++ a ++ lit "-" ++ b)) = true.
Proof. reflexivity. Qed.

Lemma truthyStr_Some r : truthyStr (Some r) = truthy (JStr r).
Proof. reflexivity. Qed.

Lemma findMatchingUser_registered sid (interests : list jsstring) st matchId :
  findMatchingUser sid interests st = Some matchId →
  matchId ≠ sid ∧ is_Some (getUser matchId st).
Proof.
  intros (Hne & user & Hin & _)%findMatchingUser_Some_entry. split; [done|].
  unfold getUser. destruct (JsMap.get matchId (onlineUsers st)) eqn:Hget; [done|].
  apply JsMap_get_None in Hget. exfalso. apply Hget.
  apply list_elem_of_fmap. by exists (matchId, user).
Qed.

(** The match branch of the handler, spelled out. *)
Lemma matchOrWait_match sid (interests : list jsstring) svc ss matchId :
  findMatchingUser sid interests svc = Some matchId →
  truthy (JStr matchId) = true →
  let room := lit "chat-" ++ sid ++ lit "-" ++ matchId in
  matchOrWait sid interests svc ss =
    (mkServer (createRoom sid matchId svc).1 (join matchId room (join sid room ss)),
     io_to_emit matchId SOCKET_EVENTS.MATCH_FOUND (MatchFound room false interests)
       (join matchId room (join sid room ss))
     ++ [mkDelivery sid SOCKET_EVENTS.MATCH_FOUND
           (MatchFound room true
              (default [] (User.interests <$> getUser matchId svc)))]).
Proof. intros Hfind Htruthy. unfold matchOrWait. by rewrite Hfind, Htruthy. Qed.


(** A match leaves the two users in the state of a pair session. *)
Lemma onJoinRoom_paired
    sid data srv (user : User.t) (validated : list jsstring) matchId :
  getUser sid (service srv) = Some user →
  validateInterests (requestedInterests data) = Valid validated →
  isTheString (requestedRoomId data) ROOM_TYPES.TEXT_CHAT = false →
  findMatchingUser sid validated
    (updateUser sid (User.mkUpdates (Some validated) None None) (service srv)).1
  = Some matchId →
  truthy (JStr matchId) = true →
  is_Some (JsMap.get sid (sockets srv)) →
  is_Some (JsMap.get matchId (sockets srv)) →
  paired sid matchId (lit "chat-" ++ sid ++ lit "-" ++ matchId)
    (onJoinRoom sid data srv).1.
Proof.
  intros Huser Hvalid Hroom Hfind Htruthy [rs Hrs] [rm Hrm].
  destruct (findMatchingUser_registered _ _ _ _ Hfind) as [Hne [mu Hmu]].
  rewrite (onJoinRoom_pairing _ _ _ _ _ Huser Hvalid Hroom).
  rewrite (matchOrWait_match _ _ _ _ _ Hfind Htruthy). cbn [fst].
  unfold paired. cbn [service sockets]. split_and!.
  - done.
  - apply roomId_truthy.
  - apply roomId_not_text_chat.
  - rewrite getUser_createRoom, decide_True by (by left).
    rewrite getUser_updateUser, decide_True by done. by rewrite Huser.
  - rewrite getUser_createRoom, decide_True by (by right). by rewrite Hmu.
  - unfold join. rewrite !joined_alter, JsMap_get_alter.
    destruct (decide (sid = sid)); [|done]. rewrite Hrs.
    destruct (decide (matchId = sid)); [done|]. simpl.
    apply bool_decide_eq_true. apply elem_of_union_l, elem_of_singleton. done.
  - unfold join. rewrite !joined_alter, JsMap_get_alter.
    destruct (decide (matchId = matchId)); [|done].
    destruct (decide (sid = matchId)); [congruence|]. rewrite Hrm.
    apply bool_decide_eq_true. apply elem_of_union_l, elem_of_singleton. done.
Qed.

Lemma getProp_leaveRequest (roomId reason : JsVal) :
  getProp (lit "roomId") (orEmptyObject (leaveRequest roomId reason)) = roomId
  ∧ getProp (lit "reason") (orEmptyObject (leaveRequest roomId reason)) = reason.
Proof. split; reflexivity. Qed.



(** What [disconnect] does when a member of a pair session goes. *)
Lemma onDisconnect_paired a b r srv (ua : User.t) :
  paired a b r srv →
  getUser a (service srv) = Some ua →
  step a Disconnect srv =
    (mkServer (removeUser a (service srv)).1 (disconnect a (sockets srv)),
     io_to_emit r SOCKET_EVENTS.USER_LEFT
       (UserLeft (Some (JStr DISCONNECT_REASONS.DISCONNECTED))
          (Some (User.username ua)))
       (disconnect a (sockets srv))
     ++ (if isInTextChat a (service srv)
         then io_to_emit ROOM_TYPES.TEXT_CHAT SOCKET_EVENTS.USER_LEFT
                (UserLeft None (Some (User.username ua)))
                (disconnect a (sockets srv))
         else [])
     ++ io_emit SOCKET_EVENTS.USER_COUNT
          (UserCount (getOnlineUserCount (removeUser a (service srv)).1))
          (disconnect a (sockets srv))).
Proof.
  intros (Hne & Htruthy & Htext & Hra & Hrb & Hja & Hjb) Hua.
  unfold step, onDisconnect. cbn [service sockets]. rewrite Hua.
  rewrite Hua in Hra. injection Hra as Hra. rewrite Hra.
  rewrite truthyStr_Some, Htruthy, bool_decide_eq_true_2 by done.
  cbn [andb fmap option_fmap option_map]. done.
Qed.

(** C3, as the code has it.  When a member of a pair session disconnects, its
    entry leaves the registry; the other member gets exactly one [user-left]
    event with reason [disconnected] (then a [user-left] without a reason if
    the one who left was a text-chat user and the other is in the text-chat
    room, then the new user count); the other member's entry is not touched:
    its [roomId] is still the room's id. *)
Theorem disconnect_removes_leaver_and_notifies_peer a b r srv (ua ub : User.t) :
  JsMap.wf (sockets srv) →
  paired a b r srv →
  getUser a (service srv) = Some ua →
  getUser b (service srv) = Some ub →
  let after := step a Disconnect srv in
  getUser a (service after.1) = None
  ∧ getUser b (service after.1) = Some ub
  ∧ User.roomId <$> getUser b (service after.1) = Some (Some r)
  ∧ deliveredTo b after.2 =
      [mkDelivery b SOCKET_EVENTS.USER_LEFT
         (UserLeft (Some (JStr DISCONNECT_REASONS.DISCONNECTED))
            (Some (User.username ua)))]
      ++ (if isInTextChat a (service srv)
             && joined b ROOM_TYPES.TEXT_CHAT (sockets srv)
          then [mkDelivery b SOCKET_EVENTS.USER_LEFT
                  (UserLeft None (Some (User.username ua)))]
          else [])
      ++ [mkDelivery b SOCKET_EVENTS.USER_COUNT
            (UserCount (getOnlineUserCount (service after.1)))]
  ∧ deliveredTo a after.2 = [].
Proof.
  intros Hwf Hpair Hua Hub after. subst after.
  rewrite (onDisconnect_paired a b r srv ua Hpair Hua).
  destruct Hpair as (Hne & Htruthy & Htext & Hra & Hrb & Hja & Hjb).
  cbn [fst snd service sockets].
  assert (Hwf' : JsMap.wf (disconnect a (sockets srv))).
  { by apply JsMap_wf_delete. }
  assert (Hgb : getUser b (removeUser a (service srv)).1 = Some ub).
  { rewrite getUser_removeUser, decide_False by done. done. }
  assert (Hkeys : ∀ s, s ∈ JsMap.keys (disconnect a (sockets srv))
                       ↔ s ≠ a ∧ is_Some (JsMap.get s (sockets srv))).
  { intros s. unfold disconnect.
    destruct (JsMap.get s (JsMap.delete a (sockets srv))) eqn:Hget.
    - pose proof Hget as Hget'. rewrite JsMap_get_delete in Hget'.
      case_decide; [done|]. split; [by eauto|]. intros _.
      destruct (decide (s ∈ JsMap.keys (JsMap.delete a (sockets srv))))
        as [|Hn]; [done|].
      apply JsMap_get_None in Hn. congruence.
    - pose proof Hget as Hget'. apply JsMap_get_None in Hget'.
      rewrite JsMap_get_delete in Hget. split; [done|].
      intros [Hsa [x Hx]]. rewrite decide_False in Hget by done. congruence. }
  split_and!.
  - rewrite getUser_removeUser. by rewrite decide_True.
  - done.
  - by rewrite Hgb, <- Hub.
  - rewrite !deliveredTo_app.
    rewrite deliveredTo_io_to_emit by done.
    unfold disconnect. rewrite joined_delete by congruence. rewrite Hjb.
    f_equal. f_equal.
    + destruct (isInTextChat a (service srv)); [|done]. cbn [andb].
      rewrite deliveredTo_io_to_emit by done.
      by rewrite joined_delete by congruence.
    + rewrite deliveredTo_io_emit by done.
      rewrite bool_decide_eq_true_2; [done|]. apply Hkeys.
      split; [congruence|]. unfold joined in Hjb.
      destruct (JsMap.get b (sockets srv)); [by eauto|done].
  - rewrite !deliveredTo_app.
    assert (Hgone : ∀ room, joined a room (disconnect a (sockets srv)) = false).
    { intros room. unfold joined, disconnect.
      rewrite JsMap_get_delete. by rewrite decide_True. }
    rewrite deliveredTo_io_to_emit, Hgone by done.
    rewrite deliveredTo_io_emit by done.
    rewrite bool_decide_eq_false_2 by (rewrite Hkeys; tauto).
    destruct (isInTextChat a (service srv)); [|done].
    by rewrite deliveredTo_io_to_emit, Hgone by done.
Qed.

(** The scenario: [alice] and [bob] end up in a pair session. *)
Lemma Scenario_paired :
  paired Scenario.alice Scenario.bob Scenario.pairRoom Scenario.pairedServer.
Proof.
  unfold paired. split_and!; by vm_compute.
Qed.

Lemma Scenario_wf : JsMap.wf (sockets Scenario.pairedServer).
Proof. apply (bool_decide_unpack _). by vm_compute. Qed.





(** [alice] disconnects while paired with [bob]. *)
Lemma disconnect_removes_leaver_and_notifies_peer_witness :
  (JsMap.wf (sockets Scenario.pairedServer)
   ∧ paired Scenario.alice Scenario.bob Scenario.pairRoom Scenario.pairedServer
   ∧ getUser Scenario.alice (service Scenario.pairedServer)
     = Some Scenario.alicePaired
   ∧ getUser Scenario.bob (service Scenario.pairedServer)
     = Some Scenario.bobPaired)
  ∧ let after := step Scenario.alice Disconnect Scenario.pairedServer in
    getUser Scenario.alice (service after.1) = None
    ∧ User.roomId <$> getUser Scenario.bob (service after.1)
      = Some (Some Scenario.pairRoom)
    ∧ deliveredTo Scenario.bob after.2 =
        [mkDelivery Scenario.bob SOCKET_EVENTS.USER_LEFT
           (UserLeft (Some (JStr DISCONNECT_REASONS.DISCONNECTED))
              (Some (lit "User7")));
         mkDelivery Scenario.bob SOCKET_EVENTS.USER_COUNT (UserCount 1)].
Proof.
  split; [by split_and!; [apply Scenario_wf|apply Scenario_paired|..]|].
  pose proof (disconnect_removes_leaver_and_notifies_peer
                Scenario.alice Scenario.bob Scenario.pairRoom Scenario.pairedServer
                Scenario.alicePaired Scenario.bobPaired
                Scenario_wf Scenario_paired eq_refl eq_refl)
    as (Hleaver & _ & Hroom & Hpeer & _).
  exact (conj Hleaver (conj Hroom Hpeer)).
Defined.

(** C3, as it is worded, fails: after [alice] has disconnected, [bob]'s
    [roomId] is still the id of their room, not [null]. *)
Lemma disconnect_keeps_peer_roomId :
  paired Scenario.alice Scenario.bob Scenario.pairRoom Scenario.pairedServer
  ∧ User.roomId <$>
      getUser Scenario.bob
        (service (step Scenario.alice Disconnect Scenario.pairedServer).1)
    = Some (Some Scenario.pairRoom)
  ∧ User.roomId <$>
      getUser Scenario.bob
        (service (step Scenario.alice Disconnect Scenario.pairedServer).1)
    ≠ Some None.
Proof.
  split_and!; [apply Scenario_paired|by vm_compute|].
  intros Heq. by vm_compute in Heq.
Qed.

End PairFacts.

(** ** Invariant: the registry and the sockets stay maps *)

Section Invariant.
Import Validators Transport ChatSocket MatchingService.
Implicit Types (srv : Server) (sid : jsstring) (st : MatchingService.t).

Lemma wf_updateUser sid (updates : User.Updates) st :
  JsMap.wf (onlineUsers st) → JsMap.wf (onlineUsers (updateUser sid updates st).1).
Proof. unfold JsMap.wf. by rewrite keys_updateUser. Qed.

Lemma wf_assignRoom sid r st :
  JsMap.wf (onlineUsers st) → JsMap.wf (onlineUsers (assignRoom sid r st)).
Proof. unfold JsMap.wf. by rewrite keys_assignRoom. Qed.

Lemma wf_createRoom (a b : jsstring) st :
  JsMap.wf (onlineUsers st) → JsMap.wf (onlineUsers (createRoom a b st).1).
Proof. intros Hwf. unfold createRoom. cbn [fst]. by do 2 apply wf_assignRoom. Qed.

Lemma wf_leaveRoom sid st :
  JsMap.wf (onlineUsers st) → JsMap.wf (onlineUsers (leaveRoom sid st).1).
Proof.
  intros Hwf. unfold leaveRoom.
  destruct (JsMap.get sid (onlineUsers st)) as [user|]; [|done].
  destruct (truthyStr (User.roomId user)); [|done]. by apply wf_assignRoom.
Qed.

Lemma wf_init : wf ChatSocket.init.
Proof. split; apply NoDup_nil_2. Qed.

Lemma wf_matchOrWait sid (interests : list jsstring) st ss :
  JsMap.wf (onlineUsers st) → JsMap.wf ss →
  wf (matchOrWait sid interests st ss).1.
Proof.
  intros Hst Hss. unfold matchOrWait.
  assert (Hwait : wf (wait sid st ss).1).
  { unfold wait. name_state.
    split; [by apply wf_updateUser|done]. }
  destruct (findMatchingUser sid interests st) as [matchId|]; [|done].
  destruct (truthy (JStr matchId)); [|done].
  name_state.
  split; cbn [fst service sockets].
  - by apply wf_createRoom.
  - unfold join. by do 2 apply JsMap_wf_alter.
Qed.

Lemma idle_unassigned (user : User.t) :
  User.roomId user ≠ Some [] →
  User.idle user = true ↔ User.roomId user = None.
Proof.
  unfold User.idle, truthyStr. destruct (User.roomId user) as [r|]; [|done].
  intros Hr. rewrite bool_decide_eq_false_2 by (by intros ->). done.
Qed.

Lemma roomIdsNamed_assignRoom sid r st :
  r ≠ Some [] → roomIdsNamed st → roomIdsNamed (assignRoom sid r st).
Proof.
  intros Hr Hst id user [Hin|(u0 & _ & ->)]%JsMap_elem_alter; [by eapply Hst|done].
Qed.

Lemma roomIdsNamed_updateUser sid (updates : User.Updates) st :
  User.upd_roomId updates ≠ Some (Some []) →
  roomIdsNamed st → roomIdsNamed (updateUser sid updates st).1.
Proof.
  intros Hupd Hst. unfold updateUser.
  destruct (JsMap.get sid (onlineUsers st)); [|done].
  intros id user [Hin|(u0 & Hin & ->)]%JsMap_elem_alter; [by eapply Hst|].
  unfold User.assign. cbn [User.roomId].
  destruct (User.upd_roomId updates) as [r|]; simpl; [|by eapply Hst].
  intros ->. by apply Hupd.
Qed.

Lemma roomIdsNamed_matchOrWait sid (interests : list jsstring) st ss :
  roomIdsNamed st → roomIdsNamed (service (matchOrWait sid interests st ss).1).
Proof.
  intros Hst. unfold matchOrWait.
  assert (Hwait : roomIdsNamed (service (wait sid st ss).1)).
  { unfold wait. name_state.
    by apply roomIdsNamed_updateUser. }
  destruct (findMatchingUser sid interests st) as [matchId|]; [|done].
  destruct (truthy (JStr matchId)); [|done].
  name_state.
  cbn [fst service]. unfold createRoom. cbn [fst].
  by do 2 (apply roomIdsNamed_assignRoom; [done|]).
Qed.

(** The handlers only ever assign [null], the text-chat room or a room id
    made by [createRoom]; so in every state the server reaches, an entry
    passes the [!user.roomId] test exactly when its [roomId] is [null]. *)
Lemma roomIdsNamed_step sid (ev : Inbound) srv :
  roomIdsNamed (service srv) → roomIdsNamed (service (step sid ev srv).1).
Proof.
  intros Hst. destruct ev as [rnd|data|data|]; unfold step.
  - unfold onConnection, addUser. cbn [fst service onlineUsers withUsers].
    intros id user [Hin | ->]%JsMap_elem_set; [by eapply Hst|done].
  - unfold onJoinRoom.
    destruct (getUser sid (service srv)) as [user|]; [|done].
    destruct (validateInterests (requestedInterests data)) as [validated|];
      [|done].
    name_state.
    destruct (isTheString (requestedRoomId data) ROOM_TYPES.TEXT_CHAT).
    + name_state.
      cbn [fst service].
      change (roomIdsNamed (addToTextChat sid ?st)) with (roomIdsNamed st).
      by do 2 (apply roomIdsNamed_updateUser; [done|]).
    + apply roomIdsNamed_matchOrWait. by apply roomIdsNamed_updateUser.
  - unfold onLeaveRoom.
    destruct (getUser sid (service srv)) as [user|]; [|done].
    assert (Hleave : roomIdsNamed (leaveRoom sid (service srv)).1).
    { unfold leaveRoom.
      destruct (JsMap.get sid (onlineUsers (service srv))) as [u|]; [|done].
      destruct (truthyStr (User.roomId u)); [|done].
      by apply roomIdsNamed_assignRoom. }
    destruct (leaveRoom sid (service srv)) as [st1 r1]. simpl in Hleave.
    by repeat case_match.
  - unfold onDisconnect, removeUser. cbn [fst service onlineUsers].
    intros id user Hin%JsMap_elem_delete. by eapply Hst.
Qed.

(** Every handler keeps the invariant, so it holds in every state the
    server reaches from [ChatSocket.init]. *)
Lemma wf_step sid (ev : Inbound) srv : wf srv → wf (step sid ev srv).1.
Proof.
  intros [Hst Hss]. destruct ev as [rnd|data|data|]; unfold step.
  - unfold onConnection, addUser. cbn [fst service sockets].
    split; cbn [fst service sockets onlineUsers withUsers connect].
    + by apply JsMap_wf_set.
    + by apply JsMap_wf_set.
  - unfold onJoinRoom.
    destruct (getUser sid (service srv)) as [user|]; [|done].
    destruct (validateInterests (requestedInterests data)) as [validated|];
      [|done].
    name_state.
    destruct (isTheString (requestedRoomId data) ROOM_TYPES.TEXT_CHAT).
    + name_state.
      split; cbn [fst service sockets addToTextChat onlineUsers].
      * by do 2 apply wf_updateUser.
      * unfold join. by apply JsMap_wf_alter.
    + apply wf_matchOrWait; [by apply wf_updateUser|done].
  - unfold onLeaveRoom.
    destruct (getUser sid (service srv)) as [user|]; [|done].
    destruct (leaveRoom sid (service srv)) as [st1 r1] eqn:Hleave.
    apply (f_equal fst) in Hleave. simpl in Hleave. subst st1.
    destruct (truthy _ && negb _).
    + split; cbn [fst service sockets]; [by apply wf_leaveRoom|].
      unfold leaveVal, leave. destruct (getProp _ _); try done.
      by apply JsMap_wf_alter.
    + destruct (isTheString _ _).
      * split; cbn [fst service sockets]; [by apply wf_leaveRoom|].
        unfold leave. by apply JsMap_wf_alter.
      * split; cbn [fst service sockets]; [by apply wf_leaveRoom|done].
  - unfold onDisconnect, removeUser. cbn [fst service sockets onlineUsers].
    split; cbn [fst service sockets onlineUsers disconnect];
      by apply JsMap_wf_delete.
Qed.

Lemma wf_run (evs : list (jsstring * Inbound)) srv : wf srv → wf (run evs srv).1.
Proof.
  revert srv. induction evs as [|[sid ev] evs IH]; intros srv Hwf; [done|].
  simpl. destruct (step sid ev srv) as [srv1 out1] eqn:Hstep.
  destruct (run evs srv1) as [srv2 out2] eqn:Hrun. simpl.
  replace srv2 with (run evs srv1).1 by by rewrite Hrun.
  apply IH. replace srv1 with (step sid ev srv).1 by by rewrite Hstep.
  by apply wf_step.
Qed.

Lemma roomIdsNamed_run (evs : list (jsstring * Inbound)) srv :
  roomIdsNamed (service srv) → roomIdsNamed (service (run evs srv).1).
Proof.
  revert srv. induction evs as [|[sid ev] evs IH]; intros srv Hst; [done|].
  simpl. destruct (step sid ev srv) as [srv1 out1] eqn:Hstep.
  destruct (run evs srv1) as [srv2 out2] eqn:Hrun. simpl.
  replace srv2 with (run evs srv1).1 by by rewrite Hrun.
  apply IH. replace srv1 with (step sid ev srv).1 by by rewrite Hstep.
  by apply roomIdsNamed_step.
Qed.

(** In every state the server reaches, the user [findMatchingUser] returns
    is registered under the returned id with [roomId: null]. *)
Lemma findMatchingUser_reached (evs : list (jsstring * Inbound))
    sid (interests : list jsstring) id :
  findMatchingUser sid interests (service (run evs ChatSocket.init).1) = Some id →
  id ≠ sid
  ∧ ∃ user, getUser id (service (run evs ChatSocket.init).1) = Some user
            ∧ User.roomId user = None.
Proof.
  intros (Hne & user & Hin & Hidle)%findMatchingUser_Some_entry.
  split; [done|]. exists user. split.
  - apply JsMap_elem_get; [|done]. apply (wf_run evs), wf_init.
  - apply idle_unassigned; [|done].
    eapply (roomIdsNamed_run evs ChatSocket.init); [|done].
    by intros ? ? ?%elem_of_nil.
Qed.

End Invariant.

(* ===================================================================== *)
(** * Further properties                                                  *)
(* ===================================================================== *)

(** ** Validators: user names, room ids, fixed points, sanitizing *)

Section MoreValidatorFacts.
Import Validators Sanitize.

Lemma trim_cons_nonempty (c : code_unit) (s : jsstring) :
  isWhiteSpace c = false → 0 < length (trim (c :: s)).
Proof.
  intros Hc. unfold trim, trimEnd. simpl. rewrite Hc. simpl.
  rewrite trimStart_snoc by done.
  rewrite length_rev, length_app. simpl. lia.
Qed.

Lemma validateUsername_string (s : jsstring) :
  validateUsername (JStr s) =
    if bool_decide (VALIDATION_LIMITS.MIN_USERNAME_LENGTH ≤ length (trim s)
                    ≤ VALIDATION_LIMITS.MAX_USERNAME_LENGTH)
    then Valid (trim s)
    else validateUsername (JStr s).
Proof.
  case_bool_decide as Hlen; [|done].
  unfold validateUsername, truthy.
  assert (s ≠ []) as Hs.
  { intros ->. cbn in Hlen. unfold VALIDATION_LIMITS.MIN_USERNAME_LENGTH in Hlen. lia. }
  rewrite bool_decide_eq_false_2 by done. simpl.
  destruct (Nat.ltb_spec (length (trim s)) VALIDATION_LIMITS.MIN_USERNAME_LENGTH);
    [lia|].
  destruct (Nat.ltb_spec VALIDATION_LIMITS.MAX_USERNAME_LENGTH (length (trim s)));
    [lia|done].
Qed.

Lemma validateUsername_string_rejects (s : jsstring) :
  ¬ (VALIDATION_LIMITS.MIN_USERNAME_LENGTH ≤ length (trim s)
     ≤ VALIDATION_LIMITS.MAX_USERNAME_LENGTH) →
  isValid (validateUsername (JStr s)) = false.
Proof.
  intros Hlen. unfold validateUsername, truthy.
  case_bool_decide as Hs; simpl; [done|].
  destruct (Nat.ltb_spec (length (trim s)) VALIDATION_LIMITS.MIN_USERNAME_LENGTH);
    [done|].
  destruct (Nat.ltb_spec VALIDATION_LIMITS.MAX_USERNAME_LENGTH (length (trim s)));
    [done|lia].
Qed.

(** X1.  A string passes [validateUsername] exactly when its trimmed length
    is between 3 and 50, and the name handed back is the trimmed string;
    nothing but a string passes. *)
Theorem validateUsername_accepts_iff_trimmed_length (s : jsstring) (v : JsVal) :
  (isValid (validateUsername (JStr s)) = true ↔ 3 ≤ length (trim s) ≤ 50)
  ∧ (isValid (validateUsername (JStr s)) = true →
     validateUsername (JStr s) = Valid (trim s))
  ∧ (isString v = false → isValid (validateUsername v) = false).
Proof.
  change 3 with VALIDATION_LIMITS.MIN_USERNAME_LENGTH.
  change 50 with VALIDATION_LIMITS.MAX_USERNAME_LENGTH.
  assert (Hiff : isValid (validateUsername (JStr s)) = true
                 ↔ VALIDATION_LIMITS.MIN_USERNAME_LENGTH ≤ length (trim s)
                   ≤ VALIDATION_LIMITS.MAX_USERNAME_LENGTH).
  { split.
    - intros Hv.
      destruct (decide (VALIDATION_LIMITS.MIN_USERNAME_LENGTH ≤ length (trim s)
                        ≤ VALIDATION_LIMITS.MAX_USERNAME_LENGTH)) as [|Hn]; [done|].
      rewrite (validateUsername_string_rejects s Hn) in Hv. done.
    - intros Hlen. rewrite validateUsername_string.
      by rewrite bool_decide_eq_true_2. }
  split_and!.
  - done.
  - intros Hv%Hiff. rewrite validateUsername_string.
    by rewrite bool_decide_eq_true_2.
  - by destruct v.
Qed.

Lemma validateMessage_Valid (v : JsVal) (m : jsstring) :
  validateMessage v = Valid m →
  ∃ s, v = JStr s ∧ m = trim s
       ∧ 1 ≤ length m ≤ VALIDATION_LIMITS.MAX_MESSAGE_LENGTH.
Proof.
  destruct v as [| | | |s| |]; try done. intros Hv. exists s.
  destruct (decide (1 ≤ length (trim s) ≤ VALIDATION_LIMITS.MAX_MESSAGE_LENGTH))
    as [Hlen|Hn].
  - rewrite validateMessage_string, bool_decide_eq_true_2 in Hv by done.
    injection Hv as <-. done.
  - pose proof (validateMessage_string_rejects s Hn) as Hrej.
    by rewrite Hv in Hrej.
Qed.

Lemma validInterests_fixed (l : list jsstring) :
  (∀ i, i ∈ l → trim i = i ∧ 0 < length i) →
  validInterests (JStr <$> l) = l.
Proof.
  unfold validInterests. induction l as [|i l IH]; [done|]. intros Hl.
  destruct (Hl i) as [Htrim Hlen]; [by left|].
  rewrite fmap_cons. cbn [List.filter keepInterest]. rewrite Htrim.
  apply Nat.ltb_lt in Hlen. rewrite Hlen. rewrite fmap_cons. cbn [trimInterest].
  rewrite Htrim. f_equal. apply IH. intros j Hj. apply Hl. by right.
Qed.

(** X2.  What a validator hands back passes the same validator unchanged: a
    validated message, a validated user name and a validated list of
    interests are fixed points of their validators. *)
Theorem validated_values_revalidate (v : JsVal) :
  (∀ m, validateMessage v = Valid m → validateMessage (JStr m) = Valid m)
  ∧ (∀ n, validateUsername v = Valid n → validateUsername (JStr n) = Valid n)
  ∧ (∀ l, validateInterests v = Valid l →
          validateInterests (JArr (JStr <$> l)) = Valid l).
Proof.
  split_and!.
  - intros m (s & -> & -> & Hlen)%validateMessage_Valid.
    rewrite validateMessage_string, trim_trim.
    by rewrite bool_decide_eq_true_2.
  - intros n Hv. destruct v as [| | | |s| |]; try done.
    destruct (decide (VALIDATION_LIMITS.MIN_USERNAME_LENGTH ≤ length (trim s)
                      ≤ VALIDATION_LIMITS.MAX_USERNAME_LENGTH)) as [Hlen|Hn].
    + rewrite validateUsername_string, bool_decide_eq_true_2 in Hv by done.
      injection Hv as <-.
      rewrite validateUsername_string, trim_trim.
      by rewrite bool_decide_eq_true_2.
    + pose proof (validateUsername_string_rejects s Hn) as Hrej.
      by rewrite Hv in Hrej.
  - intros l Hv.
    assert (Hl : length l ≤ VALIDATION_LIMITS.MAX_INTERESTS
                 ∧ ∀ i, i ∈ l → trim i = i ∧ 0 < length i).
    { unfold validateInterests in Hv.
      destruct (truthy v) eqn:Htruthy; simpl in Hv.
      - destruct v as [| | | | |l0|]; try done.
        destruct (Nat.ltb_spec VALIDATION_LIMITS.MAX_INTERESTS (length l0));
          [done|].
        injection Hv as <-. split.
        + etrans; [apply length_validInterests|done].
        + intros i (s & _ & Hs & ->)%elem_of_validInterests.
          by rewrite trim_trim.
      - injection Hv as <-. split; [simpl; lia|]. by intros i ?%elem_of_nil. }
    destruct Hl as [Hlen Hl].
    rewrite validateInterests_array, length_fmap.
    rewrite bool_decide_eq_true_2 by done. by rewrite validInterests_fixed.
Qed.

End MoreValidatorFacts.

Section SanitizeFacts.
Import Validators Sanitize.

Lemma replaceAll_app c r (s t : jsstring) :
  replaceAll c r (s ++ t) = replaceAll c r s ++ replaceAll c r t.
Proof. apply flat_map_app. Qed.

Lemma replaceAll_flat_map c r (f : code_unit → jsstring) (s : jsstring) :
  replaceAll c r (flat_map f s) = flat_map (λ x, replaceAll c r (f x)) s.
Proof.
  induction s as [|x s IH]; [done|]. simpl. by rewrite replaceAll_app, IH.
Qed.

Lemma flat_map_singleton (s : jsstring) : flat_map (λ x, [x]) s = s.
Proof. induction s as [|x s IH]; [done|]. simpl. by rewrite IH. Qed.

(** The five replacements in a row are one pass over the string: no
    replacement brings in a character a later one is after. *)
Lemma sanitizeInput_one_pass (s : jsstring) :
  sanitizeInput (JStr s) = flat_map escape s.
Proof.
  unfold sanitizeInput. rewrite <- (flat_map_singleton s) at 1.
  rewrite !replaceAll_flat_map. apply flat_map_ext. intros x.
  unfold escape.
  destruct (x =? 60)%N eqn:H60.
  { apply N.eqb_eq in H60. by subst x. }
  destruct (x =? 62)%N eqn:H62.
  { apply N.eqb_eq in H62. by subst x. }
  destruct (x =? 34)%N eqn:H34.
  { apply N.eqb_eq in H34. by subst x. }
  destruct (x =? 39)%N eqn:H39.
  { apply N.eqb_eq in H39. by subst x. }
  destruct (x =? 47)%N eqn:H47.
  { apply N.eqb_eq in H47. by subst x. }
  unfold replaceAll. simpl. rewrite H60. simpl. rewrite H62. simpl.
  rewrite H34. simpl. rewrite H39. simpl. by rewrite H47.
Qed.

Lemma escape_not_special (x c : code_unit) : c ∈ escape x → special c = false.
Proof.
  unfold escape.
  destruct (x =? 60)%N eqn:H60.
  { intros Hc. apply list_elem_of_In in Hc. simpl in Hc.
    repeat (destruct Hc as [<-|Hc]; [done|]). done. }
  destruct (x =? 62)%N eqn:H62.
  { intros Hc. apply list_elem_of_In in Hc. simpl in Hc.
    repeat (destruct Hc as [<-|Hc]; [done|]). done. }
  destruct (x =? 34)%N eqn:H34.
  { intros Hc. apply list_elem_of_In in Hc. simpl in Hc.
    repeat (destruct Hc as [<-|Hc]; [done|]). done. }
  destruct (x =? 39)%N eqn:H39.
  { intros Hc. apply list_elem_of_In in Hc. simpl in Hc.
    repeat (destruct Hc as [<-|Hc]; [done|]). done. }
  destruct (x =? 47)%N eqn:H47.
  { intros Hc. apply list_elem_of_In in Hc. simpl in Hc.
    repeat (destruct Hc as [<-|Hc]; [done|]). done. }
  intros ->%list_elem_of_singleton. unfold special.
  by rewrite H60, H62, H34, H39, H47.
Qed.

Lemma escape_clean (c : code_unit) : special c = false → escape c = [c].
Proof.
  unfold special, escape. intros Hc.
  apply orb_false_iff in Hc as [Hc H47].
  apply orb_false_iff in Hc as [Hc H39].
  apply orb_false_iff in Hc as [Hc H34].
  apply orb_false_iff in Hc as [H60 H62].
  by rewrite H60, H62, H34, H39, H47.
Qed.

Lemma flat_map_escape_clean (s : jsstring) :
  (∀ c, c ∈ s → special c = false) → flat_map escape s = s.
Proof.
  induction s as [|x s IH]; [done|]. intros Hs. simpl.
  rewrite escape_clean by (apply Hs; by left).
  simpl. f_equal. apply IH. intros c Hc. apply Hs. by right.
Qed.

Lemma sanitizeInput_no_special (input : JsVal) (c : code_unit) :
  c ∈ sanitizeInput input → special c = false.
Proof.
  destruct input as [| | | |s| |]; try (by intros ?%elem_of_nil).
  rewrite sanitizeInput_one_pass.
  intros (x & Hx & Hc)%list_elem_of_In%in_flat_map.
  eapply escape_not_special. by apply list_elem_of_In.
Qed.

(** X3.  Whatever the input, the output of [sanitizeInput] holds none of
    [<], [>], the two quotes and [/]; each of them has become its entity
    and every other character stands as it stood; an input that is not a
    string gives the empty string. *)
Theorem sanitizeInput_escapes (input : JsVal) (s : jsstring) :
  (∀ c, c ∈ sanitizeInput input → special c = false)
  ∧ sanitizeInput (JStr s) = flat_map escape s
  ∧ (isString input = false → sanitizeInput input = []).
Proof.
  split_and!.
  - apply sanitizeInput_no_special.
  - apply sanitizeInput_one_pass.
  - by destruct input.
Qed.

(** X4.  [sanitizeInput] leaves a string alone exactly when the string holds
    none of the five characters; so sanitizing twice is sanitizing once.
    It works piece by piece on a concatenation, and the output is at least
    as long as the input and at most six times as long. *)
Theorem sanitizeInput_idempotent (input : JsVal) (s t : jsstring) :
  (sanitizeInput (JStr s) = s ↔ ∀ c, c ∈ s → special c = false)
  ∧ sanitizeInput (JStr (sanitizeInput input)) = sanitizeInput input
  ∧ sanitizeInput (JStr (s ++ t))
    = sanitizeInput (JStr s) ++ sanitizeInput (JStr t)
  ∧ length s ≤ length (sanitizeInput (JStr s)) ≤ 6 * length s.
Proof.
  split_and!.
  - split.
    + intros Heq c Hc. apply (sanitizeInput_no_special (JStr s)).
      by rewrite Heq.
    + intros Hs. rewrite sanitizeInput_one_pass. by apply flat_map_escape_clean.
  - rewrite sanitizeInput_one_pass. apply flat_map_escape_clean.
    apply sanitizeInput_no_special.
  - rewrite !sanitizeInput_one_pass. apply flat_map_app.
  - rewrite sanitizeInput_one_pass.
    assert (Hesc : ∀ x, 1 ≤ length (escape x) ≤ 6).
    { intros x. unfold escape.
      repeat (case_match; [simpl; lia|]). simpl. lia. }
    induction s as [|x s IH]; simpl; [lia|].
    rewrite length_app. specialize (Hesc x). lia.
  - rewrite sanitizeInput_one_pass.
    assert (Hesc : ∀ x, 1 ≤ length (escape x) ≤ 6).
    { intros x. unfold escape.
      repeat (case_match; [simpl; lia|]). simpl. lia. }
    induction s as [|x s IH]; simpl; [lia|].
    rewrite length_app. specialize (Hesc x). lia.
Qed.

End SanitizeFacts.

(** ** The registry: adding, counting, leaving *)

Section MoreRegistryFacts.
Import Validators MatchingService.
Implicit Types (st : MatchingService.t) (socketId id : jsstring).

(** X5.  [isValidRoomId] accepts exactly the strings with something left
    after trimming; every room id [createRoom] makes is one, and so is the
    id of the text chat. *)
Theorem isValidRoomId_accepts_created_ids (v : JsVal) (a b : jsstring) st :
  (isValidRoomId v = true ↔ ∃ s, v = JStr s ∧ 0 < length (trim s))
  ∧ isValidRoomId (JStr (createRoom a b st).2) = true
  ∧ isValidRoomId (JStr ROOM_TYPES.TEXT_CHAT) = true.
Proof.
  split_and!.
  - destruct v as [| | | |s| |]; simpl;
      try (split; [done|by intros (? & ? & ?)]).
    rewrite andb_true_iff, Nat.ltb_lt, negb_true_iff, bool_decide_eq_false.
    split.
    + intros [_ Hlen]. by exists s.
    + intros (s' & [= <-] & Hlen). split; [|done].
      intros ->. cbn in Hlen. lia.
  - unfold isValidRoomId. cbn [createRoom snd]. apply andb_true_iff.
    split; [done|]. apply Nat.ltb_lt. by apply trim_cons_nonempty.
  - by vm_compute.
Qed.

Lemma JsMap_length_alter {K V} `{EqDecision K} (f : V → V) (k : K) (m : JsMap.t K V) :
  length (JsMap.alter f k m) = length m.
Proof.
  induction m as [|[k0 v0] m IH]; simpl; [done|].
  case_decide; simpl; [done|]. by rewrite IH.
Qed.

Lemma JsMap_size_set {K V} `{EqDecision K} (k : K) (v : V) (m : JsMap.t K V) :
  JsMap.size (JsMap.set k v m) =
    if JsMap.get k m is Some _ then JsMap.size m else S (JsMap.size m).
Proof.
  unfold JsMap.size, JsMap.set. destruct (JsMap.get k m).
  - apply JsMap_length_alter.
  - rewrite length_app. simpl. lia.
Qed.

Lemma JsMap_delete_snoc {K V} `{EqDecision K} (k : K) (v : V) (m : JsMap.t K V) :
  JsMap.get k m = None → JsMap.delete k (m ++ [(k, v)]) = m.
Proof.
  intros Hget. unfold JsMap.delete. rewrite List.filter_app. simpl.
  rewrite bool_decide_eq_true_2 by done. simpl. rewrite app_nil_r.
  by apply JsMap_delete_absent.
Qed.

Lemma JsMap_size_delete {K V} `{EqDecision K} (k : K) (m : JsMap.t K V) :
  JsMap.wf m →
  JsMap.size (JsMap.delete k m) =
    if JsMap.get k m is Some _ then JsMap.size m - 1 else JsMap.size m.
Proof.
  unfold JsMap.wf, JsMap.keys, JsMap.size.
  induction m as [|[k0 v0] m IH]; [done|].
  intros [Hk0 Hm]%NoDup_cons. simpl.
  destruct (decide (k0 = k)) as [->|Hne].
  - rewrite bool_decide_eq_true_2 by done. simpl.
    rewrite JsMap_delete_absent; [lia|].
    by apply JsMap_get_None.
  - rewrite bool_decide_eq_false_2 by done. simpl.
    change (List.filter _ m) with (JsMap.delete k m).
    rewrite (IH Hm). destruct (JsMap.get k m) eqn:Hget; [|done].
    destruct m; [done|]. simpl. lia.
Qed.

(** X6.  [addUser] stores the entry it returns under the id and leaves every
    other entry and the text-chat set alone.  A new id makes the count grow
    by one; an id that is registered already has its entry written over
    where it stands, and the count stays.  Without user data the entry
    has no interests, no room and the name [User<rnd>]; a [roomId] in the
    user data wins over the [null] of the new entry. *)
Theorem addUser_registers socketId (userData : User.Updates) (rnd : nat) st :
  getUser socketId (addUser socketId userData rnd st).1
  = Some (addUser socketId userData rnd st).2
  ∧ (∀ other, other ≠ socketId →
       getUser other (addUser socketId userData rnd st).1 = getUser other st)
  ∧ getOnlineUserCount (addUser socketId userData rnd st).1
    = (if getUser socketId st is Some _ then getOnlineUserCount st
       else S (getOnlineUserCount st))
  ∧ textChatUsers (addUser socketId userData rnd st).1 = textChatUsers st
  ∧ (addUser socketId User.noUpdates rnd st).2
    = User.mk [] None (lit "User" ++ numToString rnd)
  ∧ User.roomId (addUser socketId userData rnd st).2
    = default None (User.upd_roomId userData).
Proof.
  unfold addUser, getUser, getOnlineUserCount. cbn [fst snd onlineUsers withUsers].
  split_and!.
  - rewrite JsMap_get_set. by rewrite decide_True.
  - intros other Hne. rewrite JsMap_get_set. by rewrite decide_False.
  - apply JsMap_size_set.
  - done.
  - done.
  - done.
Qed.

(** X7.  Registering an id that is neither registered nor in the text-chat
    set and removing it again gives back the state as it was, and
    [removeUser] returns the entry [addUser] made. *)
Theorem removeUser_undoes_addUser socketId (userData : User.Updates) (rnd : nat) st :
  getUser socketId st = None →
  socketId ∉ textChatUsers st →
  removeUser socketId (addUser socketId userData rnd st).1
  = (st, Some (addUser socketId userData rnd st).2).
Proof.
  unfold getUser. intros Hget Htext. unfold removeUser, addUser.
  cbn [fst snd onlineUsers withUsers textChatUsers].
  rewrite JsMap_get_set, decide_True by done.
  unfold JsMap.set. rewrite Hget. rewrite JsMap_delete_snoc by done.
  destruct st as [users text]. simpl in *. f_equal. f_equal.
  apply set_eq. intros x. rewrite elem_of_difference, elem_of_singleton.
  split; [tauto|]. intros Hx. split; [done|]. by intros ->.
Qed.

Lemma removeUser_undoes_addUser_witness :
  (getUser Scenario.alice Scenario.strangers = None
   ∧ Scenario.alice ∉ textChatUsers Scenario.strangers)
  ∧ removeUser Scenario.alice
      (addUser Scenario.alice User.noUpdates 7 Scenario.strangers).1
    = (Scenario.strangers, Some (User.mk [] None (lit "User7"))).
Proof.
  split; [split; [reflexivity|apply not_elem_of_empty]|].
  apply (removeUser_undoes_addUser Scenario.alice User.noUpdates 7
           Scenario.strangers); [reflexivity|apply not_elem_of_empty].
Defined.

(** X8.  In a registry that is a map, [removeUser] makes the count of online
    users one less when the id is registered and leaves it when it is not. *)
Theorem removeUser_count socketId st :
  JsMap.wf (onlineUsers st) →
  getOnlineUserCount (removeUser socketId st).1
  = (if getUser socketId st is Some _ then getOnlineUserCount st - 1
     else getOnlineUserCount st).
Proof.
  intros Hwf. unfold getOnlineUserCount, removeUser, getUser.
  cbn [fst onlineUsers]. by apply JsMap_size_delete.
Qed.

Lemma removeUser_count_witness :
  JsMap.wf (onlineUsers Scenario.strangers)
  ∧ getOnlineUserCount (removeUser (lit "Y") Scenario.strangers).1 = 2
  ∧ getOnlineUserCount (removeUser Scenario.alice Scenario.strangers).1 = 3.
Proof.
  assert (Hwf : JsMap.wf (onlineUsers Scenario.strangers)).
  { apply (bool_decide_unpack _). by vm_compute. }
  split; [done|]. split.
  - by rewrite (removeUser_count (lit "Y") Scenario.strangers Hwf).
  - by rewrite (removeUser_count Scenario.alice Scenario.strangers Hwf).
Defined.

End MoreRegistryFacts.

(** ** Rooms and matching *)

Section MoreMatchingFacts.
Import MatchingService.
Implicit Types (st : MatchingService.t) (socketId id : jsstring).

Lemma leaveRoom_state socketId st :
  (leaveRoom socketId st).1 =
    match getUser socketId st with
    | Some user =>
        if truthyStr (User.roomId user) then assignRoom socketId None st else st
    | None => st
    end.
Proof.
  unfold leaveRoom, getUser.
  destruct (JsMap.get socketId (onlineUsers st)) as [user|]; [|done].
  by destruct (truthyStr (User.roomId user)).
Qed.

(** X9.  [leaveRoom] returns the user's room id exactly when the user is
    registered with a room (otherwise [null]); afterwards the user has no
    room and its interests and name as before, every other entry and the
    order are as before, and a second call returns [null] and changes
    nothing.  Right after [createRoom a b], [leaveRoom a] returns the id of
    the new room when [a] is registered. *)
Theorem leaveRoom_clears_once socketId st (a b : jsstring) :
  (∀ r, (leaveRoom socketId st).2 = Some r ↔
        ∃ user, getUser socketId st = Some user
                ∧ User.roomId user = Some r ∧ r ≠ [])
  ∧ (∀ user, getUser socketId st = Some user →
       ∃ user', getUser socketId (leaveRoom socketId st).1 = Some user'
                ∧ User.idle user' = true
                ∧ User.interests user' = User.interests user
                ∧ User.username user' = User.username user)
  ∧ (∀ other, other ≠ socketId →
       getUser other (leaveRoom socketId st).1 = getUser other st)
  ∧ JsMap.keys (onlineUsers (leaveRoom socketId st).1) = JsMap.keys (onlineUsers st)
  ∧ leaveRoom socketId (leaveRoom socketId st).1 = ((leaveRoom socketId st).1, None)
  ∧ (is_Some (getUser a st) →
     (leaveRoom a (createRoom a b st).1).2
     = Some (lit "chat-" ++ a ++ lit "-" ++ b)).
Proof.
  split_and!.
  - intros r. unfold leaveRoom, getUser.
    destruct (JsMap.get socketId (onlineUsers st)) as [user|]; simpl.
    + unfold truthyStr. destruct (User.roomId user) as [r'|] eqn:Hr; simpl.
      * case_bool_decide as Hempty; simpl.
        -- split; [done|]. intros (u & [= <-] & Hu & Hne). congruence.
        -- split.
           ++ intros [= <-]. by exists user.
           ++ intros (u & [= <-] & Hu & _). congruence.
      * split; [done|]. intros (u & [= <-] & Hu & _). congruence.
    + split; [done|]. by intros (u & ? & _).
  - intros user Huser. rewrite leaveRoom_state, Huser.
    destruct (truthyStr (User.roomId user)) eqn:Htruthy.
    + rewrite getUser_assignRoom, decide_True by done. rewrite Huser.
      by eexists.
    + exists user. split_and!; try done. unfold User.idle. by rewrite Htruthy.
  - intros other Hne. rewrite leaveRoom_state.
    destruct (getUser socketId st) as [user|]; [|done].
    destruct (truthyStr (User.roomId user)); [|done].
    rewrite getUser_assignRoom. by rewrite decide_False.
  - rewrite leaveRoom_state.
    destruct (getUser socketId st) as [user|]; [|done].
    destruct (truthyStr (User.roomId user)); [|done].
    apply keys_assignRoom.
  - rewrite leaveRoom_state.
    destruct (getUser socketId st) as [user|] eqn:Huser.
    + destruct (truthyStr (User.roomId user)) eqn:Htruthy.
      * unfold leaveRoom at 1.
        change (JsMap.get socketId (onlineUsers ?s)) with (getUser socketId s).
        rewrite getUser_assignRoom, decide_True by done. by rewrite Huser.
      * unfold leaveRoom. unfold getUser in Huser. by rewrite Huser, Htruthy.
    + unfold leaveRoom. unfold getUser in Huser. by rewrite Huser.
  - intros [user Huser]. unfold leaveRoom.
    change (JsMap.get a (onlineUsers ?s)) with (getUser a s).
    rewrite getUser_createRoom, decide_True by (by left). by rewrite Huser.
Qed.

(** X10.  In a registry that is a map, the two users [createRoom] has put in
    a room are out of the matching: whoever asks, with whatever interests,
    [findMatchingUser] returns neither of them. *)
Theorem createRoom_takes_pair_out_of_matching
    (a b : jsstring) st socketId (interests : list jsstring) :
  JsMap.wf (onlineUsers st) →
  findMatchingUser socketId interests (createRoom a b st).1 ≠ Some a
  ∧ findMatchingUser socketId interests (createRoom a b st).1 ≠ Some b.
Proof.
  intros Hwf.
  assert (Hout : ∀ id, id = a ∨ id = b →
            findMatchingUser socketId interests (createRoom a b st).1 ≠ Some id).
  { intros id Hid (_ & user & Hin & Hidle)%findMatchingUser_Some_entry.
    apply JsMap_elem_get in Hin.
    2:{ unfold createRoom. cbn [fst].
        unfold JsMap.wf. by rewrite !keys_assignRoom. }
    change (JsMap.get id (onlineUsers ?s)) with (getUser id s) in Hin.
    rewrite getUser_createRoom, decide_True in Hin by done.
    destruct (getUser id st); [|done]. injection Hin as <-. done. }
  split; apply Hout; [by left|by right].
Qed.

Lemma createRoom_takes_pair_out_of_matching_witness :
  JsMap.wf (onlineUsers Scenario.strangers)
  ∧ findMatchingUser (lit "Z") [lit "music"] Scenario.strangers = Some (lit "X")
  ∧ findMatchingUser (lit "Z") [lit "music"]
      (createRoom (lit "X") (lit "Y") Scenario.strangers).1 ≠ Some (lit "X")
  ∧ findMatchingUser (lit "Z") [lit "music"]
      (createRoom (lit "X") (lit "Y") Scenario.strangers).1 ≠ Some (lit "Y").
Proof.
  assert (Hwf : JsMap.wf (onlineUsers Scenario.strangers)).
  { apply (bool_decide_unpack _). by vm_compute. }
  split; [done|]. split; [by vm_compute|].
  apply (createRoom_takes_pair_out_of_matching (lit "X") (lit "Y")
           Scenario.strangers (lit "Z") [lit "music"] Hwf).
Defined.

Lemma find_split {A} (f : A → bool) (l : list A) (x : A) :
  List.find f l = Some x →
  ∃ before after, l = before ++ x :: after
                  ∧ f x = true ∧ ∀ y, y ∈ before → f y = false.
Proof.
  induction l as [|y l IH]; [done|]. simpl.
  destruct (f y) eqn:Hy.
  - intros [= ->]. exists [], l. split_and!; [done|done|].
    by intros ? ?%elem_of_nil.
  - intros (before & after & -> & Hx & Hbefore)%IH.
    exists (y :: before), after. split_and!; [done|done|].
    intros z [->|Hz]%elem_of_cons; [done|by apply Hbefore].
Qed.

(** X11.  [findMatchingUser] is first fit, in the order of the registry.  The
    user it returns stands at some place in the registry; either that user
    passes the test of the interest loop and nobody before it does, or
    nobody in the whole registry passes that test, the user passes the test
    of the second loop (another id, no room) and nobody before it does. *)
Theorem findMatchingUser_first_fit socketId (interests : list jsstring) st id :
  findMatchingUser socketId interests st = Some id →
  ∃ before user after,
    onlineUsers st = before ++ (id, user) :: after
    ∧ ((sharesInterest socketId interests (id, user) = true
        ∧ ∀ e, e ∈ before → sharesInterest socketId interests e = false)
       ∨ ((∀ e, e ∈ onlineUsers st → sharesInterest socketId interests e = false)
          ∧ isWaiting socketId (id, user) = true
          ∧ ∀ e, e ∈ before → isWaiting socketId e = false)).
Proof.
  unfold findMatchingUser, firstPass, secondPass.
  destruct (List.find (sharesInterest socketId interests) (onlineUsers st))
    as [[id1 user1]|] eqn:Hfirst; simpl.
  - intros [= ->].
    apply find_split in Hfirst as (before & after & Heq & Hf & Hbefore).
    exists before, user1, after. split; [done|]. by left.
  - destruct (List.find (isWaiting socketId) (onlineUsers st))
      as [[id2 user2]|] eqn:Hsecond; simpl; [|done].
    intros [= ->].
    apply find_split in Hsecond as (before & after & Heq & Hf & Hbefore).
    exists before, user2, after. split; [done|]. right. split_and!; [|done|done].
    intros e He. eapply find_none; [done|]. by apply list_elem_of_In.
Qed.

Lemma findMatchingUser_first_fit_witness :
  findMatchingUser Scenario.alice [lit "music"] Scenario.waiting = Some Scenario.bob
  ∧ ∃ before user after,
      onlineUsers Scenario.waiting = before ++ (Scenario.bob, user) :: after
      ∧ ((sharesInterest Scenario.alice [lit "music"] (Scenario.bob, user) = true
          ∧ ∀ e, e ∈ before → sharesInterest Scenario.alice [lit "music"] e = false)
         ∨ ((∀ e, e ∈ onlineUsers Scenario.waiting →
                  sharesInterest Scenario.alice [lit "music"] e = false)
            ∧ isWaiting Scenario.alice (Scenario.bob, user) = true
            ∧ ∀ e, e ∈ before → isWaiting Scenario.alice e = false)).
Proof.
  split; [by vm_compute|].
  apply (findMatchingUser_first_fit Scenario.alice [lit "music"] Scenario.waiting
           Scenario.bob).
  by vm_compute.
Defined.

(** X12.  Interests come first: when somebody in the registry passes the test
    of the interest loop (another id, no room, an interest in common with
    the requester), the user [findMatchingUser] returns shares an interest
    with the requester. *)
Theorem findMatchingUser_prefers_common_interest
    socketId (interests : list jsstring) st (e : jsstring * User.t) :
  e ∈ onlineUsers st →
  sharesInterest socketId interests e = true →
  ∃ id user i,
    findMatchingUser socketId interests st = Some id
    ∧ (id, user) ∈ onlineUsers st
    ∧ User.idle user = true
    ∧ i ∈ User.interests user ∧ i ∈ interests.
Proof.
  intros Hin He. unfold findMatchingUser.
  destruct (firstPass socketId interests st) as [id|] eqn:Hfirst.
  - apply find_fst_Some in Hfirst as (user & Huser & Hf).
    apply sharesInterest_spec in Hf as (_ & Hidle & i & Hi1 & Hi2).
    by exists id, user, i.
  - unfold firstPass in Hfirst. rewrite find_fst_None in Hfirst.
    rewrite (Hfirst e Hin) in He. done.
Qed.

Lemma findMatchingUser_prefers_common_interest_witness :
  ((Scenario.bob, User.mk [lit "music"; lit "art"] None (lit "User42"))
     ∈ onlineUsers Scenario.waiting
   ∧ sharesInterest Scenario.alice [lit "art"]
       (Scenario.bob, User.mk [lit "music"; lit "art"] None (lit "User42")) = true)
  ∧ ∃ id user i,
      findMatchingUser Scenario.alice [lit "art"] Scenario.waiting = Some id
      ∧ (id, user) ∈ onlineUsers Scenario.waiting
      ∧ User.idle user = true
      ∧ i ∈ User.interests user ∧ i ∈ [lit "art"].
Proof.
  assert (Hin : (Scenario.bob, User.mk [lit "music"; lit "art"] None (lit "User42"))
                  ∈ onlineUsers Scenario.waiting).
  { apply list_elem_of_In. simpl. tauto. }
  split; [split; [done|reflexivity]|].
  apply (findMatchingUser_prefers_common_interest Scenario.alice [lit "art"]
           Scenario.waiting _ Hin).
  reflexivity.
Defined.

(** X13.  Who can be found can find: when a registered user without a room
    asks and gets [b], then [b], asking with whatever interests, gets
    somebody too. *)
Theorem findMatchingUser_eligibility_symmetric
    (a b : jsstring) (interests : list jsstring) st (ua : User.t)
    (interests' : list jsstring) :
  getUser a st = Some ua →
  User.idle ua = true →
  findMatchingUser a interests st = Some b →
  is_Some (findMatchingUser b interests' st).
Proof.
  intros Hua Hidle (Hne & _)%findMatchingUser_Some_entry.
  destruct (findMatchingUser b interests' st) as [id|] eqn:Hfind; [done|].
  exfalso. unfold findMatchingUser in Hfind.
  destruct (firstPass b interests' st); [done|].
  unfold secondPass in Hfind. rewrite find_fst_None in Hfind.
  specialize (Hfind (a, ua) (JsMap_get_Some_elem _ _ _ Hua)).
  apply not_true_iff_false in Hfind. apply Hfind.
  apply isWaiting_spec. split; [simpl; congruence|done].
Qed.

Lemma findMatchingUser_eligibility_symmetric_witness :
  (getUser (lit "X") Scenario.strangers = Some (User.mk [lit "music"] None (lit "User1"))
   ∧ findMatchingUser (lit "X") [lit "music"] Scenario.strangers = Some (lit "Y"))
  ∧ is_Some (findMatchingUser (lit "Y") [lit "art"] Scenario.strangers).
Proof.
  split; [by vm_compute|].
  apply (findMatchingUser_eligibility_symmetric (lit "X") (lit "Y") [lit "music"]
           Scenario.strangers (User.mk [lit "music"] None (lit "User1")) [lit "art"]);
    reflexivity.
Defined.

End MoreMatchingFacts.

(** ** The server as a state machine *)

Section ServerFacts.
Import Validators Transport ChatSocket MatchingService.
Implicit Types (srv : Server) (sid : jsstring) (st : MatchingService.t).

Lemma JsMap_get_is_Some {K V} `{EqDecision K} (k : K) (m : JsMap.t K V) :
  is_Some (JsMap.get k m) ↔ k ∈ JsMap.keys m.
Proof.
  destruct (JsMap.get k m) eqn:Hget.
  - split; [|by eauto]. intros _.
    destruct (decide (k ∈ JsMap.keys m)) as [|Hn]; [done|].
    apply JsMap_get_None in Hn. congruence.
  - apply JsMap_get_None in Hget. split; [by intros [? ?]|done].
Qed.

Lemma JsMap_keys_set {K V} `{EqDecision K} (k : K) (v : V) (m : JsMap.t K V) :
  JsMap.keys (JsMap.set k v m) =
    if decide (k ∈ JsMap.keys m) then JsMap.keys m else JsMap.keys m ++ [k].
Proof.
  unfold JsMap.set. destruct (JsMap.get k m) eqn:Hget.
  - rewrite decide_True by (apply JsMap_get_is_Some; by rewrite Hget).
    apply JsMap_keys_alter.
  - rewrite decide_False by by apply JsMap_get_None.
    unfold JsMap.keys. by rewrite fmap_app.
Qed.

Lemma JsMap_keys_delete {K V} `{EqDecision K} (k : K) (m : JsMap.t K V) :
  JsMap.keys (JsMap.delete k m)
  = List.filter (λ x, negb (bool_decide (x = k))) (JsMap.keys m).
Proof.
  unfold JsMap.keys, JsMap.delete. induction m as [|[k0 v0] m IH]; [done|].
  simpl. destruct (bool_decide (k0 = k)); simpl; [done|]. csimpl. by f_equal.
Qed.

Lemma keys_leaveRoom sid st :
  JsMap.keys (onlineUsers (leaveRoom sid st).1) = JsMap.keys (onlineUsers st).
Proof.
  rewrite leaveRoom_state. destruct (getUser sid st) as [user|]; [|done].
  destruct (truthyStr (User.roomId user)); [|done]. apply keys_assignRoom.
Qed.

Lemma keys_createRoom (a b : jsstring) st :
  JsMap.keys (onlineUsers (createRoom a b st).1) = JsMap.keys (onlineUsers st).
Proof. unfold createRoom. cbn [fst]. by rewrite !keys_assignRoom. Qed.

Lemma keys_matchOrWait sid (interests : list jsstring) st ss :
  JsMap.keys (onlineUsers (service (matchOrWait sid interests st ss).1))
  = JsMap.keys (onlineUsers st)
  ∧ JsMap.keys (sockets (matchOrWait sid interests st ss).1) = JsMap.keys ss
  ∧ textChatUsers (service (matchOrWait sid interests st ss).1) = textChatUsers st.
Proof.
  unfold matchOrWait.
  assert (Hwait :
    JsMap.keys (onlineUsers (service (wait sid st ss).1)) = JsMap.keys (onlineUsers st)
    ∧ JsMap.keys (sockets (wait sid st ss).1) = JsMap.keys ss
    ∧ textChatUsers (service (wait sid st ss).1) = textChatUsers st).
  { unfold wait. name_state. cbn [fst service sockets].
    by rewrite keys_updateUser, textChatUsers_updateUser. }
  destruct (findMatchingUser sid interests st) as [matchId|]; [|done].
  destruct (truthy (JStr matchId)); [|done].
  name_state. cbn [fst service sockets]. rewrite !keys_assignRoom.
  unfold join. by rewrite !JsMap_keys_alter.
Qed.

(** What a step does to the keys of the two maps and to the text-chat set. *)
Lemma step_keys sid (ev : Inbound) srv :
  match ev with
  | Connection _ =>
      JsMap.keys (onlineUsers (service (step sid ev srv).1))
      = (if decide (sid ∈ JsMap.keys (onlineUsers (service srv)))
         then JsMap.keys (onlineUsers (service srv))
         else JsMap.keys (onlineUsers (service srv)) ++ [sid])
      ∧ JsMap.keys (sockets (step sid ev srv).1)
        = (if decide (sid ∈ JsMap.keys (sockets srv))
           then JsMap.keys (sockets srv)
           else JsMap.keys (sockets srv) ++ [sid])
      ∧ textChatUsers (service (step sid ev srv).1) = textChatUsers (service srv)
  | JoinRoom _ =>
      JsMap.keys (onlineUsers (service (step sid ev srv).1))
      = JsMap.keys (onlineUsers (service srv))
      ∧ JsMap.keys (sockets (step sid ev srv).1) = JsMap.keys (sockets srv)
      ∧ (textChatUsers (service (step sid ev srv).1) = textChatUsers (service srv)
         ∨ (is_Some (getUser sid (service srv))
            ∧ textChatUsers (service (step sid ev srv).1)
              = {[sid]} ∪ textChatUsers (service srv)))
  | LeaveRoom _ =>
      JsMap.keys (onlineUsers (service (step sid ev srv).1))
      = JsMap.keys (onlineUsers (service srv))
      ∧ JsMap.keys (sockets (step sid ev srv).1) = JsMap.keys (sockets srv)
      ∧ textChatUsers (service (step sid ev srv).1) = textChatUsers (service srv)
  | Disconnect =>
      JsMap.keys (onlineUsers (service (step sid ev srv).1))
      = List.filter (λ x, negb (bool_decide (x = sid)))
          (JsMap.keys (onlineUsers (service srv)))
      ∧ JsMap.keys (sockets (step sid ev srv).1)
        = List.filter (λ x, negb (bool_decide (x = sid))) (JsMap.keys (sockets srv))
      ∧ textChatUsers (service (step sid ev srv).1)
        = textChatUsers (service srv) ∖ {[sid]}
  end.
Proof.
  destruct ev as [rnd|data|data|]; unfold step.
  - unfold onConnection, addUser, connect.
    cbn [fst service sockets onlineUsers withUsers textChatUsers].
    by rewrite !JsMap_keys_set.
  - unfold onJoinRoom.
    destruct (getUser sid (service srv)) as [user|] eqn:Huser; [|by auto].
    destruct (validateInterests (requestedInterests data)) as [validated|];
      [|by auto].
    name_state.
    destruct (isTheString (requestedRoomId data) ROOM_TYPES.TEXT_CHAT).
    + name_state. cbn [fst service sockets addToTextChat onlineUsers textChatUsers].
      rewrite !keys_updateUser, !textChatUsers_updateUser.
      unfold join. rewrite JsMap_keys_alter. split_and!; [done|done|].
      right. by eauto.
    + destruct (keys_matchOrWait sid validated
                  (updateUser sid (User.mkUpdates (Some validated) None None)
                     (service srv)).1 (sockets srv)) as (-> & -> & ->).
      rewrite keys_updateUser, textChatUsers_updateUser. by auto.
  - unfold onLeaveRoom.
    destruct (getUser sid (service srv)) as [user|]; [|done].
    assert (Hst := keys_leaveRoom sid (service srv)).
    assert (Htext : textChatUsers (leaveRoom sid (service srv)).1
                    = textChatUsers (service srv)).
    { rewrite leaveRoom_state. destruct (getUser sid (service srv)) as [u|]; [|done].
      by destruct (truthyStr (User.roomId u)). }
    destruct (leaveRoom sid (service srv)) as [st1 r1]. simpl in Hst, Htext.
    destruct (truthy _ && negb _).
    + cbn [fst service sockets]. split_and!; [done| |done].
      unfold leaveVal, leave. destruct (getProp _ _); try done.
      apply JsMap_keys_alter.
    + destruct (isTheString _ _); cbn [fst service sockets];
        (split_and!; [done| |done]); [|done].
      unfold leave. apply JsMap_keys_alter.
  - unfold onDisconnect, removeUser, disconnect.
    cbn [fst service sockets onlineUsers textChatUsers].
    by rewrite !JsMap_keys_delete.
Qed.

Lemma keys_run (evs : list (jsstring * Inbound)) srv :
  JsMap.keys (onlineUsers (service srv)) = JsMap.keys (sockets srv) →
  JsMap.keys (onlineUsers (service (run evs srv).1))
  = JsMap.keys (sockets (run evs srv).1).
Proof.
  revert srv. induction evs as [|[s ev] evs IH]; intros srv Hsrv; [done|].
  simpl. destruct (step s ev srv) as [srv1 out1] eqn:Hstep.
  destruct (run evs srv1) as [srv2 out2] eqn:Hrun. simpl.
  replace srv2 with (run evs srv1).1 by by rewrite Hrun.
  apply IH. replace srv1 with (step s ev srv).1 by by rewrite Hstep.
  pose proof (step_keys s ev srv) as Hk.
  destruct ev; destruct Hk as (-> & -> & _); by rewrite Hsrv.
Qed.

(** X14.  In every state the server reaches, the registered users are the
    connected sockets, in the same order; so the count of online users is
    the number of connected sockets, and an id has an entry exactly when
    its socket is connected. *)
Theorem registered_iff_connected (evs : list (jsstring * Inbound)) (sid : jsstring) :
  JsMap.keys (onlineUsers (service (run evs ChatSocket.init).1))
  = JsMap.keys (sockets (run evs ChatSocket.init).1)
  ∧ getOnlineUserCount (service (run evs ChatSocket.init).1)
    = JsMap.size (sockets (run evs ChatSocket.init).1)
  ∧ (is_Some (getUser sid (service (run evs ChatSocket.init).1))
     ↔ is_Some (JsMap.get sid (sockets (run evs ChatSocket.init).1))).
Proof.
  pose proof (keys_run evs ChatSocket.init eq_refl) as Hkeys.
  split_and!.
  - done.
  - unfold getOnlineUserCount, JsMap.size.
    rewrite <- (length_fmap fst (onlineUsers _)), <- (length_fmap fst (sockets _)).
    unfold JsMap.keys in Hkeys. by rewrite Hkeys.
  - unfold getUser. rewrite !JsMap_get_is_Some. by rewrite Hkeys.
Qed.

(** X15.  In every state the server reaches, a user in the text-chat set is
    registered: the set never outlives a connection. *)
Theorem text_chat_users_are_registered (evs : list (jsstring * Inbound)) (sid : jsstring) :
  sid ∈ textChatUsers (service (run evs ChatSocket.init).1) →
  is_Some (getUser sid (service (run evs ChatSocket.init).1)).
Proof.
  assert (Hinv : ∀ srv,
            (∀ x, x ∈ textChatUsers (service srv) →
                  x ∈ JsMap.keys (onlineUsers (service srv))) →
            ∀ x, x ∈ textChatUsers (service (run evs srv).1) →
                 x ∈ JsMap.keys (onlineUsers (service (run evs srv).1))).
  { induction evs as [|[s ev] evs IH]; intros srv Hsrv; [done|].
    simpl. destruct (step s ev srv) as [srv1 out1] eqn:Hstep.
    destruct (run evs srv1) as [srv2 out2] eqn:Hrun. simpl.
    replace srv2 with (run evs srv1).1 by by rewrite Hrun.
    apply IH. replace srv1 with (step s ev srv).1 by by rewrite Hstep.
    pose proof (step_keys s ev srv) as Hk. intros x.
    destruct ev as [rnd|data|data|].
    - destruct Hk as (-> & _ & ->). intros Hx%Hsrv.
      case_decide; [done|]. apply elem_of_app. by left.
    - destruct Hk as (-> & _ & [-> | [Huser ->]]); [by apply Hsrv|].
      intros [->%elem_of_singleton|Hx]%elem_of_union; [|by apply Hsrv].
      by apply JsMap_get_is_Some.
    - destruct Hk as (-> & _ & ->). by apply Hsrv.
    - destruct Hk as (-> & _ & ->).
      intros [Hx Hne]%elem_of_difference.
      apply list_elem_of_In, filter_In. split.
      + apply list_elem_of_In. by apply Hsrv.
      + apply negb_true_iff, bool_decide_eq_false.
        intros ->. apply Hne. by apply elem_of_singleton. }
  intros Hsid. apply JsMap_get_is_Some.
  apply (Hinv ChatSocket.init); [|done]. by intros x ?%not_elem_of_empty.
Qed.

Lemma text_chat_users_are_registered_witness :
  Scenario.alice ∈ textChatUsers (service Scenario.inTextChat)
  ∧ is_Some (getUser Scenario.alice (service Scenario.inTextChat)).
Proof.
  assert (Hin : Scenario.alice ∈ textChatUsers (service Scenario.inTextChat)).
  { apply (bool_decide_unpack _). by vm_compute. }
  split; [done|].
  apply (text_chat_users_are_registered Scenario.textChatEvents Scenario.alice Hin).
Defined.

Lemma step_size sid (ev : Inbound) srv :
  JsMap.keys (onlineUsers (service srv)) = JsMap.keys (sockets srv) →
  getOnlineUserCount (service (step sid ev srv).1)
  = JsMap.size (sockets (step sid ev srv).1).
Proof.
  intros Hsrv. unfold getOnlineUserCount, JsMap.size.
  rewrite <- (length_fmap fst (onlineUsers _)), <- (length_fmap fst (sockets _)).
  change (length (JsMap.keys (onlineUsers (service (step sid ev srv).1)))
          = length (JsMap.keys (sockets (step sid ev srv).1))).
  pose proof (step_keys sid ev srv) as Hk.
  destruct ev; destruct Hk as (-> & -> & _); by rewrite Hsrv.
Qed.

(** X16.  In every state the server reaches, the [user-count] a connection
    or a disconnection sets off goes to every socket that is connected
    afterwards and carries the number of these sockets; a connection emits
    nothing else, and what a disconnection emits before it are [user-left]
    events. *)
Theorem user_count_is_number_of_sockets
    (evs : list (jsstring * Inbound)) (sid : jsstring) (rnd : nat) :
  (step sid (Connection rnd) (run evs ChatSocket.init).1).2
  = io_emit SOCKET_EVENTS.USER_COUNT
      (UserCount (JsMap.size
         (sockets (step sid (Connection rnd) (run evs ChatSocket.init).1).1)))
      (sockets (step sid (Connection rnd) (run evs ChatSocket.init).1).1)
  ∧ ∃ lefts,
      (step sid Disconnect (run evs ChatSocket.init).1).2
      = lefts
        ++ io_emit SOCKET_EVENTS.USER_COUNT
             (UserCount (JsMap.size
                (sockets (step sid Disconnect (run evs ChatSocket.init).1).1)))
             (sockets (step sid Disconnect (run evs ChatSocket.init).1).1)
      ∧ ∀ d, d ∈ lefts → event d = SOCKET_EVENTS.USER_LEFT.
Proof.
  pose proof (keys_run evs ChatSocket.init eq_refl) as Hkeys.
  set (srv := (run evs ChatSocket.init).1) in *. split.
  - rewrite <- (step_size sid (Connection rnd) srv Hkeys). reflexivity.
  - rewrite <- (step_size sid Disconnect srv Hkeys).
    unfold step, onDisconnect, removeUser. cbn [fst snd service sockets].
    eexists. split; [by rewrite app_assoc|].
    intros d [Hd|Hd]%elem_of_app.
    + destruct (getUser sid (service srv)) as [u|]; [|by apply elem_of_nil in Hd].
      destruct (User.roomId u) as [r|]; [|by apply elem_of_nil in Hd].
      destruct (truthyStr (Some r) && _); [|by apply elem_of_nil in Hd].
      unfold io_to_emit in Hd. by apply list_elem_of_fmap in Hd as (? & -> & _).
    + destruct (isInTextChat sid (service srv)); [|by apply elem_of_nil in Hd].
      unfold io_to_emit in Hd. by apply list_elem_of_fmap in Hd as (? & -> & _).
Qed.

Lemma members_keys (rooms : list jsstring) (ss : Sockets) (s : jsstring) :
  s ∈ members rooms ss → s ∈ JsMap.keys ss.
Proof.
  intros (rs & Hin & _)%elem_of_members. apply list_elem_of_fmap.
  by exists (s, rs).
Qed.

(** X17.  The server emits to connected sockets only: whatever an event of a
    connected socket (or the connection of a socket) makes the server emit
    goes to sockets that are connected after the event; this holds for
    every payload, also for a [leave-room] whose [roomId] is the empty
    array, which is sent to every other connected socket. *)
Theorem emits_only_to_connected_sockets sid (ev : Inbound) srv (d : Delivery) :
  sid ∈ JsMap.keys (sockets srv) ∨ (∃ rnd, ev = Connection rnd) →
  d ∈ (step sid ev srv).2 →
  recipient d ∈ JsMap.keys (sockets (step sid ev srv).1).
Proof.
  intros Hsid. destruct ev as [rnd|data|data|]; unfold step.
  - unfold onConnection, addUser. cbn [fst snd service sockets].
    unfold io_emit. by intros (s & -> & Hs)%list_elem_of_fmap.
  - destruct Hsid as [Hsid|[? ?]]; [|done]. unfold onJoinRoom.
    destruct (getUser sid (service srv)) as [user|];
      [|by intros ?%elem_of_nil].
    destruct (validateInterests (requestedInterests data)) as [validated|];
      [|by intros ?%elem_of_nil].
    name_state.
    destruct (isTheString (requestedRoomId data) ROOM_TYPES.TEXT_CHAT).
    + name_state. cbn [fst snd service sockets]. unfold socket_to_emit.
      intros (s & -> & Hs%list_elem_of_In%filter_In)%list_elem_of_fmap.
      destruct Hs as [Hs%list_elem_of_In _]. simpl. by eapply members_keys.
    + unfold matchOrWait.
      assert (Hwait : d ∈ (wait sid
                 (updateUser sid (User.mkUpdates (Some validated) None None)
                    (service srv)).1 (sockets srv)).2 →
               recipient d ∈ JsMap.keys (sockets (wait sid
                 (updateUser sid (User.mkUpdates (Some validated) None None)
                    (service srv)).1 (sockets srv)).1)).
      { unfold wait. name_state. by intros ?%elem_of_nil. }
      destruct (findMatchingUser sid validated _) as [matchId|]; [|done].
      destruct (truthy (JStr matchId)); [|done].
      name_state. cbn [fst snd service sockets].
      intros [Hd|Hd]%elem_of_app.
      * unfold io_to_emit in Hd.
        apply list_elem_of_fmap in Hd as (s & -> & Hs). simpl.
        by eapply members_keys.
      * apply list_elem_of_singleton in Hd as ->. simpl.
        unfold join. by rewrite !JsMap_keys_alter.
  - destruct Hsid as [Hsid|[? ?]]; [|done]. unfold onLeaveRoom.
    destruct (getUser sid (service srv)) as [user|];
      [|by intros ?%elem_of_nil].
    destruct (leaveRoom sid (service srv)) as [st1 r1].
    assert (Hto : ∀ rooms ev' data', d ∈ socket_to_emit sid rooms ev' data' (sockets srv) →
                  recipient d ∈ JsMap.keys (sockets srv)).
    { intros rooms ev' data'. unfold socket_to_emit.
      intros (s & -> & Hs%list_elem_of_In%filter_In)%list_elem_of_fmap.
      destruct Hs as [Hs%list_elem_of_In _]. simpl. by eapply members_keys. }
    assert (Hval : ∀ v ev' data',
                  d ∈ socket_to_emit_val sid v ev' data' (sockets srv) →
                  recipient d ∈ JsMap.keys (sockets srv)).
    { intros v ev' data'. unfold socket_to_emit_val.
      intros (s & -> & Hs%list_elem_of_In%filter_In)%list_elem_of_fmap.
      destruct Hs as [Hs%list_elem_of_In _]. simpl.
      unfold selected in Hs.
      destruct v as [| | | | |[|x l]|]; try done; by eapply members_keys. }
    destruct (truthy _ && negb _).
    + cbn [fst snd service sockets]. intros Hd%Hval.
      unfold leaveVal, leave. destruct (getProp _ _); try done.
      by rewrite JsMap_keys_alter.
    + destruct (isTheString _ _); cbn [fst snd service sockets].
      * intros Hd%Hto. unfold leave. by rewrite JsMap_keys_alter.
      * by intros ?%elem_of_nil.
  - unfold onDisconnect, removeUser. cbn [fst snd service sockets].
    assert (Hto : ∀ room ev' data', d ∈ io_to_emit room ev' data' (disconnect sid (sockets srv)) →
                  recipient d ∈ JsMap.keys (disconnect sid (sockets srv))).
    { intros room ev' data'. unfold io_to_emit.
      intros (s & -> & Hs)%list_elem_of_fmap. simpl. by eapply members_keys. }
    intros [Hd|[Hd|Hd]%elem_of_app]%elem_of_app.
    + destruct (getUser sid (service srv)) as [u|]; [|by apply elem_of_nil in Hd].
      destruct (User.roomId u) as [r|]; [|by apply elem_of_nil in Hd].
      destruct (truthyStr (Some r) && _); [|by apply elem_of_nil in Hd].
      by eapply Hto.
    + destruct (isInTextChat sid (service srv)); [|by apply elem_of_nil in Hd].
      by eapply Hto.
    + unfold io_emit in Hd. by apply list_elem_of_fmap in Hd as (s & -> & Hs).
Qed.

Lemma emits_only_to_connected_sockets_witness :
  (Scenario.alice ∈ JsMap.keys (sockets Scenario.lobby)
   ∧ mkDelivery Scenario.bob SOCKET_EVENTS.USER_LEFT
       (UserLeft (Some (JStr DISCONNECT_REASONS.DISCONNECTED)) (Some (lit "User7")))
       ∈ (step Scenario.alice (LeaveRoom Reach.leavesNoRoom) Scenario.lobby).2)
  ∧ Scenario.bob
      ∈ JsMap.keys
          (sockets (step Scenario.alice (LeaveRoom Reach.leavesNoRoom)
                      Scenario.lobby).1).
Proof.
  assert (Hsid : Scenario.alice ∈ JsMap.keys (sockets Scenario.lobby)).
  { apply list_elem_of_In. simpl. tauto. }
  assert (Hd : mkDelivery Scenario.bob SOCKET_EVENTS.USER_LEFT
                 (UserLeft (Some (JStr DISCONNECT_REASONS.DISCONNECTED))
                    (Some (lit "User7")))
                 ∈ (step Scenario.alice (LeaveRoom Reach.leavesNoRoom)
                      Scenario.lobby).2).
  { apply list_elem_of_In. vm_compute. tauto. }
  split; [done|].
  apply (emits_only_to_connected_sockets Scenario.alice
           (LeaveRoom Reach.leavesNoRoom) Scenario.lobby _ (or_introl Hsid) Hd).
Defined.

Lemma JsMap_elem_alter_key {V : Type} (f : V → V) (k : jsstring)
    (m : JsMap.t jsstring V) k' v' :
  (k', v') ∈ JsMap.alter f k m →
  (k', v') ∈ m ∨ (k' = k ∧ ∃ v0, (k, v0) ∈ m ∧ v' = f v0).
Proof.
  induction m as [|[k0 v0] m IH]; simpl; [by left|].
  case_decide as Hk.
  - subst k0. intros [[= -> ->]|Hin]%elem_of_cons.
    + right. split; [done|]. exists v0. split; [by left|done].
    + left. by right.
  - intros [[= -> ->]|Hin]%elem_of_cons.
    + left. by left.
    + destruct (IH Hin) as [?|(-> & v1 & ? & ?)].
      * left. by right.
      * right. split; [done|]. exists v1. split; [by right|done].
Qed.

Lemma JsMap_elem_alter_other {V : Type} (f : V → V) (k : jsstring)
    (m : JsMap.t jsstring V) k' v' :
  k' ≠ k → (k', v') ∈ JsMap.alter f k m ↔ (k', v') ∈ m.
Proof.
  intros Hne. induction m as [|[k0 v0] m IH]; simpl; [done|].
  case_decide as Hk.
  - subst k0. rewrite !elem_of_cons. split.
    + intros [[= ? ?]|?]; [done|by right].
    + intros [[= ? ?]|?]; [done|by right].
  - rewrite !elem_of_cons, IH. done.
Qed.

Lemma roomsOwned_assignRoom sid r st :
  Reach.ownRoom sid r → Reach.roomsOwned st →
  Reach.roomsOwned (assignRoom sid r st).
Proof.
  intros Hr Hst id user [Hin|(-> & u0 & _ & ->)]%JsMap_elem_alter_key;
    [by eapply Hst|done].
Qed.

Lemma roomsOwned_updateUser sid (updates : User.Updates) st :
  (∀ r, User.upd_roomId updates = Some r → Reach.ownRoom sid r) →
  Reach.roomsOwned st → Reach.roomsOwned (updateUser sid updates st).1.
Proof.
  intros Hupd Hst. unfold updateUser.
  destruct (JsMap.get sid (onlineUsers st)); [|done].
  intros id user [Hin|(-> & u0 & Hin & ->)]%JsMap_elem_alter_key;
    [by eapply Hst|].
  unfold User.assign. cbn [User.roomId].
  destruct (User.upd_roomId updates) as [r|]; simpl; [by apply Hupd|].
  by eapply Hst.
Qed.

Lemma roomsOwned_matchOrWait sid (interests : list jsstring) st ss :
  Reach.roomsOwned st →
  Reach.roomsOwned (service (matchOrWait sid interests st ss).1).
Proof.
  intros Hst. unfold matchOrWait.
  assert (Hwait : Reach.roomsOwned (service (wait sid st ss).1)).
  { unfold wait. name_state.
    apply roomsOwned_updateUser; [|done]. intros ? [= <-]. by left. }
  destruct (findMatchingUser sid interests st) as [matchId|]; [|done].
  destruct (truthy (JStr matchId)); [|done].
  name_state.
  cbn [fst service]. unfold createRoom. cbn [fst].
  apply roomsOwned_assignRoom.
  { right. right. exists sid. by right. }
  apply roomsOwned_assignRoom; [|done].
  right. right. exists matchId. by left.
Qed.

Lemma roomsOwned_step sid (ev : Inbound) srv :
  Reach.roomsOwned (service srv) →
  Reach.roomsOwned (service (step sid ev srv).1).
Proof.
  intros Hst. destruct ev as [rnd|data|data|]; unfold step.
  - unfold onConnection, addUser. cbn [fst service onlineUsers withUsers].
    intros id user [Hin | ->]%JsMap_elem_set; [by eapply Hst|by left].
  - unfold onJoinRoom.
    destruct (getUser sid (service srv)) as [user|]; [|done].
    destruct (validateInterests (requestedInterests data)) as [validated|];
      [|done].
    name_state.
    destruct (isTheString (requestedRoomId data) ROOM_TYPES.TEXT_CHAT).
    + name_state.
      cbn [fst service].
      change (Reach.roomsOwned (addToTextChat sid ?st))
        with (Reach.roomsOwned st).
      apply roomsOwned_updateUser; [intros ? [= <-]; right; by left|].
      by apply roomsOwned_updateUser.
    + apply roomsOwned_matchOrWait. by apply roomsOwned_updateUser.
  - unfold onLeaveRoom.
    destruct (getUser sid (service srv)) as [user|]; [|done].
    assert (Hleave : Reach.roomsOwned (leaveRoom sid (service srv)).1).
    { unfold leaveRoom.
      destruct (JsMap.get sid (onlineUsers (service srv))) as [u|]; [|done].
      destruct (truthyStr (User.roomId u)); [|done].
      apply roomsOwned_assignRoom; [by left|done]. }
    destruct (leaveRoom sid (service srv)) as [st1 r1]. simpl in Hleave.
    by repeat case_match.
  - unfold onDisconnect, removeUser. cbn [fst service onlineUsers].
    intros id user Hin%JsMap_elem_delete. by eapply Hst.
Qed.

(** X18.  In every state the server reaches, the [roomId] of a registered
    user is [null], the text-chat room, or a pair room whose id is made of
    that user's own socket id and one other id: the registry never holds a
    room id a client chose, nor the pair room of two other users. *)
Theorem room_ids_name_their_user
    (evs : list (jsstring * Inbound)) (id : jsstring) (user : User.t) :
  (id, user) ∈ onlineUsers (service (run evs ChatSocket.init).1) →
  Reach.ownRoom id (User.roomId user).
Proof.
  assert (Hrun : ∀ srv, Reach.roomsOwned (service srv) →
                 Reach.roomsOwned (service (run evs srv).1)).
  { induction evs as [|[s ev] evs IH]; intros srv Hsrv; [done|].
    simpl. destruct (step s ev srv) as [srv1 out1] eqn:Hstep.
    destruct (run evs srv1) as [srv2 out2] eqn:Hrun. simpl.
    replace srv2 with (run evs srv1).1 by by rewrite Hrun.
    apply IH. replace srv1 with (step s ev srv).1 by by rewrite Hstep.
    by apply roomsOwned_step. }
  apply Hrun. by intros ? ? ?%elem_of_nil.
Qed.

Lemma room_ids_name_their_user_witness :
  (Scenario.bob, Scenario.bobPaired)
    ∈ onlineUsers (service (run Reach.pairing ChatSocket.init).1)
  ∧ Reach.ownRoom Scenario.bob (User.roomId Scenario.bobPaired).
Proof.
  assert (Hin : (Scenario.bob, Scenario.bobPaired)
                  ∈ onlineUsers (service (run Reach.pairing ChatSocket.init).1)).
  { apply list_elem_of_In. vm_compute. tauto. }
  split; [done|].
  apply (room_ids_name_their_user Reach.pairing Scenario.bob
           Scenario.bobPaired Hin).
Defined.

(** X19.  Pairing is mutual.  When, in a state the server reaches, a
    registered user asks for a partner and [findMatchingUser] returns a
    (non-empty) id, then afterwards the two are different users, both have
    the new room [chat-<requester>-<match>] for [roomId], and both their
    sockets are in the socket room of that name. *)
Theorem reached_pairing_is_mutual
    (evs : list (jsstring * Inbound)) sid data (user : User.t)
    (validated : list jsstring) matchId :
  getUser sid (service (run evs ChatSocket.init).1) = Some user →
  validateInterests (requestedInterests data) = Valid validated →
  isTheString (requestedRoomId data) ROOM_TYPES.TEXT_CHAT = false →
  findMatchingUser sid validated
    (updateUser sid (User.mkUpdates (Some validated) None None)
       (service (run evs ChatSocket.init).1)).1
  = Some matchId →
  truthy (JStr matchId) = true →
  paired sid matchId (lit "chat-" ++ sid ++ lit "-" ++ matchId)
    (onJoinRoom sid data (run evs ChatSocket.init).1).1.
Proof.
  intros Huser Hvalid Hroom Hfind Htruthy.
  pose proof (keys_run evs ChatSocket.init eq_refl) as Hkeys.
  apply (onJoinRoom_paired _ _ _ user validated); try done.
  - apply JsMap_get_is_Some. rewrite <- Hkeys. apply JsMap_get_is_Some.
    unfold getUser in Huser. by rewrite Huser.
  - apply JsMap_get_is_Some. rewrite <- Hkeys.
    apply findMatchingUser_registered in Hfind as [_ Hreg].
    rewrite <- (keys_updateUser sid (User.mkUpdates (Some validated) None None)).
    by apply JsMap_get_is_Some.
Qed.

Lemma reached_pairing_is_mutual_witness :
  paired Scenario.alice Scenario.bob Scenario.pairRoom
    (onJoinRoom Scenario.alice Scenario.aliceJoins
       (run [(Scenario.alice, Connection 7); (Scenario.bob, Connection 42)]
          ChatSocket.init).1).1.
Proof.
  apply (reached_pairing_is_mutual
           [(Scenario.alice, Connection 7); (Scenario.bob, Connection 42)]
           Scenario.alice Scenario.aliceJoins Scenario.aliceInLobby
           [lit "music"] Scenario.bob);
    by vm_compute.
Defined.

End ServerFacts.

(** ** Waiting, the text chat *)

Section SessionFacts.
Import Validators MatchingService Transport ChatSocket.

(** X20.  In a state the server reaches (all socket ids non-empty, as
    socket.io makes them), a request for a partner with valid interests is
    answered with silence exactly when every other registered user has a
    room, and then the requester's own [roomId] is [null].  If some other
    registered user has [roomId: null], a pair is made: one of these users
    is the match, requester and match both get the room
    [chat-<requester>-<match>] and their sockets are in it, and the
    requester is sent [match-found] with [initiator: true] and the match's
    interests. *)
Theorem pairing_request_waits_iff_nobody_idle
    (evs : list (jsstring * Inbound)) sid data (user : User.t)
    (validated : list jsstring) :
  getUser sid (service (run evs ChatSocket.init).1) = Some user →
  validateInterests (requestedInterests data) = Valid validated →
  isTheString (requestedRoomId data) ROOM_TYPES.TEXT_CHAT = false →
  (∀ id, id ∈ JsMap.keys (sockets (run evs ChatSocket.init).1) → id ≠ []) →
  ((onJoinRoom sid data (run evs ChatSocket.init).1).2 = [] ↔
     ∀ id u, (id, u) ∈ onlineUsers (service (run evs ChatSocket.init).1) →
             id ≠ sid → User.roomId u ≠ None)
  ∧ ((onJoinRoom sid data (run evs ChatSocket.init).1).2 = [] →
     User.roomId
       <$> getUser sid
             (service (onJoinRoom sid data (run evs ChatSocket.init).1).1)
     = Some None)
  ∧ ((∃ id u, (id, u) ∈ onlineUsers (service (run evs ChatSocket.init).1)
              ∧ id ≠ sid ∧ User.roomId u = None) →
     ∃ matchId matchUser,
       (matchId, matchUser) ∈ onlineUsers (service (run evs ChatSocket.init).1)
       ∧ matchId ≠ sid
       ∧ User.roomId matchUser = None
       ∧ paired sid matchId (lit "chat-" ++ sid ++ lit "-" ++ matchId)
           (onJoinRoom sid data (run evs ChatSocket.init).1).1
       ∧ mkDelivery sid SOCKET_EVENTS.MATCH_FOUND
           (MatchFound (lit "chat-" ++ sid ++ lit "-" ++ matchId) true
              (User.interests matchUser))
           ∈ (onJoinRoom sid data (run evs ChatSocket.init).1).2).
Proof.
  intros Huser Hvalid Hroom Hids.
  pose proof (keys_run evs ChatSocket.init eq_refl) as Hkeys.
  pose proof (wf_run evs ChatSocket.init wf_init) as [Hwfu Hwfs].
  assert (Hnamed : roomIdsNamed (service (run evs ChatSocket.init).1)).
  { apply roomIdsNamed_run. by intros ? ? ?%elem_of_nil. }
  set (srv := (run evs ChatSocket.init).1) in *.
  set (svc1 := (updateUser sid (User.mkUpdates (Some validated) None None)
                  (service srv)).1).
  assert (Hother : ∀ id u, id ≠ sid →
            (id, u) ∈ onlineUsers svc1 ↔ (id, u) ∈ onlineUsers (service srv)).
  { intros id u Hne. unfold svc1, updateUser. unfold getUser in Huser.
    rewrite Huser. cbn [fst onlineUsers withUsers].
    by apply JsMap_elem_alter_other. }
  assert (Hout : ∀ l (d : Delivery), l ++ [d] ≠ []).
  { intros l d Habs. by apply app_eq_nil in Habs as [_ ?]. }
  destruct (findMatchingUser sid validated svc1) as [matchId|] eqn:Hfind.
  - pose proof Hfind as Hentry.
    apply findMatchingUser_Some_entry in Hentry as (Hne & u & Hin & Hidle).
    apply Hother in Hin; [|done].
    assert (Hnull : User.roomId u = None).
    { apply idle_unassigned; [by eapply Hnamed|done]. }
    assert (Htruthy : truthy (JStr matchId) = true).
    { simpl. rewrite bool_decide_eq_false_2; [done|]. apply Hids.
      rewrite <- Hkeys. apply list_elem_of_fmap. by exists (matchId, u). }
    assert (Hjoin : (onJoinRoom sid data srv).2 =
              io_to_emit matchId SOCKET_EVENTS.MATCH_FOUND
                (MatchFound (lit "chat-" ++ sid ++ lit "-" ++ matchId) false
                   validated)
                (join matchId (lit "chat-" ++ sid ++ lit "-" ++ matchId)
                   (join sid (lit "chat-" ++ sid ++ lit "-" ++ matchId)
                      (sockets srv)))
              ++ [mkDelivery sid SOCKET_EVENTS.MATCH_FOUND
                    (MatchFound (lit "chat-" ++ sid ++ lit "-" ++ matchId) true
                       (User.interests u))]).
    { rewrite (onJoinRoom_pairing _ _ _ user validated) by done.
      fold svc1. rewrite (matchOrWait_match _ _ _ _ _ Hfind Htruthy).
      cbn [snd]. unfold svc1. rewrite getUser_updateUser.
      rewrite decide_False by done.
      unfold getUser. by rewrite (JsMap_elem_get _ _ _ Hwfu Hin). }
    split_and!.
    + rewrite Hjoin. split.
      * intros Habs. by apply Hout in Habs.
      * intros Hall. by destruct (Hall matchId u Hin Hne).
    + rewrite Hjoin. intros Habs. by apply Hout in Habs.
    + intros _. exists matchId, u. split_and!; try done.
      * apply (onJoinRoom_paired _ _ _ user validated); try done.
        -- apply JsMap_get_is_Some. rewrite <- Hkeys. apply JsMap_get_is_Some.
           unfold getUser in Huser. by rewrite Huser.
        -- apply JsMap_get_is_Some. rewrite <- Hkeys.
           apply list_elem_of_fmap. by exists (matchId, u).
      * rewrite Hjoin. apply elem_of_app. right. by apply list_elem_of_singleton.
  - assert (Hbusy : ∀ id u, (id, u) ∈ onlineUsers (service srv) →
                      id ≠ sid → User.roomId u ≠ None).
    { intros id u Hin Hne Hr.
      unfold findMatchingUser in Hfind.
      destruct (firstPass sid validated svc1); [done|].
      unfold secondPass in Hfind.
      pose proof (proj1 (find_fst_None _ _) Hfind (id, u)) as Hw.
      specialize (Hw (proj2 (Hother id u Hne) Hin)).
      unfold isWaiting, User.idle in Hw. simpl in Hw.
      rewrite Hr, bool_decide_eq_true_2 in Hw by done. done. }
    assert (Hwait : onJoinRoom sid data srv = wait sid svc1 (sockets srv)).
    { rewrite (onJoinRoom_pairing _ _ _ user validated) by done.
      fold svc1. unfold matchOrWait. by rewrite Hfind. }
    rewrite Hwait. unfold wait. name_state. cbn [fst snd service].
    split_and!.
    + done.
    + intros _. unfold svc1. rewrite !getUser_updateUser.
      destruct (decide (sid = sid)); [|done]. by rewrite Huser.
    + intros (id & u & Hin & Hne & Hr). by destruct (Hbusy id u Hin Hne).
Qed.

(** [bob] and [carol] are in a room of their own when [alice] asks: she
    gets no answer.  In the lobby, where [bob] has no room, she gets a
    partner. *)
Lemma pairing_request_waits_iff_nobody_idle_witness :
  ((onJoinRoom Scenario.alice Scenario.aliceJoins
      (run Reach.othersPaired ChatSocket.init).1).2 = []
   ∧ (∀ id u,
        (id, u) ∈ onlineUsers (service (run Reach.othersPaired ChatSocket.init).1) →
        id ≠ Scenario.alice → User.roomId u ≠ None)
   ∧ User.roomId
       <$> getUser Scenario.bob
             (service (run Reach.othersPaired ChatSocket.init).1)
     = Some (Some (lit "chat-B-C")))
  ∧ ∃ matchId matchUser,
      (matchId, matchUser)
        ∈ onlineUsers (service (run Reach.lobbyEvents ChatSocket.init).1)
      ∧ matchId ≠ Scenario.alice
      ∧ User.roomId matchUser = None
      ∧ paired Scenario.alice matchId
          (lit "chat-" ++ Scenario.alice ++ lit "-" ++ matchId)
          (onJoinRoom Scenario.alice Scenario.aliceJoins
             (run Reach.lobbyEvents ChatSocket.init).1).1
      ∧ mkDelivery Scenario.alice SOCKET_EVENTS.MATCH_FOUND
          (MatchFound (lit "chat-" ++ Scenario.alice ++ lit "-" ++ matchId) true
             (User.interests matchUser))
          ∈ (onJoinRoom Scenario.alice Scenario.aliceJoins
               (run Reach.lobbyEvents ChatSocket.init).1).2.
Proof.
  split.
  - assert (Hids : ∀ id,
              id ∈ JsMap.keys (sockets (run Reach.othersPaired ChatSocket.init).1) →
              id ≠ []).
    { intros id Hin. apply list_elem_of_In in Hin. vm_compute in Hin.
      by destruct Hin as [<-|[<-|[<-|[]]]]. }
    destruct (pairing_request_waits_iff_nobody_idle Reach.othersPaired
                Scenario.alice Scenario.aliceJoins Scenario.aliceInLobby
                [lit "music"] eq_refl eq_refl eq_refl Hids) as (Hiff & _ & _).
    assert (Hsilent : (onJoinRoom Scenario.alice Scenario.aliceJoins
                         (run Reach.othersPaired ChatSocket.init).1).2 = [])
      by by vm_compute.
    split_and!; [done|by apply Hiff|by vm_compute].
  - assert (Hids : ∀ id,
              id ∈ JsMap.keys (sockets (run Reach.lobbyEvents ChatSocket.init).1) →
              id ≠ []).
    { intros id Hin. apply list_elem_of_In in Hin. vm_compute in Hin.
      by destruct Hin as [<-|[<-|[]]]. }
    destruct (pairing_request_waits_iff_nobody_idle Reach.lobbyEvents
                Scenario.alice Scenario.aliceJoins Scenario.aliceInLobby
                [lit "music"] eq_refl eq_refl eq_refl Hids) as (_ & _ & Hpair).
    apply Hpair. exists Scenario.bob, Scenario.bobInLobby.
    split_and!; [|done|done]. apply list_elem_of_In. vm_compute. tauto.
Defined.







(** X22.  Leaving the text chat does not end the membership.  When a user in
    the text chat sends [leave-room] for [text-chat], every other socket in
    that room gets [user-left] with the user's name, but the user stays in
    the text-chat set; so when the user's socket disconnects later, the same
    sockets get a second [user-left] for it, followed by the new
    [user-count]. *)
Theorem text_chat_leave_is_announced_again
    sid srv (user : User.t) (reason : JsVal) s :
  wf srv →
  getUser sid (service srv) = Some user →
  isInTextChat sid (service srv) = true →
  s ≠ sid →
  joined s ROOM_TYPES.TEXT_CHAT (sockets srv) = true →
  let left :=
    onLeaveRoom sid (leaveRequest (JStr ROOM_TYPES.TEXT_CHAT) reason) srv in
  deliveredTo s left.2
  = [mkDelivery s SOCKET_EVENTS.USER_LEFT
       (UserLeft None (Some (User.username user)))]
  ∧ isInTextChat sid (service left.1) = true
  ∧ deliveredTo s (step sid Disconnect left.1).2
    = [mkDelivery s SOCKET_EVENTS.USER_LEFT
         (UserLeft None (Some (User.username user)));
       mkDelivery s SOCKET_EVENTS.USER_COUNT
         (UserCount
            (getOnlineUserCount (service (step sid Disconnect left.1).1)))].
Proof.
  intros [Hst Hss] Huser Htext Hne Hjoined left.
  assert (Hleft : left =
            (mkServer (leaveRoom sid (service srv)).1
               (leave sid ROOM_TYPES.TEXT_CHAT (sockets srv)),
             socket_to_emit sid [ROOM_TYPES.TEXT_CHAT] SOCKET_EVENTS.USER_LEFT
               (UserLeft None (Some (User.username user))) (sockets srv))).
  { unfold left, onLeaveRoom. rewrite Huser.
    destruct (getProp_leaveRequest (JStr ROOM_TYPES.TEXT_CHAT) reason) as [-> ->].
    cbn [isTheString]. rewrite bool_decide_eq_true_2 by done.
    replace (truthy (JStr ROOM_TYPES.TEXT_CHAT)) with true by by vm_compute.
    cbn [negb andb]. by destruct (leaveRoom sid (service srv)). }
  assert (Htc : textChatUsers (leaveRoom sid (service srv)).1
                = textChatUsers (service srv)).
  { rewrite leaveRoom_state, Huser. by destruct (truthyStr _). }
  assert (Huser' : ∃ u, getUser sid (leaveRoom sid (service srv)).1 = Some u
                        ∧ User.username u = User.username user
                        ∧ truthyStr (User.roomId u) = false).
  { rewrite leaveRoom_state, Huser.
    destruct (truthyStr (User.roomId user)) eqn:Hr.
    - rewrite getUser_assignRoom. destruct (decide (sid = sid)); [|done].
      rewrite Huser. by eexists.
    - by exists user. }
  destruct Huser' as (u & Hu & Hname & Hidle).
  rewrite Hleft. cbn [fst snd service sockets]. split_and!.
  - rewrite deliveredTo_socket_to_emit by done.
    by rewrite bool_decide_eq_true_2, Hjoined by done.
  - unfold isInTextChat in *. by rewrite Htc.
  - unfold step, onDisconnect, removeUser.
    cbn [fst snd service sockets]. rewrite Hu.
    replace (isInTextChat sid (leaveRoom sid (service srv)).1) with true
      by (unfold isInTextChat in *; by rewrite Htc).
    assert (Hss' : JsMap.wf (disconnect sid
                     (leave sid ROOM_TYPES.TEXT_CHAT (sockets srv)))).
    { unfold disconnect, leave. by apply JsMap_wf_delete, JsMap_wf_alter. }
    assert (Hj : joined s ROOM_TYPES.TEXT_CHAT
                   (disconnect sid
                      (leave sid ROOM_TYPES.TEXT_CHAT (sockets srv))) = true).
    { unfold disconnect, leave. rewrite joined_delete by done.
      rewrite joined_alter. unfold joined in Hjoined.
      destruct (JsMap.get s (sockets srv)); [|done].
      by destruct (decide (sid = s)). }
    rewrite !deliveredTo_app, deliveredTo_io_to_emit, deliveredTo_io_emit, Hj
      by done.
    assert (Hs : s ∈ JsMap.keys (disconnect sid
                   (leave sid ROOM_TYPES.TEXT_CHAT (sockets srv)))).
    { apply JsMap_get_is_Some. unfold joined in Hj.
      by destruct (JsMap.get s _). }
    rewrite bool_decide_eq_true_2 by done. rewrite Hidle. cbn [andb fmap option_fmap option_map].
    rewrite Hname. by destruct (User.roomId u).
Qed.

Lemma text_chat_leave_is_announced_again_witness :
  deliveredTo Scenario.bob
    (onLeaveRoom Scenario.alice
       (leaveRequest (JStr ROOM_TYPES.TEXT_CHAT) JUndefined) Reach.textChat).2
  = [mkDelivery Scenario.bob SOCKET_EVENTS.USER_LEFT
       (UserLeft None (Some (lit "User7")))].
Proof.
  assert (Hwf : wf Reach.textChat) by apply wf_run, wf_init.
  assert (Hne : Scenario.bob ≠ Scenario.alice) by done.
  apply (text_chat_leave_is_announced_again Scenario.alice Reach.textChat
           (User.mk [lit "art"] (Some ROOM_TYPES.TEXT_CHAT) (lit "User7"))
           JUndefined Scenario.bob Hwf eq_refl eq_refl Hne eq_refl).
Defined.

End SessionFacts.

(** ** The relays: signal, chat-message, send-message *)

Section RelayFacts.
Import Validators MatchingService Transport ChatSocket Relay.

Lemma receivedBy_fmap s ev body (l : list jsstring) :
  NoDup l →
  receivedBy s ((λ x, mkMessage x ev body) <$> l) =
    if bool_decide (s ∈ l) then [mkMessage s ev body] else [].
Proof.
  unfold receivedBy. induction l as [|x l IH]; [done|].
  intros [Hx Hl]%NoDup_cons. rewrite fmap_cons. cbn [List.filter to].
  rewrite IH by done.
  destruct (decide (x = s)) as [->|Hne].
  - rewrite (bool_decide_eq_true_2 (s = s)) by done.
    rewrite (bool_decide_eq_false_2 (s ∈ l)) by done.
    by rewrite bool_decide_eq_true_2 by (by left).
  - rewrite (bool_decide_eq_false_2 (x = s)) by done.
    apply (f_equal (λ b : bool, if b then _ else _)).
    apply bool_decide_ext. rewrite elem_of_cons. intuition congruence.
Qed.

Lemma receivedBy_io_to_emit s r ev body ss :
  JsMap.wf ss →
  receivedBy s (Relay.io_to_emit (JStr r) ev body ss) =
    if joined s r ss then [mkMessage s ev body] else [].
Proof.
  intros Hwf. unfold Relay.io_to_emit, selected. cbn [roomNames].
  rewrite receivedBy_fmap by by apply NoDup_members.
  destruct (joined s r ss) eqn:Hj.
  - apply joined_members in Hj; [|done]. by rewrite bool_decide_eq_true_2.
  - rewrite bool_decide_eq_false_2; [done|].
    intros Hin%joined_members; [|done]. congruence.
Qed.





Lemma onSendMessage_valid
    sid (data : JsVal) (id timestamp : jsstring) srv (user : User.t) m :
  getUser sid (service srv) = Some user →
  getProp (lit "message") data = JStr m →
  1 ≤ length (trim m) ≤ VALIDATION_LIMITS.MAX_MESSAGE_LENGTH →
  onSendMessage sid data id timestamp srv =
    Relay.io_to_emit (getProp (lit "roomId") data) RECEIVE_MESSAGE
      (JObj
         (JsMap.set (lit "timestamp") (JStr timestamp)
            (JsMap.set (lit "id") (JStr id)
               (JsMap.set (lit "sender") (JStr (User.username user))
                  (JsMap.set (lit "message") (JStr (trim m))
                     (ownProps data))))))
      (sockets srv).
Proof.
  intros Huser Hm Hlen. unfold onSendMessage. rewrite Huser, Hm.
  by rewrite validateMessage_string, (bool_decide_eq_true_2 _ Hlen).
Qed.

Lemma onSendMessage_invalid
    sid (data : JsVal) (id timestamp : jsstring) srv m :
  getProp (lit "message") data = JStr m →
  ¬ (1 ≤ length (trim m) ≤ VALIDATION_LIMITS.MAX_MESSAGE_LENGTH) →
  onSendMessage sid data id timestamp srv = [].
Proof.
  intros Hm Hlen. unfold onSendMessage. rewrite Hm.
  pose proof (validateMessage_string_rejects m Hlen) as Hrej.
  destruct (getUser sid (service srv)); [|done].
  by destruct (validateMessage (JStr m)).
Qed.



(** X25.  The text-chat broadcast.  [send-message] from an unregistered
    socket, or with a [message] that [validateMessage] rejects, has no
    effect.  From a registered user, with a [message] string whose trimmed
    text has between 1 and 500 characters, every socket in the room that
    [roomId] names gets one [receive-message], the sender too if it is in
    that room; the message received holds the trimmed text, the sender's
    user name, the id and the time, and every other property of the payload
    unchanged.  The handler does not test that the sender is in the room. *)
Theorem send_message_broadcast
    sid (data : JsVal) (id timestamp : jsstring) srv :
  JsMap.wf (sockets srv) →
  (getUser sid (service srv) = None
   ∨ isValid (validateMessage (getProp (lit "message") data)) = false →
   onSendMessage sid data id timestamp srv = [])
  ∧ ∀ (user : User.t) r m,
      getUser sid (service srv) = Some user →
      getProp (lit "roomId") data = JStr r →
      getProp (lit "message") data = JStr m →
      1 ≤ length (trim m) ≤ VALIDATION_LIMITS.MAX_MESSAGE_LENGTH →
      ∃ msg,
        (∀ s, receivedBy s (onSendMessage sid data id timestamp srv) =
              if joined s r (sockets srv)
              then [mkMessage s RECEIVE_MESSAGE msg] else [])
        ∧ getProp (lit "message") msg = JStr (trim m)
        ∧ getProp (lit "sender") msg = JStr (User.username user)
        ∧ getProp (lit "id") msg = JStr id
        ∧ getProp (lit "timestamp") msg = JStr timestamp
        ∧ ∀ k, k ∉ [lit "message"; lit "sender"; lit "id"; lit "timestamp"] →
               getProp k msg = getProp k data.
Proof.
  intros Hwf. unfold onSendMessage. split.
  - intros [-> | Hinv]; [done|].
    destruct (getUser sid (service srv)); [|done].
    by destruct (validateMessage _).
  - intros user r m -> Hr Hm Hlen. rewrite Hr, Hm.
    rewrite validateMessage_string, (bool_decide_eq_true_2 _ Hlen).
    eexists. split_and!.
    + intros s. by apply receivedBy_io_to_emit.
    + unfold getProp. by rewrite !JsMap_get_set.
    + unfold getProp. by rewrite !JsMap_get_set.
    + unfold getProp. by rewrite !JsMap_get_set.
    + unfold getProp. by rewrite !JsMap_get_set.
    + intros k Hk. unfold getProp at 1. rewrite !JsMap_get_set.
      repeat (case_decide;
              [exfalso; apply Hk; subst k; apply list_elem_of_In; simpl; tauto|]).
      unfold getProp in Hm |- *. by destruct data.
Qed.

Lemma send_message_broadcast_witness :
  ∃ msg,
    (∀ s, receivedBy s
            (onSendMessage Scenario.alice Reach.post (lit "1") (lit "12:00")
               Reach.textChat) =
          if joined s ROOM_TYPES.TEXT_CHAT (sockets Reach.textChat)
          then [mkMessage s RECEIVE_MESSAGE msg] else [])
    ∧ getProp (lit "message") msg = JStr (lit "hi")
    ∧ getProp (lit "sender") msg = JStr (lit "User7")
    ∧ getProp (lit "id") msg = JStr (lit "1")
    ∧ getProp (lit "timestamp") msg = JStr (lit "12:00")
    ∧ ∀ k, k ∉ [lit "message"; lit "sender"; lit "id"; lit "timestamp"] →
           getProp k msg = getProp k Reach.post.
Proof.
  assert (Hwf : JsMap.wf (sockets Reach.textChat)) by apply wf_run, wf_init.
  destruct (send_message_broadcast Scenario.alice Reach.post (lit "1")
              (lit "12:00") Reach.textChat Hwf) as [_ Hsend].
  assert (Hlen : 1 ≤ length (trim (lit " hi "))
                 ≤ VALIDATION_LIMITS.MAX_MESSAGE_LENGTH).
  { vm_compute. lia. }
  exact (Hsend (User.mk [lit "art"] (Some ROOM_TYPES.TEXT_CHAT) (lit "User7"))
           ROOM_TYPES.TEXT_CHAT (lit " hi ") eq_refl eq_refl eq_refl Hlen).
Defined.

(** ** The clients and the server *)

Lemma length_split (sep : code_unit) (s : jsstring) :
  length (Client.split sep s) = S (length (List.filter (N.eqb sep) s)).
Proof.
  induction s as [|c s IH]; [done|]. cbn [Client.split List.filter].
  rewrite (N.eqb_sym sep c). destruct (c =? sep)%N.
  - simpl. by rewrite IH.
  - destruct (Client.split sep s) as [|piece pieces]; [done|]. by simpl in *.
Qed.

Lemma validInterests_trimmed (l : list jsstring) :
  validInterests (JStr <$> (trim <$> l))
  = List.filter (λ i, 0 <? length i) (trim <$> l).
Proof.
  unfold validInterests. induction l as [|x l IH]; [done|].
  rewrite !fmap_cons. cbn [List.filter keepInterest].
  rewrite trim_trim. destruct (0 <? length (trim x)).
  - rewrite fmap_cons. cbn [trimInterest]. by rewrite trim_trim, IH.
  - done.
Qed.



(** X27.  The interests a video-chat client sends, at the server.  The
    client splits the text of the interests field at its commas and trims
    the pieces; it does not count them.  For a registered user whose client
    emits [join-room]: with nine commas or fewer, the server stores the
    non-empty trimmed pieces as the user's interests; with ten commas or
    more the request has more than ten entries, and the server drops it
    without an answer: no state changes and nothing is emitted. *)
Theorem startChat_interests_at_the_server
    (localStream : option WebRTC.Stream) (interests : jsstring) (payload : JsVal)
    sid srv (user : User.t) :
  Client.startChat localStream interests = Some payload →
  getUser sid (service srv) = Some user →
  requestedRoomId payload = JNull
  ∧ (length (List.filter (N.eqb 44%N) interests) ≤ 9 →
     User.interests <$> getUser sid (service (onJoinRoom sid payload srv).1)
     = Some (List.filter (λ i, 0 <? length i)
               (trim <$> Client.split 44%N interests)))
  ∧ (10 ≤ length (List.filter (N.eqb 44%N) interests) →
     onJoinRoom sid payload srv = (srv, [])).
Proof.
  unfold Client.startChat. destruct localStream as [stream|]; [|done].
  destruct (negb _); [done|]. intros [= <-] Huser.
  split; [done|].
  assert (Hreq : requestedInterests
                   (joinRequest JNull
                      (JArr (JStr <$> Client.enteredInterests interests)))
                 = JArr (JStr <$> Client.enteredInterests interests)).
  { by rewrite requestedInterests_joinRequest. }
  assert (Hlen : length (JStr <$> Client.enteredInterests interests)
                 = if bool_decide (interests = []) then 0
                   else S (length (List.filter (N.eqb 44%N) interests))).
  { rewrite length_fmap. unfold Client.enteredInterests. simpl truthy.
    destruct (bool_decide (interests = [])); [done|]. cbn [negb].
    by rewrite length_fmap, length_split. }
  split.
  - intros Hcommas.
    rewrite (onJoinRoom_stores_interests sid _ srv
               (validInterests (JStr <$> Client.enteredInterests interests))).
    + f_equal. unfold Client.enteredInterests. simpl truthy.
      destruct (decide (interests = [])) as [->|Hne].
      * by rewrite bool_decide_eq_true_2.
      * rewrite bool_decide_eq_false_2 by done. cbn [negb].
        apply validInterests_trimmed.
    + by rewrite Huser.
    + rewrite Hreq, validateInterests_array.
      rewrite bool_decide_eq_true_2; [done|].
      rewrite Hlen. unfold VALIDATION_LIMITS.MAX_INTERESTS.
      destruct (bool_decide (interests = [])); lia.
  - intros Hcommas.
    apply (onJoinRoom_invalid sid _ srv (lit "Too many interests (max 10)")).
    rewrite Hreq, validateInterests_array.
    rewrite bool_decide_eq_false_2; [done|].
    rewrite Hlen. unfold VALIDATION_LIMITS.MAX_INTERESTS.
    destruct (decide (interests = [])) as [->|Hne]; [simpl in Hcommas; lia|].
    rewrite bool_decide_eq_false_2 by done. lia.
Qed.

Lemma startChat_interests_at_the_server_witness :
  requestedRoomId (joinRequest JNull (JArr [JStr (lit "music"); JStr []])) = JNull
  ∧ (length (List.filter (N.eqb 44%N) (lit " music ,")) ≤ 9 →
     User.interests
       <$> getUser Scenario.alice
             (service (onJoinRoom Scenario.alice
                         (joinRequest JNull (JArr [JStr (lit "music"); JStr []]))
                         Scenario.lobby).1)
     = Some (List.filter (λ i, 0 <? length i)
               (trim <$> Client.split 44%N (lit " music ,"))))
  ∧ (10 ≤ length (List.filter (N.eqb 44%N) (lit " music ,")) →
     onJoinRoom Scenario.alice
       (joinRequest JNull (JArr [JStr (lit "music"); JStr []])) Scenario.lobby
     = (Scenario.lobby, [])).
Proof.
  apply (startChat_interests_at_the_server (Some Reach.camera) (lit " music ,")
           _ Scenario.alice Scenario.lobby Scenario.aliceInLobby);
    by vm_compute.
Defined.

(** X28.  What the text-chat page sends, at the server.  The page emits
    [send-message] for the room [text-chat] with the text as typed, whenever
    the trimmed text is not empty; it has no upper bound.  From a registered
    user the server then broadcasts the trimmed text, with the user's name,
    to every socket in the text-chat room if the trimmed text has at most
    500 characters, and drops the message without an answer if it is
    longer. *)
Theorem text_chat_message_at_the_server
    (message : jsstring) (payload : JsVal) sid (id timestamp : jsstring) srv
    (user : User.t) :
  JsMap.wf (sockets srv) →
  getUser sid (service srv) = Some user →
  Client.handleSendMessage message true = Some payload →
  ∀ s, receivedBy s (onSendMessage sid payload id timestamp srv) =
       if bool_decide (length (trim message)
                       ≤ VALIDATION_LIMITS.MAX_MESSAGE_LENGTH)
          && joined s ROOM_TYPES.TEXT_CHAT (sockets srv)
       then [mkMessage s RECEIVE_MESSAGE
               (JObj [(lit "message", JStr (trim message));
                      (lit "roomId", JStr ROOM_TYPES.TEXT_CHAT);
                      (lit "sender", JStr (User.username user));
                      (lit "id", JStr id);
                      (lit "timestamp", JStr timestamp)])]
       else [].
Proof.
  intros Hwf Huser. unfold Client.handleSendMessage.
  destruct (truthy (JStr (trim message))) eqn:Htrim; [|done].
  cbn [andb]. intros [= <-] s.
  simpl in Htrim. apply negb_true_iff, bool_decide_eq_false in Htrim.
  assert (Hpos : 1 ≤ length (trim message)).
  { destruct (trim message); [done|simpl; lia]. }
  destruct (decide (length (trim message)
                    ≤ VALIDATION_LIMITS.MAX_MESSAGE_LENGTH)) as [Hlen|Hlen].
  - rewrite (bool_decide_eq_true_2 _ Hlen). cbn [andb].
    rewrite (onSendMessage_valid sid
               (JObj [(lit "message", JStr message);
                      (lit "roomId", JStr ROOM_TYPES.TEXT_CHAT)])
               id timestamp srv user message Huser eq_refl (conj Hpos Hlen)).
    change (getProp (lit "roomId") _) with (JStr ROOM_TYPES.TEXT_CHAT).
    rewrite receivedBy_io_to_emit by done. reflexivity.
  - rewrite (bool_decide_eq_false_2 _ Hlen). cbn [andb].
    rewrite (onSendMessage_invalid sid
               (JObj [(lit "message", JStr message);
                      (lit "roomId", JStr ROOM_TYPES.TEXT_CHAT)])
               id timestamp srv message eq_refl);
      [done|]. intros [_ ?]. done.
Qed.

Lemma text_chat_message_at_the_server_witness :
  receivedBy Scenario.bob
    (onSendMessage Scenario.alice
       (JObj [(lit "message", JStr (lit " hi "));
              (lit "roomId", JStr ROOM_TYPES.TEXT_CHAT)])
       (lit "1") (lit "12:00") Reach.textChat)
  = [mkMessage Scenario.bob RECEIVE_MESSAGE
       (JObj [(lit "message", JStr (lit "hi"));
              (lit "roomId", JStr ROOM_TYPES.TEXT_CHAT);
              (lit "sender", JStr (lit "User7"));
              (lit "id", JStr (lit "1"));
              (lit "timestamp", JStr (lit "12:00"))])].
Proof.
  assert (Hwf : JsMap.wf (sockets Reach.textChat)) by apply wf_run, wf_init.
  exact (text_chat_message_at_the_server (lit " hi ") _ Scenario.alice (lit "1")
           (lit "12:00") Reach.textChat
           (User.mk [lit "art"] (Some ROOM_TYPES.TEXT_CHAT) (lit "User7"))
           Hwf eq_refl eq_refl Scenario.bob).
Defined.

End RelayFacts.

(** ** The media stream utilities *)

Section WebRTCFacts.
Import WebRTC.

Lemma filter_setFirst (k : jsstring) (e : bool) (s : Stream) :
  List.filter (isKind k) (setFirst k e s) =
    match List.filter (isKind k) s with
    | t :: ts => mkTrack (kind t) e (readyState t) :: ts
    | [] => []
    end.
Proof.
  induction s as [|t s IH]; [done|]. cbn [setFirst List.filter].
  destruct (isKind k t) eqn:Ht.
  - cbn [List.filter]. unfold isKind in *. cbn [kind]. by rewrite Ht.
  - cbn [List.filter]. by rewrite Ht, IH.
Qed.

Lemma filter_setFirst_other (k k' : jsstring) (e : bool) (s : Stream) :
  k' ≠ k →
  List.filter (isKind k') (setFirst k e s) = List.filter (isKind k') s.
Proof.
  intros Hne. induction s as [|t s IH]; [done|]. cbn [setFirst List.filter].
  destruct (isKind k t) eqn:Ht.
  - cbn [List.filter]. unfold isKind in *. cbn [kind].
    apply bool_decide_eq_true in Ht.
    by rewrite !(bool_decide_eq_false_2 (kind t = k')) by congruence.
  - cbn [List.filter]. by rewrite IH.
Qed.

Lemma isStreamValid_setFirst (k : jsstring) (e : bool) (s : Stream) :
  isStreamValid (Some (setFirst k e s)) = isStreamValid (Some s).
Proof.
  unfold isStreamValid.
  assert (Hlen : length (setFirst k e s) = length s).
  { induction s as [|t s IH]; [done|]. simpl.
    destruct (isKind k t); simpl; by rewrite ?IH. }
  rewrite Hlen. f_equal.
  induction s as [|t s IH]; [done|]. simpl.
  destruct (isKind k t); simpl; [done|]. f_equal. apply IH.
  clear. induction s as [|t s IH]; [done|]. simpl.
  destruct (isKind k t); simpl; by rewrite ?IH.
Qed.

(** X29.  Switching the camera.  On a stream with one video track,
    [toggleTrack(stream, 'video', enabled)] returns [enabled], and
    afterwards [isVideoEnabled] gives [enabled]; the microphone's state and
    the validity of the stream are as before. *)
Theorem toggleTrack_switches_the_camera (s : Stream) (e : bool) :
  length (getVideoTracks s) = 1 →
  (toggleTrack (Some s) (lit "video") e).2 = Some e
  ∧ isVideoEnabled (toggleTrack (Some s) (lit "video") e).1 = e
  ∧ isAudioEnabled (toggleTrack (Some s) (lit "video") e).1
    = isAudioEnabled (Some s)
  ∧ isStreamValid (toggleTrack (Some s) (lit "video") e).1
    = isStreamValid (Some s).
Proof.
  intros Hone. unfold toggleTrack.
  rewrite bool_decide_eq_true_2 by done.
  change (List.filter (isKind (lit "video")) s) with (getVideoTracks s).
  rewrite Hone. cbn [Nat.eqb fst snd]. split_and!.
  - done.
  - unfold isVideoEnabled, getVideoTracks in *. rewrite filter_setFirst.
    by destruct (List.filter (isKind (lit "video")) s).
  - unfold isAudioEnabled, getAudioTracks.
    by rewrite filter_setFirst_other.
  - apply isStreamValid_setFirst.
Qed.

Lemma toggleTrack_switches_the_camera_witness :
  (toggleTrack (Some Reach.camera) (lit "video") false).2 = Some false
  ∧ isVideoEnabled (toggleTrack (Some Reach.camera) (lit "video") false).1 = false
  ∧ isAudioEnabled (toggleTrack (Some Reach.camera) (lit "video") false).1
    = isAudioEnabled (Some Reach.camera)
  ∧ isStreamValid (toggleTrack (Some Reach.camera) (lit "video") false).1
    = isStreamValid (Some Reach.camera).
Proof. apply (toggleTrack_switches_the_camera Reach.camera false). reflexivity. Defined.

(** X30.  A stopped stream starts no chat.  After [stopMediaStream] no
    track of the stream is live, so [isStreamValid] is false for it, and
    [startChat] with this stream for the local stream emits no
    [join-room]. *)
Theorem stopped_stream_starts_no_chat
    (stream : option Stream) (interests : jsstring) :
  isStreamValid (stopMediaStream stream) = false
  ∧ Client.startChat (stopMediaStream stream) interests = None.
Proof.
  assert (Hvalid : isStreamValid (stopMediaStream stream) = false).
  { destruct stream as [tracks|]; [|done]. unfold stopMediaStream, isStreamValid.
    apply andb_false_iff. right.
    induction tracks as [|t tracks IH]; [done|]. simpl. by rewrite IH. }
  split; [done|]. unfold Client.startChat.
  destruct (stopMediaStream stream); [|done]. by rewrite Hvalid.
Qed.

End WebRTCFacts.
